(** * health-sync: incremental synchronisation and idempotent ingestion

    A shallow embedding of the ingestion endpoint of the dashboard
    ([dashboard/app/api/sync/route.ts]), of its refresh endpoint
    ([dashboard/app/api/sync/refresh/route.ts]) and of the iOS
    synchronisation client ([HealthKitManager.swift], [SyncManager.swift],
    [AnchorStore.swift], [Models.swift]), with the properties of the
    synchronisation engine stated and proved over them.

    JavaScript numbers are IEEE doubles ([PrimFloat.float]); strings are
    [string]; JavaScript objects used as dictionaries and the rows of a
    table under a unique index are [gmap]s; the [try]/[catch]/[finally]
    blocks of the handler are the combinators of a small state-and-error
    monad. *)

From Stdlib Require Import PrimFloat.
From Stdlib Require Uint63.
From Stdlib Require Import ZArith Lia.
From stdpp Require Import base option list strings pretty gmap.

Local Open Scope string_scope.

(** ** JavaScript values *)

Module Js.

(** The values a template literal of the handler can receive. *)
Inductive Value :=
| Undefined
| Number (x : float)
| Str (s : string).

Definition of_number (o : option float) : Value :=
  match o with Some x => Number x | None => Undefined end.

Definition of_string (o : option string) : Value :=
  match o with Some s => Str s | None => Undefined end.

(** [a ?? b] *)
Definition coalesce (a b : Value) : Value :=
  match a with Undefined => b | _ => a end.

(** ToBoolean on a number: [0], [-0] and [NaN] are falsy. *)
Definition number_truthy (x : float) : bool :=
  negb (PrimFloat.eqb x PrimFloat.zero || PrimFloat.is_nan x).

(** ToBoolean on an optional number field ([undefined] is falsy). *)
Definition truthy (o : option float) : bool :=
  match o with Some x => number_truthy x | None => false end.

(** [s.startsWith(p)] *)
Fixpoint startsWith (p s : string) : bool :=
  match p, s with
  | EmptyString, _ => true
  | String a p', String b s' => if Ascii.eqb a b then startsWith p' s' else false
  | String _ _, EmptyString => false
  end.

(** [s.slice(n)] *)
Fixpoint slice (n : nat) (s : string) : string :=
  match n, s with
  | O, _ => s
  | S n', String _ s' => slice n' s'
  | S _, EmptyString => EmptyString
  end.

End Js.

(** ** The ingestion endpoint, [route.ts] *)

Module Route.

(** [process.env.SYNC_API_SECRET || "CHANGE_ME"]: an unset or empty
    variable falls back to the default. *)
Definition API_SECRET (env : option string) : string :=
  match env with
  | Some EmptyString | None => "CHANGE_ME"
  | Some s => s
  end.

Record HealthRecordPayload := {
  recordType : string;
  sourceName : string;
  sourceBundle : option string;
  value : option float;
  valueText : option string;
  r_unit : option string;
  startTime : string;
  endTime : string;
  metadata : option (list (string * string))
}.

Record WorkoutPayload := {
  workoutType : string;
  w_sourceName : string;
  w_sourceBundle : option string;
  w_startTime : string;
  w_endTime : string;
  durationSeconds : float;
  totalDistance : option float;
  totalEnergyBurned : option float;
  statistics : option (gmap string float);
  w_metadata : option (list (string * string))
}.

Record SyncBatch := {
  dataType : string;
  records : option (list HealthRecordPayload);
  workouts : option (list WorkoutPayload);
  deletedUUIDs : list string;
  deviceId : string;
  timestamp : string
}.

(** An incoming request: the [Authorization] header as
    [request.headers.get] returns it, and what [request.json()] yields
    when it is called ([inl e]: the body is not JSON and the call
    rejects with an error that prints as [e]). *)
Record Request := {
  authorization : option string;
  json : string + SyncBatch
}.

(** Rows of the two tables, column by column as the INSERT statements
    list them. *)
Record HealthRawRow := {
  record_type : string;
  source_name : string;
  source_bundle_id : option string;
  hr_unit : option string;
  value_numeric : option float;
  value_text : option string;
  start_time : string;
  end_time : string;
  hr_metadata : option string;
  record_hash : string
}.

Record WorkoutRow := {
  workout_type : string;
  wr_source_name : string;
  wr_source_bundle_id : option string;
  wr_start_time : string;
  wr_end_time : string;
  duration_seconds : float;
  total_distance : option float;
  total_distance_unit : option string;
  total_energy_burned : option float;
  total_energy_unit : option string;
  avg_heart_rate : option float;
  min_heart_rate : option float;
  max_heart_rate : option float;
  wr_metadata : option string;
  workout_hash : string
}.

(** The stored tables.  [ON CONFLICT (record_hash)] and
    [ON CONFLICT (workout_hash)] need a unique index on the hash
    column, so each table is a finite map from hash to row. *)
Record Database := {
  health_raw : gmap string HealthRawRow;
  workouts_table : gmap string WorkoutRow
}.

Inductive Statement :=
| Begin
| InsertHealthRaw (row : HealthRawRow)
| InsertWorkout (row : WorkoutRow)
| Commit
| Rollback.

(** What the handler does besides answering, in order. *)
Inductive Event :=
| RequestJson
| CreateHash (key : string)
| PoolConnect
| Query (q : Statement)
| Release
| ConsoleLog (device : string) (insertedRecords insertedWorkouts skippedDuplicates : nat)
| ConsoleError (details : string).

(** The server: the committed tables, the working copy of the open
    transaction, and the effects performed so far (latest first). *)
Record Server := {
  committed : Database;
  transaction : option Database;
  effects : list Event
}.

Inductive Body :=
| Unauthorized
| Success (insertedRecords insertedWorkouts skippedDuplicates : nat)
| SyncFailed (details : string).

Record Response := { status : Z; body : Body }.

(** *** Computations that read and write the server and may throw *)

Definition Eff (A : Type) : Type := Server -> Server * (string + A).

Definition ret {A} (a : A) : Eff A := fun s => (s, inr a).

Definition bind {A B} (m : Eff A) (k : A -> Eff B) : Eff B :=
  fun s => match m s with
           | (s', inr a) => k a s'
           | (s', inl e) => (s', inl e)
           end.

Definition throw {A} (e : string) : Eff A := fun s => (s, inl e).

(** [try { m } catch (error) { h error }] *)
Definition try_catch {A} (m : Eff A) (h : string -> Eff A) : Eff A :=
  fun s => match m s with
           | (s', inl e) => h e s'
           | r => r
           end.

(** [try { m } finally { f }] *)
Definition try_finally {A} (m : Eff A) (f : Eff unit) : Eff A :=
  fun s => match m s with
           | (s', r) => match f s' with
                        | (s'', inr _) => (s'', r)
                        | (s'', inl e) => (s'', inl e)
                        end
           end.

Definition emit (e : Event) : Eff unit :=
  fun s => ({| committed := committed s;
               transaction := transaction s;
               effects := e :: effects s |}, inr tt).

Declare Scope eff_scope.
Delimit Scope eff_scope with eff.
Notation "'let*' x ':=' m 'in' k" := (bind m (fun x => k))
  (at level 10, x name, m at level 100, k at level 200) : eff_scope.
Notation "m ;; k" := (bind m (fun _ => k))
  (at level 100, right associativity) : eff_scope.

Section Handler.

(** [process.env.SYNC_API_SECRET] *)
Variable SYNC_API_SECRET : option string.
(** [createHash("sha256").update(key).digest("hex")] *)
Variable sha256_hex : string -> string.
(** Number::toString, as a template literal applies it. *)
Variable number_to_string : float -> string.
(** [JSON.stringify] on a metadata object. *)
Variable json_stringify : list (string * string) -> string.
(** The constraints of the two tables other than the unique hash
    (column types, NOT NULL, CHECK); the schema is not part of the
    repository.  [Some msg] is the error the store raises for the
    row. *)
Variable health_raw_violation : HealthRawRow -> option string.
Variable workouts_violation : WorkoutRow -> option string.

Definition template (v : Js.Value) : string :=
  match v with
  | Js.Undefined => "undefined"
  | Js.Number x => number_to_string x
  | Js.Str s => s
  end.

(** [record.value ?? record.valueText] *)
Definition value_or_text (record : HealthRecordPayload) : Js.Value :=
  Js.coalesce (Js.of_number (value record)) (Js.of_string (valueText record)).

Definition record_key (record : HealthRecordPayload) : string :=
  recordType record ++ "|" ++ sourceName record ++ "|" ++ startTime record
    ++ "|" ++ endTime record ++ "|" ++ template (value_or_text record).

Definition generateRecordHash (record : HealthRecordPayload) : string :=
  sha256_hex (record_key record).

Definition workout_key (workout : WorkoutPayload) : string :=
  workoutType workout ++ "|" ++ w_sourceName workout ++ "|" ++ w_startTime workout
    ++ "|" ++ w_endTime workout ++ "|" ++ number_to_string (durationSeconds workout).

Definition generateWorkoutHash (workout : WorkoutPayload) : string :=
  sha256_hex (workout_key workout).

(** The parameter array of the INSERT into [health_raw]. *)
Definition health_raw_values (record : HealthRecordPayload) (hash : string) : HealthRawRow :=
  {| record_type := recordType record;
     source_name := sourceName record;
     source_bundle_id := sourceBundle record;
     hr_unit := r_unit record;
     value_numeric := value record;
     value_text := valueText record;
     start_time := startTime record;
     end_time := endTime record;
     hr_metadata := match metadata record with
                    | Some m => Some (json_stringify m)
                    | None => None
                    end;
     record_hash := hash |}.

(** The parameter array of the INSERT into [workouts]. *)
Definition workouts_values (workout : WorkoutPayload) (hash : string) : WorkoutRow :=
  {| workout_type := workoutType workout;
     wr_source_name := w_sourceName workout;
     wr_source_bundle_id := w_sourceBundle workout;
     wr_start_time := w_startTime workout;
     wr_end_time := w_endTime workout;
     duration_seconds := durationSeconds workout;
     total_distance := totalDistance workout;
     total_distance_unit := if Js.truthy (totalDistance workout) then Some "mi" else None;
     total_energy_burned := totalEnergyBurned workout;
     total_energy_unit := if Js.truthy (totalEnergyBurned workout) then Some "kcal" else None;
     avg_heart_rate := statistics workout ≫= (fun st => st !! "heartRateAvg");
     min_heart_rate := statistics workout ≫= (fun st => st !! "heartRateMin");
     max_heart_rate := statistics workout ≫= (fun st => st !! "heartRateMax");
     wr_metadata := match w_metadata workout with
                    | Some m => Some (json_stringify m)
                    | None => None
                    end;
     workout_hash := hash |}.

(** *** The connection *)

(** The tables a statement acts on: the working copy of the open
    transaction, or the committed tables outside one. *)
Definition current (s : Server) : Database :=
  match transaction s with Some d => d | None => committed s end.

Definition write (d : Database) : Eff unit :=
  fun s => match transaction s with
           | Some _ => ({| committed := committed s; transaction := Some d;
                           effects := effects s |}, inr tt)
           | None => ({| committed := d; transaction := None;
                         effects := effects s |}, inr tt)
           end.

(** [INSERT ... ON CONFLICT (hash) DO NOTHING RETURNING id]: the row
    count is 0 when a row with the hash is stored already. *)
Definition insert_health_raw (row : HealthRawRow) : Eff nat :=
  match health_raw_violation row with
  | Some msg => throw msg
  | None =>
      fun s =>
        let d := current s in
        match health_raw d !! record_hash row with
        | Some _ => (s, inr 0)
        | None =>
            (write {| health_raw := <[record_hash row := row]> (health_raw d);
                      workouts_table := workouts_table d |} ;; ret 1)%eff s
        end
  end.

Definition insert_workout (row : WorkoutRow) : Eff nat :=
  match workouts_violation row with
  | Some msg => throw msg
  | None =>
      fun s =>
        let d := current s in
        match workouts_table d !! workout_hash row with
        | Some _ => (s, inr 0)
        | None =>
            (write {| health_raw := health_raw d;
                      workouts_table := <[workout_hash row := row]> (workouts_table d) |} ;;
             ret 1)%eff s
        end
  end.

(** [client.query(q)], returning [result.rowCount]. *)
Definition query (q : Statement) : Eff nat :=
  (emit (Query q) ;;
   match q with
   | Begin =>
       fun s => ({| committed := committed s; transaction := Some (current s);
                    effects := effects s |}, inr 0)
   | Commit =>
       fun s => ({| committed := current s; transaction := None;
                    effects := effects s |}, inr 0)
   | Rollback =>
       fun s => ({| committed := committed s; transaction := None;
                    effects := effects s |}, inr 0)
   | InsertHealthRaw row => insert_health_raw row
   | InsertWorkout row => insert_workout row
   end)%eff.

(** *** The handler *)

(** The three counters of [POST]. *)
Record Counters := {
  insertedRecords : nat;
  insertedWorkouts : nat;
  skippedDuplicates : nat
}.

(** [for (const record of batch.records) { ... }] *)
Fixpoint insert_records (rs : list HealthRecordPayload) (c : Counters) : Eff Counters :=
  match rs with
  | [] => ret c
  | record :: rest =>
      (emit (CreateHash (record_key record)) ;;
       let hash := generateRecordHash record in
       let* rowCount := query (InsertHealthRaw (health_raw_values record hash)) in
       insert_records rest
         (if (0 <? rowCount)%nat
          then {| insertedRecords := S (insertedRecords c);
                  insertedWorkouts := insertedWorkouts c;
                  skippedDuplicates := skippedDuplicates c |}
          else {| insertedRecords := insertedRecords c;
                  insertedWorkouts := insertedWorkouts c;
                  skippedDuplicates := S (skippedDuplicates c) |}))%eff
  end.

(** [for (const workout of batch.workouts) { ... }] *)
Fixpoint insert_workouts (ws : list WorkoutPayload) (c : Counters) : Eff Counters :=
  match ws with
  | [] => ret c
  | workout :: rest =>
      (emit (CreateHash (workout_key workout)) ;;
       let hash := generateWorkoutHash workout in
       let* rowCount := query (InsertWorkout (workouts_values workout hash)) in
       insert_workouts rest
         (if (0 <? rowCount)%nat
          then {| insertedRecords := insertedRecords c;
                  insertedWorkouts := S (insertedWorkouts c);
                  skippedDuplicates := skippedDuplicates c |}
          else {| insertedRecords := insertedRecords c;
                  insertedWorkouts := insertedWorkouts c;
                  skippedDuplicates := S (skippedDuplicates c) |}))%eff
  end.

(** [!authHeader?.startsWith("Bearer ") || authHeader.slice(7) !== API_SECRET] *)
Definition rejected (authHeader : option string) : bool :=
  match authHeader with
  | None => true
  | Some h =>
      negb (Js.startsWith "Bearer " h)
      || negb (String.eqb (Js.slice 7 h) (API_SECRET SYNC_API_SECRET))
  end.

(** [await request.json()] *)
Definition request_json (request : Request) : Eff SyncBatch :=
  (emit RequestJson ;;
   match json request with
   | inr batch => ret batch
   | inl e => throw e
   end)%eff.

Definition transact (batch : SyncBatch) : Eff Response :=
  (query Begin ;;
   let* c1 :=
     match records batch with
     | Some ((_ :: _) as rs) =>
         insert_records rs {| insertedRecords := 0; insertedWorkouts := 0;
                              skippedDuplicates := 0 |}
     | _ => ret {| insertedRecords := 0; insertedWorkouts := 0; skippedDuplicates := 0 |}
     end in
   let* c2 :=
     match workouts batch with
     | Some ((_ :: _) as ws) => insert_workouts ws c1
     | _ => ret c1
     end in
   query Commit ;;
   emit (ConsoleLog (deviceId batch) (insertedRecords c2) (insertedWorkouts c2)
           (skippedDuplicates c2)) ;;
   ret {| status := 200%Z;
          body := Success (insertedRecords c2) (insertedWorkouts c2)
                    (skippedDuplicates c2) |})%eff.

Definition POST (request : Request) : Eff Response :=
  let authHeader := authorization request in
  if rejected authHeader
  then ret {| status := 401%Z; body := Unauthorized |}
  else
    try_catch
      (let* batch := request_json request in
       emit PoolConnect ;;
       try_finally
         (try_catch (transact batch)
            (fun error => query Rollback ;; throw error))
         (emit Release))%eff
      (fun error =>
         emit (ConsoleError error) ;;
         ret {| status := 500%Z; body := SyncFailed error |})%eff.

End Handler.

(** *** Vocabulary of the statements about the handler *)

(** The counters after [n] more duplicates. *)
Definition skipped (n : nat) (c : Counters) : Counters :=
  {| insertedRecords := insertedRecords c;
     insertedWorkouts := insertedWorkouts c;
     skippedDuplicates := n + skippedDuplicates c |}.

(** The records and the workouts of a batch, none when the member is
    absent. *)
Definition batch_records (batch : SyncBatch) : list HealthRecordPayload :=
  default [] (records batch).

Definition batch_workouts (batch : SyncBatch) : list WorkoutPayload :=
  default [] (workouts batch).

(** The counters at the start of a request. *)
Definition no_counts : Counters :=
  {| insertedRecords := 0; insertedWorkouts := 0; skippedDuplicates := 0 |}.

(** The server after BEGIN; after COMMIT and the log line of a batch;
    after ROLLBACK, the release and the error line; after the body was
    read and a connection taken; after the release. *)
Definition begun (s : Server) : Server :=
  {| committed := committed s; transaction := Some (current s);
     effects := Query Begin :: effects s |}.

Definition ended (batch : SyncBatch) (c : Counters) (s : Server) : Server :=
  {| committed := current s; transaction := None;
     effects := ConsoleLog (deviceId batch) (insertedRecords c) (insertedWorkouts c)
                  (skippedDuplicates c) :: Query Commit :: effects s |}.

(** The answer to a committed batch. *)
Definition success (c : Counters) : Response :=
  {| status := 200;
     body := Success (insertedRecords c) (insertedWorkouts c) (skippedDuplicates c) |}.

Definition rolled_back (e : string) (s : Server) : Server :=
  {| committed := committed s; transaction := None;
     effects := ConsoleError e :: Release :: Query Rollback :: effects s |}.

Definition connected (s : Server) : Server :=
  {| committed := committed s; transaction := transaction s;
     effects := PoolConnect :: RequestJson :: effects s |}.

Definition released (s : Server) : Server :=
  {| committed := committed s; transaction := transaction s;
     effects := Release :: effects s |}.

(** The batch with other deletion markers. *)
Definition with_deletedUUIDs (deleted : list string) (batch : SyncBatch) : SyncBatch :=
  {| dataType := dataType batch;
     records := records batch;
     workouts := workouts batch;
     deletedUUIDs := deleted;
     deviceId := deviceId batch;
     timestamp := timestamp batch |}.

Section Rows.

Variable sha256_hex : string -> string.
Variable number_to_string : float -> string.
Variable json_stringify : list (string * string) -> string.
Variable health_raw_violation : HealthRawRow -> option string.
Variable workouts_violation : WorkoutRow -> option string.

(** The rows the handler inserts for a record and for a workout. *)
Definition record_row (record : HealthRecordPayload) : HealthRawRow :=
  health_raw_values json_stringify record
    (generateRecordHash sha256_hex number_to_string record).

Definition workout_row (workout : WorkoutPayload) : WorkoutRow :=
  workouts_values json_stringify workout
    (generateWorkoutHash sha256_hex number_to_string workout).

(** The store raises no error for the records, the workouts, of the
    batch. *)
Definition clean_records (batch : SyncBatch) : Prop :=
  Forall (fun r => health_raw_violation (record_row r) = None) (batch_records batch).

Definition clean_workouts (batch : SyncBatch) : Prop :=
  Forall (fun w => workouts_violation (workout_row w) = None) (batch_workouts batch).

(** Every element of the batch has a row under its hash. *)
Definition stored (batch : SyncBatch) (d : Database) : Prop :=
  Forall (fun r => is_Some (health_raw d !! generateRecordHash sha256_hex number_to_string r))
    (batch_records batch)
  /\ Forall (fun w =>
               is_Some (workouts_table d !! generateWorkoutHash sha256_hex number_to_string w))
       (batch_workouts batch).

(** The store raises [msg] for an element of the batch. *)
Definition refused (batch : SyncBatch) (msg : string) : Prop :=
  Exists (fun r => health_raw_violation (record_row r) = Some msg) (batch_records batch)
  \/ Exists (fun w => workouts_violation (workout_row w) = Some msg) (batch_workouts batch).

End Rows.

End Route.

(** ** The iOS client: [Models.swift], [AnchorStore.swift],
    [SyncManager.swift], [HealthKitManager.swift] *)

Module HealthSync.

(** A [Date] is its time interval since 1970; a Swift [Double] is an
    IEEE double. *)
Definition Date := float.

(** *** [Models.swift] *)

Inductive HealthDataType :=
| stepCount
| heartRate
| activeEnergyBurned
| workout
| sleepAnalysis
| bodyMass
| vo2Max.

Definition rawValue (ty : HealthDataType) : string :=
  match ty with
  | stepCount => "HKQuantityTypeIdentifierStepCount"
  | heartRate => "HKQuantityTypeIdentifierHeartRate"
  | activeEnergyBurned => "HKQuantityTypeIdentifierActiveEnergyBurned"
  | workout => "HKWorkoutType"
  | sleepAnalysis => "HKCategoryTypeIdentifierSleepAnalysis"
  | bodyMass => "HKQuantityTypeIdentifierBodyMass"
  | vo2Max => "HKQuantityTypeIdentifierVO2Max"
  end.

Definition allCases : list HealthDataType :=
  [stepCount; heartRate; activeEnergyBurned; workout; sleepAnalysis; bodyMass; vo2Max].

(** [HealthDataType(rawValue: s)] *)
Definition ofRawValue (s : string) : option HealthDataType :=
  List.find (fun ty => String.eqb (rawValue ty) s) allCases.

Inductive HKSampleType :=
| HKQuantityType (identifier : string)
| HKWorkoutType
| HKCategoryType (identifier : string).

Definition hkSampleType (ty : HealthDataType) : option HKSampleType :=
  match ty with
  | stepCount => Some (HKQuantityType "HKQuantityTypeIdentifierStepCount")
  | heartRate => Some (HKQuantityType "HKQuantityTypeIdentifierHeartRate")
  | activeEnergyBurned => Some (HKQuantityType "HKQuantityTypeIdentifierActiveEnergyBurned")
  | workout => Some HKWorkoutType
  | sleepAnalysis => Some (HKCategoryType "HKCategoryTypeIdentifierSleepAnalysis")
  | bodyMass => Some (HKQuantityType "HKQuantityTypeIdentifierBodyMass")
  | vo2Max => Some (HKQuantityType "HKQuantityTypeIdentifierVO2Max")
  end.

Definition displayName (ty : HealthDataType) : string :=
  match ty with
  | stepCount => "Steps"
  | heartRate => "Heart Rate"
  | activeEnergyBurned => "Active Energy"
  | workout => "Workouts"
  | sleepAnalysis => "Sleep"
  | bodyMass => "Weight"
  | vo2Max => "VO2 Max"
  end.

Record HealthRecordPayload := {
  recordType : string;
  sourceName : string;
  sourceBundle : option string;
  value : option float;
  valueText : option string;
  r_unit : option string;
  startTime : Date;
  endTime : Date;
  metadata : option (gmap string string)
}.

Record WorkoutPayload := {
  workoutType : string;
  w_sourceName : string;
  w_sourceBundle : option string;
  w_startTime : Date;
  w_endTime : Date;
  durationSeconds : float;
  totalDistance : option float;
  totalEnergyBurned : option float;
  statistics : option (gmap string float);
  w_metadata : option (gmap string string)
}.

Record SyncBatch := {
  dataType : string;
  records : option (list HealthRecordPayload);
  workouts : option (list WorkoutPayload);
  deletedUUIDs : list string;
  deviceId : string;
  timestamp : Date
}.

Record TypeSyncStatus := {
  ts_id : string;
  ts_type : HealthDataType;
  ts_lastSyncTime : option Date;
  lastSyncCount : option Z;
  ts_lastError : option string;
  pendingCount : Z;
  ts_isAuthorized : bool
}.

(** [SyncConfig].  The device identifier and the secret come from the
    device and from [Secrets.plist]; the other members are the
    constants of [default_config]. *)
Record SyncConfig := {
  serverURL : string;
  refreshURL : string;
  batchSize : nat;
  backfillDays : Z;
  config_deviceId : string;
  apiSecret : string
}.

Definition default_config (device secret : string) : SyncConfig :=
  {| serverURL := "https://fit.justslobo.com/api/sync";
     refreshURL := "https://fit.justslobo.com/api/sync/refresh";
     batchSize := 1000;
     backfillDays := 30;
     config_deviceId := device;
     apiSecret := secret |}.

(** *** HealthKit samples *)

Inductive HKUnit :=
| unit_count
| unit_count_per_minute
| unit_kilocalorie
| unit_pound
| unit_millilitre_per_minute_kilogram
| unit_mile.

(** An [HKQuantity] is what [doubleValue(for:)] answers for each unit. *)
Record HKQuantity := { doubleValue : HKUnit -> float }.

Record HKSource := { name : string; bundleIdentifier : string }.

(** Metadata values are kept as the text ["\($0)"] prints for them. *)
Record HKQuantitySample := {
  quantityType : string;
  quantity : HKQuantity;
  q_source : HKSource;
  q_startDate : Date;
  q_endDate : Date;
  q_metadata : option (gmap string string)
}.

Record HKCategorySample := {
  categoryType : string;
  c_value : Z;
  c_source : HKSource;
  c_startDate : Date;
  c_endDate : Date;
  c_metadata : option (gmap string string)
}.

Inductive HKWorkoutActivityType :=
| walking | running | cycling | swimming
| traditionalStrengthTraining | functionalStrengthTraining
| hiking | yoga | elliptical | rowing
| coreTraining | highIntensityIntervalTraining
| crossTraining | stairClimbing | stairs
| climbing | jumpRope | paddleSports
| underwaterDiving | crossCountrySkiing | downhillSkiing
| snowboarding | skatingSports | tennis | golf
| otherActivity (raw : nat).

(** [statistics(for: heartRate)]: the three optional quantities. *)
Record HKStatistics := {
  averageQuantity : option HKQuantity;
  minimumQuantity : option HKQuantity;
  maximumQuantity : option HKQuantity
}.

Record HKWorkout := {
  workoutActivityType : HKWorkoutActivityType;
  k_source : HKSource;
  k_startDate : Date;
  k_endDate : Date;
  duration : float;
  k_totalDistance : option HKQuantity;
  k_totalEnergyBurned : option HKQuantity;
  heartRateStatistics : option HKStatistics;
  k_metadata : option (gmap string string)
}.

Inductive HKSample :=
| QuantitySample (q : HKQuantitySample)
| CategorySample (c : HKCategorySample)
| WorkoutSample (k : HKWorkout).

Definition startDate (s : HKSample) : Date :=
  match s with
  | QuantitySample q => q_startDate q
  | CategorySample c => c_startDate c
  | WorkoutSample k => k_startDate k
  end.

Definition endDate (s : HKSample) : Date :=
  match s with
  | QuantitySample q => q_endDate q
  | CategorySample c => c_endDate c
  | WorkoutSample k => k_endDate k
  end.

(** *** Conversions to payloads ([Models.swift], extensions) *)

Definition quantity_unit (identifier : string) : HKUnit * string :=
  if String.eqb identifier "HKQuantityTypeIdentifierStepCount" then (unit_count, "count")
  else if String.eqb identifier "HKQuantityTypeIdentifierHeartRate"
       then (unit_count_per_minute, "count/min")
  else if String.eqb identifier "HKQuantityTypeIdentifierActiveEnergyBurned"
       then (unit_kilocalorie, "kcal")
  else if String.eqb identifier "HKQuantityTypeIdentifierBodyMass" then (unit_pound, "lb")
  else if String.eqb identifier "HKQuantityTypeIdentifierVO2Max"
       then (unit_millilitre_per_minute_kilogram, "mL/min·kg")
  else (unit_count, "count").

Definition quantity_toPayload (q : HKQuantitySample) : HealthRecordPayload :=
  let (u, unitString) := quantity_unit (quantityType q) in
  {| recordType := quantityType q;
     sourceName := name (q_source q);
     sourceBundle := Some (bundleIdentifier (q_source q));
     value := Some (doubleValue (quantity q) u);
     valueText := None;
     r_unit := Some unitString;
     startTime := q_startDate q;
     endTime := q_endDate q;
     metadata := q_metadata q |}.

(** [HKCategoryValueSleepAnalysis(rawValue:)], by the raw values of
    the HealthKit headers. *)
Definition sleepValueString (v : Z) : string :=
  match v with
  | 0%Z => "InBed"
  | 1%Z => "AsleepUnspecified"
  | 2%Z => "Awake"
  | 3%Z => "AsleepCore"
  | 4%Z => "AsleepDeep"
  | 5%Z => "AsleepREM"
  | _ => "Unknown"
  end.

(** [Double(value)] for an [Int] below [2^63] in magnitude. *)
Definition Double_of_Int (v : Z) : float :=
  match v with
  | Z0 => PrimFloat.zero
  | Zpos _ => PrimFloat.of_uint63 (Uint63.of_Z v)
  | Zneg _ => PrimFloat.opp (PrimFloat.of_uint63 (Uint63.of_Z (- v)))
  end.

Definition category_toPayload (c : HKCategorySample) : HealthRecordPayload :=
  let text :=
    if String.eqb (categoryType c) "HKCategoryTypeIdentifierSleepAnalysis"
    then sleepValueString (c_value c)
    else pretty (c_value c) in
  {| recordType := categoryType c;
     sourceName := name (c_source c);
     sourceBundle := Some (bundleIdentifier (c_source c));
     value := Some (Double_of_Int (c_value c));
     valueText := Some text;
     r_unit := None;
     startTime := c_startDate c;
     endTime := c_endDate c;
     metadata := c_metadata c |}.

(** [lowercased()], on the letters of ASCII. *)
Fixpoint lowercased (s : string) : string :=
  match s with
  | EmptyString => EmptyString
  | String ch s' =>
      let n := Ascii.nat_of_ascii ch in
      String (if (65 <=? n)%nat && (n <=? 90)%nat then Ascii.ascii_of_nat (n + 32) else ch)
        (lowercased s')
  end.

(** [s.contains(sub)] *)
Fixpoint contains (s sub : string) : bool :=
  Js.startsWith sub s
  || match s with
     | String _ s' => contains s' sub
     | EmptyString => false
     end.

(** Membership in [validTypes], which lists every activity named in
    [HKWorkoutActivityType] above. *)
Definition validTypes_contains (a : HKWorkoutActivityType) : bool :=
  match a with
  | otherActivity _ => false
  | _ => true
  end.

Definition shouldSync (k : HKWorkout) : bool :=
  let validSources := ["watch"; "apple watch"] in
  let sourceLower := lowercased (name (k_source k)) in
  if negb (existsb (fun v => contains sourceLower v) validSources) then false
  else validTypes_contains (workoutActivityType k).

Definition activity_name (a : HKWorkoutActivityType) : string :=
  match a with
  | walking => "HKWorkoutActivityTypeWalking"
  | running => "HKWorkoutActivityTypeRunning"
  | cycling => "HKWorkoutActivityTypeCycling"
  | swimming => "HKWorkoutActivityTypeSwimming"
  | traditionalStrengthTraining => "HKWorkoutActivityTypeTraditionalStrengthTraining"
  | functionalStrengthTraining => "HKWorkoutActivityTypeFunctionalStrengthTraining"
  | hiking => "HKWorkoutActivityTypeHiking"
  | yoga => "HKWorkoutActivityTypeYoga"
  | elliptical => "HKWorkoutActivityTypeElliptical"
  | rowing => "HKWorkoutActivityTypeRowing"
  | _ => "HKWorkoutActivityTypeOther"
  end.

Definition put_stat (key : string) (q : option HKQuantity) (stats : gmap string float)
  : gmap string float :=
  match q with
  | Some v => <[key := doubleValue v unit_count_per_minute]> stats
  | None => stats
  end.

Definition workout_toPayload (k : HKWorkout) : WorkoutPayload :=
  let stats : gmap string float :=
    match heartRateStatistics k with
    | Some hrStats =>
        put_stat "heartRateMax" (maximumQuantity hrStats)
          (put_stat "heartRateMin" (minimumQuantity hrStats)
             (put_stat "heartRateAvg" (averageQuantity hrStats) ∅))
    | None => ∅
    end in
  {| workoutType := activity_name (workoutActivityType k);
     w_sourceName := name (k_source k);
     w_sourceBundle := Some (bundleIdentifier (k_source k));
     w_startTime := k_startDate k;
     w_endTime := k_endDate k;
     durationSeconds := duration k;
     totalDistance := (fun q => doubleValue q unit_mile) <$> k_totalDistance k;
     totalEnergyBurned := (fun q => doubleValue q unit_kilocalorie) <$> k_totalEnergyBurned k;
     statistics := if decide (stats = ∅) then None else Some stats;
     w_metadata := k_metadata k |}.

(** *** The platform *)

Inductive HKQueryAnchor := anchor_at (position : nat).

Record HKDeletedObject := { uuidString : string }.

Inductive HKQueryOption := strictStartDate | strictEndDate.

(** [HKQuery.predicateForSamples(withStart:end:options:)] *)
Record NSPredicate := {
  withStart : option Date;
  withEnd : option Date;
  options : list HKQueryOption
}.

(** The samples a predicate of [predicateForSamples] selects, as HealthKit
    documents the two options: with [strictStartDate] a sample must start
    inside the period, with [strictEndDate] it must end inside it, and
    without them it must overlap the period. *)
Definition satisfies (p : NSPredicate) (s : HKSample) : bool :=
  let strict o := existsb (fun o' => match o, o' with
                                     | strictStartDate, strictStartDate => true
                                     | strictEndDate, strictEndDate => true
                                     | _, _ => false
                                     end) (options p) in
  match withStart p with
  | Some start =>
      PrimFloat.leb start (if strict strictStartDate then startDate s else endDate s)
  | None => true
  end
  && match withEnd p with
     | Some end_ =>
         PrimFloat.leb (if strict strictEndDate then endDate s else startDate s) end_
     | None => true
     end.

(** The arguments HealthKit passes to the results handler of an
    [HKAnchoredObjectQuery]. *)
Record QueryResults := {
  res_samples : option (list HKSample);
  res_deletedObjects : option (list HKDeletedObject);
  res_newAnchor : option HKQueryAnchor;
  res_error : option string
}.

Definition Data := string.

Inductive URLResponse :=
| HTTPURLResponse (statusCode : Z)
| OtherURLResponse.

Record URLRequest := {
  url : string;
  httpMethod : string;
  headerFields : list (string * string);
  httpBody : option Data
}.

Inductive SyncError :=
| invalidURL
| invalidResponse
| serverError (statusCode : Z) (message : string)
| encodingError.

Definition errorDescription (e : SyncError) : string :=
  match e with
  | invalidURL => "Invalid server URL"
  | invalidResponse => "Invalid server response"
  | serverError code message => "Server error (" ++ pretty code ++ "): " ++ message
  | encodingError => "Failed to encode data"
  end.

(** A thrown error: a [SyncError], or an error of the platform
    (encoding, transport, HealthKit) known by its description. *)
Inductive Error :=
| ofSyncError (e : SyncError)
| ofPlatform (description : string).

Definition localizedDescription (e : Error) : string :=
  match e with
  | ofSyncError e => errorDescription e
  | ofPlatform description => description
  end.

(** What the client asks of Foundation, HealthKit and the network.  [World]
    is everything outside the process: the health store, the network and
    the server behind it, the wall clock. *)
Class Platform := {
  World : Type;
  (** [Date()] *)
  Date_now : World -> World * Date;
  (** [Calendar.current.date(byAdding: .day, value: n, to: date)] *)
  Calendar_date_byAddingDays : Z -> Date -> option Date;
  (** [healthStore.execute] on an [HKAnchoredObjectQuery] without limit *)
  HKAnchoredObjectQuery_execute :
    HKSampleType -> option NSPredicate -> option HKQueryAnchor -> World -> World * QueryResults;
  (** [URL(string:)] *)
  URL_string : string -> option string;
  (** [encoder.encode(batch)], dates in ISO 8601 *)
  JSONEncoder_encode : SyncBatch -> string + Data;
  (** [URLSession.shared.data(for: request)] *)
  URLSession_data : URLRequest -> World -> World * (string + Data * URLResponse);
  (** [String(data: data, encoding: .utf8)] *)
  String_utf8 : Data -> option string
}.

(** *** The state of the app *)

(** A value of [UserDefaults.standard]: the archived anchor (the
    keyed archiver and unarchiver are inverse on [HKQueryAnchor], so the
    archive is written as the anchor it holds) or a [Double]. *)
Inductive DefaultsValue :=
| archived (anchor : HKQueryAnchor)
| double (x : float).

Record SyncManager := {
  isSyncing : bool;
  lastSyncTime : option Date;
  lastError : option string;
  pendingBatches : nat;
  uploadQueue : list SyncBatch;
  isProcessingQueue : bool
}.

Inductive Print :=
| print_uploaded (recordCount : nat) (dataType : string)
| print_upload_failed (error : Error)
| print_view_refreshed
| print_refresh_failed (error : Error)
| print_delta (display : string) (samples deleted : nat)
| print_query_failed (display : string) (error : Error).

(** The app: [UserDefaults.standard] (one store behind both
    [AnchorStore] instances), the [SyncManager] object, whether
    [HealthKitManager.syncManager] has been set, the type statuses of the
    [HealthKitManager] keyed by raw value, the console (latest line
    first) and the world. *)
Record Device `{Platform} := {
  userDefaults : gmap string DefaultsValue;
  manager : SyncManager;
  managerSet : bool;
  typeStatuses : gmap string TypeSyncStatus;
  console : list Print;
  world : World
}.

Section App.

Context `{Platform}.
Variable config : SyncConfig.

Definition set_userDefaults (u : gmap string DefaultsValue) (d : Device) : Device :=
  {| userDefaults := u; manager := manager d; managerSet := managerSet d;
     typeStatuses := typeStatuses d; console := console d; world := world d |}.

Definition set_manager (m : SyncManager) (d : Device) : Device :=
  {| userDefaults := userDefaults d; manager := m; managerSet := managerSet d;
     typeStatuses := typeStatuses d; console := console d; world := world d |}.

Definition set_typeStatuses (t : gmap string TypeSyncStatus) (d : Device) : Device :=
  {| userDefaults := userDefaults d; manager := manager d; managerSet := managerSet d;
     typeStatuses := t; console := console d; world := world d |}.

Definition set_world (w : World) (d : Device) : Device :=
  {| userDefaults := userDefaults d; manager := manager d; managerSet := managerSet d;
     typeStatuses := typeStatuses d; console := console d; world := w |}.

Definition print (line : Print) (d : Device) : Device :=
  {| userDefaults := userDefaults d; manager := manager d; managerSet := managerSet d;
     typeStatuses := typeStatuses d; console := line :: console d; world := world d |}.

(** [Date()] *)
Definition Date_init (d : Device) : Date * Device :=
  let (w, t) := Date_now (world d) in (t, set_world w d).

(** *** [AnchorStore.swift] *)

Definition keyPrefix : string := "healthsync.anchor.".
Definition lastSyncKeyPrefix : string := "healthsync.lastsync.".

Definition getAnchor (ty : HealthDataType) (d : Device) : option HKQueryAnchor :=
  match userDefaults d !! (keyPrefix ++ rawValue ty) with
  | Some (archived anchor) => Some anchor
  | _ => None
  end.

Definition setAnchor (anchor : option HKQueryAnchor) (ty : HealthDataType) (d : Device) : Device :=
  match anchor with
  | Some anchor =>
      set_userDefaults (<[keyPrefix ++ rawValue ty := archived anchor]> (userDefaults d)) d
  | None => set_userDefaults (delete (keyPrefix ++ rawValue ty) (userDefaults d)) d
  end.

Definition clearAnchor (ty : HealthDataType) (d : Device) : Device :=
  set_userDefaults (delete (keyPrefix ++ rawValue ty) (userDefaults d)) d.

Definition clearAllAnchors (d : Device) : Device :=
  fold_left (fun d ty => clearAnchor ty d) allCases d.

(** [defaults.double(forKey:)] is 0 when the key holds no number. *)
Definition getLastSyncTime (ty : HealthDataType) (d : Device) : option Date :=
  let timestamp :=
    match userDefaults d !! (lastSyncKeyPrefix ++ rawValue ty) with
    | Some (double x) => x
    | _ => PrimFloat.zero
    end in
  if PrimFloat.ltb PrimFloat.zero timestamp then Some timestamp else None.

Definition setLastSyncTime (date : Date) (ty : HealthDataType) (d : Device) : Device :=
  set_userDefaults (<[lastSyncKeyPrefix ++ rawValue ty := double date]> (userDefaults d)) d.

(** *** [SyncManager.swift] *)

Definition bearer_request (address : string) (content : list (string * string))
    (body : option Data) : URLRequest :=
  {| url := address;
     httpMethod := "POST";
     headerFields := (content ++ [("Authorization", ("Bearer " ++ apiSecret config)%string)])%list;
     httpBody := body |}.

Definition uploadBatch (batch : SyncBatch) (d : Device) : Device * (Error + ()) :=
  match URL_string (serverURL config) with
  | None => (d, inl (ofSyncError invalidURL))
  | Some address =>
      match JSONEncoder_encode batch with
      | inl e => (d, inl (ofPlatform e))
      | inr body =>
          let request :=
            bearer_request address [("Content-Type", "application/json")] (Some body) in
          match URLSession_data request (world d) with
          | (w, inl e) => (set_world w d, inl (ofPlatform e))
          | (w, inr (data, response)) =>
              let d := set_world w d in
              match response with
              | OtherURLResponse => (d, inl (ofSyncError invalidResponse))
              | HTTPURLResponse statusCode =>
                  if negb ((200 <=? statusCode)%Z && (statusCode <=? 299)%Z)
                  then
                    let message := default "Unknown error" (String_utf8 data) in
                    (d, inl (ofSyncError (serverError statusCode message)))
                  else
                    let recordCount :=
                      (length (default [] (records batch))
                       + length (default [] (workouts batch)))%nat in
                    (print (print_uploaded recordCount (dataType batch)) d, inr ())
              end
          end
      end
  end.

Definition refreshMaterializedView (d : Device) : Device :=
  match URL_string (refreshURL config) with
  | None => d
  | Some address =>
      let request := bearer_request address [] None in
      match URLSession_data request (world d) with
      | (w, inr (_, HTTPURLResponse statusCode)) =>
          let d := set_world w d in
          if (200 <=? statusCode)%Z && (statusCode <=? 299)%Z
          then print print_view_refreshed d
          else d
      | (w, inr (_, OtherURLResponse)) => set_world w d
      | (w, inl e) => print (print_refresh_failed (ofPlatform e)) (set_world w d)
      end
  end.

(** One turn of [while !uploadQueue.isEmpty] for the batch that
    [removeFirst] returned, the queue already shortened. *)
Definition process_batch (batch : SyncBatch) (d : Device) : Device :=
  match uploadBatch batch d with
  | (d, inr _) =>
      let d :=
        match ofRawValue (dataType batch) with
        | Some ty => let (now, d) := Date_init d in setLastSyncTime now ty d
        | None => d
        end in
      let (now, d) := Date_init d in
      set_manager
        {| isSyncing := isSyncing (manager d);
           lastSyncTime := Some now;
           lastError := None;
           pendingBatches := pendingBatches (manager d);
           uploadQueue := uploadQueue (manager d);
           isProcessingQueue := isProcessingQueue (manager d) |} d
  | (d, inl error) =>
      let d := print (print_upload_failed error) d in
      set_manager
        {| isSyncing := isSyncing (manager d);
           lastSyncTime := lastSyncTime (manager d);
           lastError := Some (localizedDescription error);
           pendingBatches := pendingBatches (manager d);
           uploadQueue := uploadQueue (manager d);
           isProcessingQueue := isProcessingQueue (manager d) |} d
  end.

(** [while !uploadQueue.isEmpty { let batch = uploadQueue.removeFirst(); ... }]
    on the queue [queue] that the manager holds; nothing in the body
    appends to the queue, so the loop ends with its last element. *)
Fixpoint drain (queue : list SyncBatch) (d : Device) : Device :=
  match queue with
  | [] => d
  | batch :: rest =>
      let d :=
        set_manager
          {| isSyncing := isSyncing (manager d);
             lastSyncTime := lastSyncTime (manager d);
             lastError := lastError (manager d);
             pendingBatches := length rest;
             uploadQueue := rest;
             isProcessingQueue := isProcessingQueue (manager d) |} d in
      drain rest (process_batch batch d)
  end.

Definition processQueue (d : Device) : Device :=
  if isProcessingQueue (manager d) then d
  else
    let d :=
      set_manager
        {| isSyncing := true;
           lastSyncTime := lastSyncTime (manager d);
           lastError := lastError (manager d);
           pendingBatches := pendingBatches (manager d);
           uploadQueue := uploadQueue (manager d);
           isProcessingQueue := true |} d in
    let d := drain (uploadQueue (manager d)) d in
    let d :=
      set_manager
        {| isSyncing := false;
           lastSyncTime := lastSyncTime (manager d);
           lastError := lastError (manager d);
           pendingBatches := pendingBatches (manager d);
           uploadQueue := uploadQueue (manager d);
           isProcessingQueue := false |} d in
    refreshMaterializedView d.

Definition queueBatch (batch : SyncBatch) (ty : HealthDataType) (d : Device) : Device :=
  let queue := (uploadQueue (manager d) ++ [batch])%list in
  let d :=
    set_manager
      {| isSyncing := isSyncing (manager d);
         lastSyncTime := lastSyncTime (manager d);
         lastError := lastError (manager d);
         pendingBatches := length queue;
         uploadQueue := queue;
         isProcessingQueue := isProcessingQueue (manager d) |} d in
  if negb (isProcessingQueue (manager d)) then processQueue d else d.

(** *** [HealthKitManager.swift] *)

Definition performAnchoredQuery (sampleType : HKSampleType) (anchor : option HKQueryAnchor)
    (predicate : option NSPredicate) (d : Device)
  : Device * (Error + list HKSample * list HKDeletedObject * option HKQueryAnchor) :=
  let (w, results) := HKAnchoredObjectQuery_execute sampleType predicate anchor (world d) in
  let d := set_world w d in
  match res_error results with
  | Some error => (d, inl (ofPlatform error))
  | None =>
      (d, inr (default [] (res_samples results),
               default [] (res_deletedObjects results),
               res_newAnchor results))
  end.

(** The [switch type] of [syncData]: the records and the workouts of the
    samples. *)
Definition payloads (ty : HealthDataType) (samples : list HKSample)
  : list HealthRecordPayload * list WorkoutPayload :=
  match ty with
  | stepCount | heartRate | activeEnergyBurned | bodyMass | vo2Max =>
      (omap (fun s => match s with
                      | QuantitySample q => Some (quantity_toPayload q)
                      | _ => None
                      end) samples, [])
  | sleepAnalysis =>
      (omap (fun s => match s with
                      | CategorySample c => Some (category_toPayload c)
                      | _ => None
                      end) samples, [])
  | workout =>
      ([], omap (fun s => match s with
                          | WorkoutSample k =>
                              if shouldSync k then Some (workout_toPayload k) else None
                          | _ => None
                          end) samples)
  end.

(** [stride(from: i, to: n, by: step)], with [fuel] turns left.  Swift
    stops the program when [step] is 0; the configured batch size is not. *)
Fixpoint stride_from (fuel i n step : nat) : list nat :=
  match fuel with
  | O => []
  | S fuel' => if (i <? n)%nat then i :: stride_from fuel' (i + step) n step else []
  end.

Definition stride (from to by_ : nat) : list nat := stride_from to from to by_.

(** [Array(all[i..<end])] *)
Definition array_slice {A} (all : list A) (i end_ : nat) : list A :=
  take (end_ - i) (drop i all).

Definition isEmpty {A} (l : list A) : bool :=
  match l with [] => true | _ :: _ => false end.

(** The batches [syncData] builds, in order, each still waiting for the
    [Date()] of its [timestamp]. *)
Definition assemble (ty : HealthDataType) (allRecords : list HealthRecordPayload)
    (allWorkouts : list WorkoutPayload) (deleted : list string) : list (Date -> SyncBatch) :=
  let batchSize := batchSize config in
  if negb (isEmpty allRecords) then
    map (fun i now =>
           let end_ := min (i + batchSize) (length allRecords) in
           let chunk := array_slice allRecords i end_ in
           {| dataType := rawValue ty;
              records := Some chunk;
              workouts := None;
              deletedUUIDs := if (i =? 0)%nat then deleted else [];
              deviceId := config_deviceId config;
              timestamp := now |})
        (stride 0 (length allRecords) batchSize)
  else if negb (isEmpty allWorkouts) then
    map (fun i now =>
           let end_ := min (i + batchSize) (length allWorkouts) in
           let chunk := array_slice allWorkouts i end_ in
           {| dataType := rawValue ty;
              records := None;
              workouts := Some chunk;
              deletedUUIDs := if (i =? 0)%nat then deleted else [];
              deviceId := config_deviceId config;
              timestamp := now |})
        (stride 0 (length allWorkouts) batchSize)
  else if negb (isEmpty deleted) then
    [fun now =>
       {| dataType := rawValue ty;
          records := None;
          workouts := None;
          deletedUUIDs := deleted;
          deviceId := config_deviceId config;
          timestamp := now |}]
  else [].

(** [syncData]: every batch is stamped and handed to [queueBatch] as soon
    as it is built. *)
Definition syncData (ty : HealthDataType) (samples : list HKSample) (deleted : list string)
    (d : Device) : Device :=
  if negb (managerSet d) then d
  else
    let (allRecords, allWorkouts) := payloads ty samples in
    fold_left (fun d build => let (now, d) := Date_init d in queueBatch (build now) ty d)
      (assemble ty allRecords allWorkouts deleted) d.

(** [typeStatuses[type]?.lastError = e] *)
Definition set_status_lastError (e : option string) (ty : HealthDataType) (d : Device)
  : Device :=
  set_typeStatuses
    (alter (fun st => {| ts_id := ts_id st;
                         ts_type := ts_type st;
                         ts_lastSyncTime := ts_lastSyncTime st;
                         lastSyncCount := lastSyncCount st;
                         ts_lastError := e;
                         pendingCount := pendingCount st;
                         ts_isAuthorized := ts_isAuthorized st |})
       (rawValue ty) (typeStatuses d)) d.

(** The predicate of [fetchAndSync]: the backfill window when there is no
    anchor, none otherwise. *)
Definition fetch_predicate (anchor : option HKQueryAnchor) (d : Device)
  : option NSPredicate * Device :=
  match anchor with
  | None =>
      let (now, d) := Date_init d in
      (Some {| withStart := Calendar_date_byAddingDays (- backfillDays config) now;
               withEnd := None;
               options := [strictStartDate] |}, d)
  | Some _ => (None, d)
  end.

(** The [do]/[catch] of [fetchAndSync], from the answer of the anchored
    query on. *)
Definition sync_results (ty : HealthDataType)
    (answer : Device * (Error + list HKSample * list HKDeletedObject * option HKQueryAnchor))
  : Device :=
  match answer with
  | (d, inr (samples, deletedObjects, newAnchor)) =>
      let d :=
        if negb (isEmpty samples) || negb (isEmpty deletedObjects)
        then
          syncData ty samples (map uuidString deletedObjects)
            (print (print_delta (displayName ty) (length samples) (length deletedObjects)) d)
        else d in
      let d :=
        match newAnchor with
        | Some newAnchor => setAnchor (Some newAnchor) ty d
        | None => d
        end in
      set_status_lastError None ty d
  | (d, inl error) =>
      set_status_lastError (Some (localizedDescription error)) ty
        (print (print_query_failed (displayName ty) error) d)
  end.

Definition fetchAndSync (ty : HealthDataType) (d : Device) : Device :=
  match hkSampleType ty with
  | None => d
  | Some sampleType =>
      let anchor := getAnchor ty d in
      let (predicate, d) := fetch_predicate anchor d in
      sync_results ty (performAnchoredQuery sampleType anchor predicate d)
  end.

Definition syncAll (d : Device) : Device :=
  fold_left (fun d ty => fetchAndSync ty d) allCases d.

End App.

(** *** Vocabulary of the statements about the client *)

Local Open Scope nat_scope.

(** [ceil (n / b)] *)
Definition ceil_div (n b : nat) : nat := (n + (b - 1)) / b.

(** [chunks] cuts [all] into pieces of [b] elements, the last one shorter
    when [b] does not divide the length. *)
Definition chunked {A} (b : nat) (all : list A) (chunks : list (list A)) : Prop :=
  length chunks = ceil_div (length all) b
  /\ concat chunks = all
  /\ forall k chunk, chunks !! k = Some chunk ->
                     length chunk = if k <? length all / b then b else length all mod b.

(** The pieces of [b] elements of [all], in order. *)
Definition chunks_of {A} (b : nat) (all : list A) : list (list A) :=
  map (fun k => take b (drop (k * b) all)) (seq 0 (ceil_div (length all) b)).

(** The batch of the [k]-th chunk of records, and of workouts. *)
Definition record_batch (config : SyncConfig) (ty : HealthDataType) (deleted : list string)
    (now : Date) (k : nat) (chunk : list HealthRecordPayload) : SyncBatch :=
  {| dataType := rawValue ty;
     records := Some chunk;
     workouts := None;
     deletedUUIDs := if (k =? 0)%nat then deleted else [];
     deviceId := config_deviceId config;
     timestamp := now |}.

Definition workout_batch (config : SyncConfig) (ty : HealthDataType) (deleted : list string)
    (now : Date) (k : nat) (chunk : list WorkoutPayload) : SyncBatch :=
  {| dataType := rawValue ty;
     records := None;
     workouts := Some chunk;
     deletedUUIDs := if (k =? 0)%nat then deleted else [];
     deviceId := config_deviceId config;
     timestamp := now |}.

(** The batch that carries deletion identifiers only. *)
Definition deletion_batch (config : SyncConfig) (ty : HealthDataType) (deleted : list string)
    (now : Date) : SyncBatch :=
  {| dataType := rawValue ty;
     records := None;
     workouts := None;
     deletedUUIDs := deleted;
     deviceId := config_deviceId config;
     timestamp := now |}.

(** The two lines [processQueue] prints for an upload. *)
Definition is_uploaded (line : Print) : bool :=
  match line with print_uploaded _ _ => true | _ => false end.

Definition is_upload_failed (line : Print) : bool :=
  match line with print_upload_failed _ => true | _ => false end.

(** The line reports the upload of a batch of type [ty]. *)
Definition uploaded_for (ty : HealthDataType) (line : Print) : bool :=
  match line with
  | print_uploaded _ dataType => String.eqb dataType (rawValue ty)
  | _ => false
  end.

(** What the latest upload line says about [lastError]. *)
Definition last_upload_error (lines : list Print) (before : option string) : option string :=
  match lines with
  | print_uploaded _ _ :: _ => None
  | print_upload_failed error :: _ => Some (localizedDescription error)
  | _ => before
  end.

(** The members of the manager that only [queueBatch] and [processQueue]
    write. *)
Definition same_queue_state (m m' : SyncManager) : Prop :=
  uploadQueue m' = uploadQueue m
  /\ pendingBatches m' = pendingBatches m
  /\ isProcessingQueue m' = isProcessingQueue m
  /\ isSyncing m' = isSyncing m.

End HealthSync.

(** ** Concrete runtimes and requests, for running the code *)

Module RouteScenario.

Import Route.

(** A stand-in for the digest: the key itself. *)
Definition digest (key : string) : string := key.

Definition show_number (x : float) : string :=
  if PrimFloat.eqb x 0 then "0"
  else if PrimFloat.eqb x 72 then "72"
  else if PrimFloat.eqb x 1800 then "1800"
  else "NaN".

Definition stringify (m : list (string * string)) : string :=
  "{" ++ String.concat "," (map (fun kv => fst kv ++ ":" ++ snd kv) m) ++ "}".

(** A table that refuses an empty record type. *)
Definition record_type_not_empty (row : HealthRawRow) : option string :=
  if String.eqb (record_type row) "" then Some "error: record_type is empty" else None.

Definition any_workout (row : WorkoutRow) : option string := None.

Definition secret : option string := Some "s3cret".

Definition accepted : option string := Some "Bearer s3cret".

Definition post : Request -> Eff Response :=
  POST secret digest show_number stringify record_type_not_empty any_workout.

Definition heart_rate (bpm : float) (source : string) (meta : option (list (string * string)))
  : HealthRecordPayload :=
  {| recordType := "HKQuantityTypeIdentifierHeartRate";
     sourceName := source;
     sourceBundle := None;
     value := Some bpm;
     valueText := None;
     r_unit := Some "count/min";
     startTime := "2026-01-16T08:00:00Z";
     endTime := "2026-01-16T08:00:05Z";
     metadata := meta |}.

Definition nameless : HealthRecordPayload :=
  {| recordType := "";
     sourceName := "Watch";
     sourceBundle := None;
     value := None;
     valueText := None;
     r_unit := None;
     startTime := "2026-01-16T09:00:00Z";
     endTime := "2026-01-16T09:00:05Z";
     metadata := None |}.

Definition walk (distance energy : option float) : WorkoutPayload :=
  {| workoutType := "HKWorkoutActivityTypeWalking";
     w_sourceName := "Apple Watch";
     w_sourceBundle := None;
     w_startTime := "2026-01-16T10:00:00Z";
     w_endTime := "2026-01-16T10:30:00Z";
     durationSeconds := 1800;
     totalDistance := distance;
     totalEnergyBurned := energy;
     statistics := None;
     w_metadata := None |}.

Definition batch_of (rs : list HealthRecordPayload) (ws : list WorkoutPayload)
    (deleted : list string) : SyncBatch :=
  {| dataType := "HKQuantityTypeIdentifierHeartRate";
     records := Some rs;
     workouts := Some ws;
     deletedUUIDs := deleted;
     deviceId := "device-1";
     timestamp := "2026-01-16T11:00:00Z" |}.

Definition request_of (header : option string) (b : SyncBatch) : Request :=
  {| authorization := header; json := inr b |}.

Definition empty_server : Server :=
  {| committed := {| health_raw := ∅; workouts_table := ∅ |};
     transaction := None;
     effects := [] |}.

(** A batch with a record, the same record with other metadata, a
    workout and a deletion marker. *)
Definition replayed : Request :=
  request_of accepted
    (batch_of [heart_rate 72 "Watch" None; heart_rate 72 "Watch" (Some [("k", "v")])]
       [walk (Some 0%float) None] ["6F9619FF-8B86-D011-B42D-00CF4FC964FF"]).

End RouteScenario.

Module DeviceScenario.

Import HealthSync.

(** A world to run the client in: a clock, the samples of the health
    store in the order they were saved (an anchor is a position in that
    order), whether the store refuses queries, and the answers the
    network will give, one per request. *)
Record SimWorld := {
  clock : float;
  healthStore : list HKSample;
  locked : bool;
  answers : list (string + Data * URLResponse)
}.

Definition sample_of_type (ty : HKSampleType) (s : HKSample) : bool :=
  match ty, s with
  | HKQuantityType identifier, QuantitySample q => String.eqb identifier (quantityType q)
  | HKCategoryType identifier, CategorySample c => String.eqb identifier (categoryType c)
  | HKWorkoutType, WorkoutSample _ => true
  | _, _ => false
  end.

Definition sim_query (ty : HKSampleType) (predicate : option NSPredicate)
    (anchor : option HKQueryAnchor) (w : SimWorld) : SimWorld * QueryResults :=
  if locked w
  then (w, {| res_samples := None; res_deletedObjects := None; res_newAnchor := None;
              res_error := Some "Protected health data is inaccessible" |})
  else
    let position := match anchor with Some (anchor_at n) => n | None => 0%nat end in
    let selected s :=
      sample_of_type ty s
      && match predicate with Some p => satisfies p s | None => true end in
    (w, {| res_samples := Some (List.filter selected (drop position (healthStore w)));
           res_deletedObjects := Some [];
           res_newAnchor := Some (anchor_at (length (healthStore w)));
           res_error := None |}).

Definition sim_data (request : URLRequest) (w : SimWorld)
  : SimWorld * (string + Data * URLResponse) :=
  match answers w with
  | [] => (w, inl "The Internet connection appears to be offline.")
  | a :: rest =>
      ({| clock := clock w; healthStore := healthStore w; locked := locked w;
          answers := rest |}, a)
  end.

#[local] Instance sim : Platform := {|
  World := SimWorld;
  Date_now w :=
    ({| clock := PrimFloat.add (clock w) 1; healthStore := healthStore w;
        locked := locked w; answers := answers w |}, clock w);
  Calendar_date_byAddingDays n date :=
    Some (PrimFloat.add date (PrimFloat.mul (Double_of_Int n) 86400));
  HKAnchoredObjectQuery_execute := sim_query;
  URL_string address := Some address;
  JSONEncoder_encode batch := inr "{}";
  URLSession_data := sim_data;
  String_utf8 data := Some data
|}.

Definition config : SyncConfig := default_config "device-1" "s3cret".

Definition watch : HKSource := {| name := "Apple Watch"; bundleIdentifier := "com.apple.health" |}.

Definition beat (bpm at_ : float) : HKSample :=
  QuantitySample
    {| quantityType := "HKQuantityTypeIdentifierHeartRate";
       quantity := {| doubleValue := fun _ => bpm |};
       q_source := watch;
       q_startDate := at_;
       q_endDate := PrimFloat.add at_ 5;
       q_metadata := None |}.

Definition idle_manager : SyncManager :=
  {| isSyncing := false; lastSyncTime := None; lastError := None;
     pendingBatches := 0; uploadQueue := []; isProcessingQueue := false |}.

Definition device (w : SimWorld) : Device :=
  {| userDefaults := ∅;
     manager := idle_manager;
     managerSet := true;
     typeStatuses := ∅;
     console := [];
     world := w |}.

(** Ten million seconds after 1970, one heart-rate sample from a minute
    ago and one from fifty days ago, and a network that is down. *)
Definition offline : SimWorld :=
  {| clock := 10000000;
     healthStore := [beat 61 5680000; beat 72 9999940];
     locked := false;
     answers := [] |}.

(** The same store behind a server that accepts every request. *)
Definition online : SimWorld :=
  {| clock := 10000000;
     healthStore := [beat 61 5680000; beat 72 9999940];
     locked := false;
     answers := repeat (inr ("{}", HTTPURLResponse 200)) 4 |}.

(** A configuration with batches of two. *)
Definition pairs : SyncConfig :=
  {| serverURL := "https://fit.justslobo.com/api/sync";
     refreshURL := "https://fit.justslobo.com/api/sync/refresh";
     batchSize := 2;
     backfillDays := 30;
     config_deviceId := "device-1";
     apiSecret := "s3cret" |}.

Definition reading (bpm : float) : HealthRecordPayload :=
  {| recordType := "HKQuantityTypeIdentifierHeartRate";
     sourceName := "Apple Watch";
     sourceBundle := None;
     value := Some bpm;
     valueText := None;
     r_unit := Some "count/min";
     startTime := 9999940%float;
     endTime := 9999945%float;
     metadata := None |}.

Definition five : list HealthRecordPayload :=
  [reading 61; reading 62; reading 63; reading 64; reading 65].

Definition one_batch (bpm : float) : SyncBatch :=
  {| dataType := rawValue heartRate;
     records := Some [reading bpm];
     workouts := None;
     deletedUUIDs := [];
     deviceId := "device-1";
     timestamp := 10000000%float |}.

(** Two batches wait in the queue; the network answers the first upload
    with an error of the server and accepts the second. *)
Definition queued : Device :=
  {| userDefaults := ∅;
     manager := {| isSyncing := false; lastSyncTime := None; lastError := None;
                   pendingBatches := 2; uploadQueue := [one_batch 61; one_batch 62];
                   isProcessingQueue := false |};
     managerSet := true;
     typeStatuses := ∅;
     console := [];
     world := {| clock := 10000000;
                 healthStore := [];
                 locked := false;
                 answers := [inr ("storage failure", HTTPURLResponse 500);
                             inr ("{}", HTTPURLResponse 200)] |} |}.

End DeviceScenario.

(** ** The refresh endpoint, [refresh/route.ts] *)

Module Refresh.

Inductive Event :=
| PoolConnect
| DateNow
| RefreshView
| Release
| ConsoleLog (duration : Z)
| ConsoleError (error : string).

Inductive Body :=
| Unauthorized
| Refreshed (refreshedIn : Z)
| RefreshFailed (details : string).

Record Response := { status : Z; body : Body }.

(** The clock that [Date.now()] reads, and what the handler did, latest
    first. *)
Record Server := { now : Z; effects : list Event }.

Definition emit (e : Event) (s : Server) : Server :=
  {| now := now s; effects := e :: effects s |}.

Section Handler.

(** [process.env.SYNC_API_SECRET] *)
Variable SYNC_API_SECRET : option string.
(** [REFRESH MATERIALIZED VIEW CONCURRENTLY daily_metrics], started at a
    time: the error the store raises, if any, and the time afterwards. *)
Variable refresh_view : Z -> option string * Z.

(** [client.query("REFRESH ...")] *)
Definition query (s : Server) : Server * (string + ()) :=
  let (error, after) := refresh_view (now s) in
  let s := {| now := after; effects := RefreshView :: effects s |} in
  match error with
  | Some e => (s, inl e)
  | None => (s, inr ())
  end.

Definition POST (authorization : option string) (s : Server) : Server * Response :=
  if Route.rejected SYNC_API_SECRET authorization
  then (s, {| status := 401; body := Unauthorized |})
  else
    let s := emit PoolConnect s in
    let start := now s in
    let s := emit DateNow s in
    match query s with
    | (s, inr _) =>
        let duration := (now s - start)%Z in
        let s := emit DateNow s in
        let s := emit (ConsoleLog duration) s in
        (emit Release s, {| status := 200; body := Refreshed duration |})
    | (s, inl error) =>
        let s := emit Release s in
        (emit (ConsoleError error) s, {| status := 500; body := RefreshFailed error |})
    end.

End Handler.

End Refresh.

(** ** The iOS client: launch, reset and backfill ([HealthKitManager.swift]) *)

Module Maintenance.

Import HealthSync.

(** [TypeSyncStatus(type:)] *)
Definition TypeSyncStatus_init (ty : HealthDataType) : TypeSyncStatus :=
  {| ts_id := rawValue ty;
     ts_type := ty;
     ts_lastSyncTime := None;
     lastSyncCount := None;
     ts_lastError := None;
     pendingCount := 0;
     ts_isAuthorized := false |}.

(** The statuses that [init] builds; [isAuthorized] is what
    [UserDefaults.standard.bool(forKey: "healthkit_authorized")] answers. *)
Definition init_typeStatuses (isAuthorized : bool) : gmap string TypeSyncStatus :=
  fold_left
    (fun typeStatuses ty =>
       let status := TypeSyncStatus_init ty in
       <[rawValue ty := {| ts_id := ts_id status;
                           ts_type := ts_type status;
                           ts_lastSyncTime := ts_lastSyncTime status;
                           lastSyncCount := lastSyncCount status;
                           ts_lastError := ts_lastError status;
                           pendingCount := pendingCount status;
                           ts_isAuthorized := isAuthorized |}]> typeStatuses)
    allCases ∅.

(** The lines that [resetAndResync] and [performBackfill] print themselves.
    They are returned beside the device, latest first; the lines of the
    upload queue go to the console of the device as before. *)
Inductive Note :=
| print_resetting (display : string)
| print_reset_found (display : string) (samples : nat)
| print_reset_failed (display : string) (error : Error)
| print_backfill_starting (display : string) (startDate : Date)
| print_backfill_found (samples : nat) (display : string)
| print_backfill_failed (display : string) (error : Error).

(** [healthStore.execute] on an [HKSampleQuery] without limit, sorted by
    start date: the samples and the error handed to the results handler. *)
Class History `{Platform} := {
  HKSampleQuery_execute :
    HKSampleType -> option NSPredicate -> World -> World * (option (list HKSample) * option string)
}.

Section App.

Context `{History}.
Variable config : SyncConfig.

(** [Calendar.current.date(byAdding: .day, value: -SyncConfig.backfillDays, to: Date()) ?? Date()] *)
Definition backfill_start (d : Device) : Date * Device :=
  let (now, d) := Date_init d in
  match Calendar_date_byAddingDays (- backfillDays config) now with
  | Some startDate => (startDate, d)
  | None => Date_init d
  end.

Definition resetAndResync (ty : HealthDataType) (d : Device) : Device * list Note :=
  match hkSampleType ty with
  | None => (d, [])
  | Some sampleType =>
      let d := clearAnchor ty d in
      let (startDate, d) := backfill_start d in
      let predicate :=
        {| withStart := Some startDate; withEnd := None; options := [strictStartDate] |} in
      match performAnchoredQuery sampleType None (Some predicate) d with
      | (d, inr (samples, deletedObjects, newAnchor)) =>
          let d :=
            if negb (isEmpty samples) || negb (isEmpty deletedObjects)
            then syncData config ty samples (map uuidString deletedObjects) d
            else d in
          let d :=
            match newAnchor with
            | Some newAnchor => setAnchor (Some newAnchor) ty d
            | None => d
            end in
          (set_status_lastError None ty d,
           [print_reset_found (displayName ty) (length samples);
            print_resetting (displayName ty)])
      | (d, inl error) =>
          (set_status_lastError (Some (localizedDescription error)) ty d,
           [print_reset_failed (displayName ty) error; print_resetting (displayName ty)])
      end
  end.

Definition queryHistoricalData (sampleType : HKSampleType) (startDate : Date) (d : Device)
  : Device * (Error + list HKSample) :=
  let (now, d) := Date_init d in
  let predicate :=
    {| withStart := Some startDate; withEnd := Some now; options := [strictStartDate] |} in
  let '(w, (samples, error)) := HKSampleQuery_execute sampleType (Some predicate) (world d) in
  let d := set_world w d in
  match error with
  | Some error => (d, inl (ofPlatform error))
  | None => (d, inr (default [] samples))
  end.

(** One turn of [for type in typesToSync] in [performBackfill]. *)
Definition backfill_type (startDate : Date) (state : Device * list Note) (ty : HealthDataType)
  : Device * list Note :=
  let (d, notes) := state in
  match hkSampleType ty with
  | None => (d, notes)
  | Some sampleType =>
      let notes := print_backfill_starting (displayName ty) startDate :: notes in
      match queryHistoricalData sampleType startDate d with
      | (d, inr samples) =>
          (if negb (isEmpty samples) then syncData config ty samples [] d else d,
           print_backfill_found (length samples) (displayName ty) :: notes)
      | (d, inl error) =>
          (set_status_lastError
             (Some ("Backfill failed: " ++ localizedDescription error)%string) ty d,
           print_backfill_failed (displayName ty) error :: notes)
      end
  end.

Definition performBackfill (d : Device) : Device * list Note :=
  let (startDate, d) := backfill_start d in
  fold_left (backfill_type startDate) allCases (d, []).

(** What the buttons of [ContentView] and the observers start. *)
Inductive Action :=
| do_fetchAndSync (ty : HealthDataType)
| do_syncAll
| do_resetAndResync (ty : HealthDataType)
| do_performBackfill.

Definition act (d : Device) (a : Action) : Device :=
  match a with
  | do_fetchAndSync ty => fetchAndSync config ty d
  | do_syncAll => syncAll config d
  | do_resetAndResync ty => fst (resetAndResync ty d)
  | do_performBackfill => fst (performBackfill d)
  end.

Definition run (actions : list Action) (d : Device) : Device := fold_left act actions d.

End App.

End Maintenance.

Module MaintenanceScenario.

Import HealthSync Maintenance DeviceScenario.

Definition sim_history_query (ty : HKSampleType) (predicate : option NSPredicate)
    (w : SimWorld) : SimWorld * (option (list HKSample) * option string) :=
  if locked w then (w, (None, Some "Protected health data is inaccessible"))
  else
    let selected s :=
      sample_of_type ty s
      && match predicate with Some p => satisfies p s | None => true end in
    (w, (Some (List.filter selected (healthStore w)), None)).

#[local] Existing Instance sim.

#[local] Instance sim_history : History := {|
  HKSampleQuery_execute := sim_history_query
|}.

(** The device of [DeviceScenario] as [init] leaves its statuses. *)
Definition launched (w : SimWorld) : Device :=
  set_typeStatuses (init_typeStatuses false) (device w).

(** The offline world with a health store that refuses queries. *)
Definition locked_store : SimWorld :=
  {| clock := 10000000;
     healthStore := [beat 61 5680000; beat 72 9999940];
     locked := true;
     answers := [] |}.

Definition phone : HKSource := {| name := "iPhone"; bundleIdentifier := "com.apple.health" |}.

(** A walk recorded by the phone. *)
Definition phone_walk : HKSample :=
  WorkoutSample
    {| workoutActivityType := walking;
       k_source := phone;
       k_startDate := 9990000%float;
       k_endDate := 9991800%float;
       duration := 1800%float;
       k_totalDistance := None;
       k_totalEnergyBurned := None;
       heartRateStatistics := None;
       k_metadata := None |}.

(** The device before [setSyncManager]. *)
Definition unwired (w : SimWorld) : Device :=
  {| userDefaults := ∅;
     manager := idle_manager;
     managerSet := false;
     typeStatuses := init_typeStatuses false;
     console := [];
     world := w |}.

(** The platform of [DeviceScenario] with a calendar that finds no date. *)
Definition no_calendar : Platform :=
  {| World := SimWorld;
     Date_now := @Date_now sim;
     Calendar_date_byAddingDays _ _ := None;
     HKAnchoredObjectQuery_execute := sim_query;
     URL_string := @URL_string sim;
     JSONEncoder_encode := @JSONEncoder_encode sim;
     URLSession_data := sim_data;
     String_utf8 := @String_utf8 sim |}.

Definition lost (w : SimWorld) : @Device no_calendar :=
  @Build_Device no_calendar ∅ idle_manager true ∅ [] w.

End MaintenanceScenario.

(** ** Further vocabulary *)

Module RouteTerms.

Import Route.

(** The effects on the connection pool among [events]. *)
Definition connection_events (events : list Event) : list Event :=
  List.filter (fun e => match e with PoolConnect | Release => true | _ => false end) events.

End RouteTerms.

Module HealthSyncTerms.

Import HealthSync.


(** The activities of [validTypes] that [name] has no case for. *)
Definition unnamed_activities : list HKWorkoutActivityType :=
  [coreTraining; highIntensityIntervalTraining; crossTraining; stairClimbing; stairs;
   climbing; jumpRope; paddleSports; underwaterDiving; crossCountrySkiing; downhillSkiing;
   snowboarding; skatingSports; tennis; golf].

(** No run of the queue is in progress and nothing waits in it. *)
Definition idle (m : SyncManager) : Prop :=
  isProcessingQueue m = false /\ isSyncing m = false
  /\ uploadQueue m = [] /\ pendingBatches m = 0%nat.

(** The sample is not a workout that [syncData] uploads. *)
Definition left_out (s : HKSample) : bool :=
  match s with
  | WorkoutSample k => negb (shouldSync k)
  | _ => true
  end.

#[global] Instance HealthDataType_eq_dec : EqDecision HealthDataType.
Proof. solve_decision. Defined.

(** [(batch.records?.count ?? 0) + (batch.workouts?.count ?? 0)] *)
Definition recordCount (batch : SyncBatch) : nat :=
  (length (default [] (records batch)) + length (default [] (workouts batch)))%nat.

(** The line is the one that the upload of [batch] leaves, done or
    failed. *)
Definition upload_line_of (batch : SyncBatch) (line : Print) : Prop :=
  line = print_uploaded (recordCount batch) (dataType batch)
  \/ exists error, line = print_upload_failed error.

(** A status without its error. *)
Definition without_error (st : TypeSyncStatus)
  : string * HealthDataType * option Date * option Z * Z * bool :=
  (ts_id st, ts_type st, ts_lastSyncTime st, lastSyncCount st, pendingCount st,
   ts_isAuthorized st).

(** The statuses [t'] are the statuses [t] but for their errors. *)
Definition only_errors_differ (t t' : gmap string TypeSyncStatus) : Prop :=
  forall key, without_error <$> t' !! key = without_error <$> t !! key.

(** What a query left in the error of the status of its type. *)
Definition query_error {A} (answer : Error + A) : option string :=
  match answer with
  | inr _ => None
  | inl error => Some (localizedDescription error)
  end.

End HealthSyncTerms.

(** ** Properties of the ingestion endpoint *)

Module RouteSpec.

Import Route.

Section Handler.

Variable SYNC_API_SECRET : option string.
Variable sha256_hex : string -> string.
Variable number_to_string : float -> string.
Variable json_stringify : list (string * string) -> string.
Variable health_raw_violation : HealthRawRow -> option string.
Variable workouts_violation : WorkoutRow -> option string.

Abbreviation generateRecordHash := (generateRecordHash sha256_hex number_to_string).
Abbreviation generateWorkoutHash := (generateWorkoutHash sha256_hex number_to_string).
Abbreviation workouts_values := (workouts_values json_stringify).
Abbreviation health_raw_values := (health_raw_values json_stringify).
Abbreviation rejected := (rejected SYNC_API_SECRET).
Abbreviation insert_health_raw := (insert_health_raw health_raw_violation).
Abbreviation insert_workout := (insert_workout workouts_violation).
Abbreviation query := (query health_raw_violation workouts_violation).
Abbreviation insert_records :=
  (insert_records sha256_hex number_to_string json_stringify
     health_raw_violation workouts_violation).
Abbreviation insert_workouts :=
  (insert_workouts sha256_hex number_to_string json_stringify
     health_raw_violation workouts_violation).
Abbreviation transact :=
  (transact sha256_hex number_to_string json_stringify
     health_raw_violation workouts_violation).
Abbreviation POST :=
  (POST SYNC_API_SECRET sha256_hex number_to_string json_stringify
     health_raw_violation workouts_violation).
Abbreviation record_row := (record_row sha256_hex number_to_string json_stringify).
Abbreviation workout_row := (workout_row sha256_hex number_to_string json_stringify).
Abbreviation clean_records :=
  (clean_records sha256_hex number_to_string json_stringify health_raw_violation).
Abbreviation clean_workouts :=
  (clean_workouts sha256_hex number_to_string json_stringify workouts_violation).
Abbreviation stored := (stored sha256_hex number_to_string).
Abbreviation refused :=
  (refused sha256_hex number_to_string json_stringify health_raw_violation
     workouts_violation).

(** *** Hashes *)

(** C5. Two record payloads with the same record type, source name, start
    time, end time and [value ?? valueText] have the same hash, whatever
    their unit, source bundle and metadata are; two workout payloads with
    the same workout type, source name, start time, end time and duration
    have the same hash, whatever their other fields are. *)
Theorem hash_determinism :
  (forall r1 r2 : HealthRecordPayload,
      recordType r1 = recordType r2 ->
      sourceName r1 = sourceName r2 ->
      startTime r1 = startTime r2 ->
      endTime r1 = endTime r2 ->
      value_or_text r1 = value_or_text r2 ->
      generateRecordHash r1 = generateRecordHash r2)
  /\ (forall w1 w2 : WorkoutPayload,
         workoutType w1 = workoutType w2 ->
         w_sourceName w1 = w_sourceName w2 ->
         w_startTime w1 = w_startTime w2 ->
         w_endTime w1 = w_endTime w2 ->
         durationSeconds w1 = durationSeconds w2 ->
         generateWorkoutHash w1 = generateWorkoutHash w2).
Proof.
  split.
  - intros r1 r2 Hty Hsrc Hstart Hend Hval.
    unfold Route.generateRecordHash, record_key.
    now rewrite Hty, Hsrc, Hstart, Hend, Hval.
  - intros w1 w2 Hty Hsrc Hstart Hend Hdur.
    unfold Route.generateWorkoutHash, workout_key.
    now rewrite Hty, Hsrc, Hstart, Hend, Hdur.
Qed.

(** *** Unit columns *)

Lemma truthy_zero (x : float) : PrimFloat.eqb x PrimFloat.zero = true -> Js.truthy (Some x) = false.
Proof. intros Hz. unfold Js.truthy, Js.number_truthy. now rewrite Hz. Qed.

Lemma truthy_nonzero (x : float) :
  PrimFloat.eqb x PrimFloat.zero = false -> PrimFloat.is_nan x = false ->
  Js.truthy (Some x) = true.
Proof. intros Hz Hn. unfold Js.truthy, Js.number_truthy. now rewrite Hz, Hn. Qed.

(** The unit columns of the row the handler builds for a workout. *)
Lemma workouts_values_units (workout : WorkoutPayload) (hash : string) :
  let row := workouts_values workout hash in
  (forall x, totalDistance workout = Some x ->
             PrimFloat.eqb x PrimFloat.zero = true ->
             total_distance_unit row = None)
  /\ (forall x, totalEnergyBurned workout = Some x ->
                PrimFloat.eqb x PrimFloat.zero = true ->
                total_energy_unit row = None)
  /\ (forall x, totalDistance workout = Some x ->
                PrimFloat.eqb x PrimFloat.zero = false -> PrimFloat.is_nan x = false ->
                total_distance_unit row = Some "mi")
  /\ (forall x, totalEnergyBurned workout = Some x ->
                PrimFloat.eqb x PrimFloat.zero = false -> PrimFloat.is_nan x = false ->
                total_energy_unit row = Some "kcal")
  /\ (totalDistance workout = None -> total_distance_unit row = None)
  /\ (totalEnergyBurned workout = None -> total_energy_unit row = None).
Proof.
  cbn. repeat split.
  - intros x -> Hz. now rewrite truthy_zero.
  - intros x -> Hz. now rewrite truthy_zero.
  - intros x -> Hz Hn. now rewrite truthy_nonzero.
  - intros x -> Hz Hn. now rewrite truthy_nonzero.
  - now intros ->.
  - now intros ->.
Qed.

(** *** Authentication *)

Lemma rejected_spec (header : option string) :
  header = None
  \/ (exists h, header = Some h
                /\ (Js.startsWith "Bearer " h = false
                    \/ Js.slice 7 h <> API_SECRET SYNC_API_SECRET)) ->
  rejected header = true.
Proof.
  intros [-> | (h & -> & [Hprefix | Hsecret])]; unfold Route.rejected.
  - reflexivity.
  - now rewrite Hprefix.
  - apply String.eqb_neq in Hsecret. rewrite Hsecret. apply orb_true_r.
Qed.

(** C4. A request without an Authorization header, with one that does not
    start with "Bearer ", or with one whose token is not the secret, is
    answered 401 "Unauthorized", and the server is left as it was: the
    tables are the same, and no effect (reading the body, hashing,
    connecting, querying) has been performed. *)
Theorem unauthorized_before_anything (request : Request) (s : Server) :
  authorization request = None
  \/ (exists h, authorization request = Some h
                /\ (Js.startsWith "Bearer " h = false
                    \/ Js.slice 7 h <> API_SECRET SYNC_API_SECRET)) ->
  POST request s = (s, inr {| status := 401; body := Unauthorized |}).
Proof.
  intros Hbad. unfold Route.POST. now rewrite (rejected_spec _ Hbad).
Qed.

(** *** The two loops *)

Lemma insert_health_raw_cases (row : HealthRawRow) (s s' : Server) (d : Database) res :
  transaction s = Some d ->
  insert_health_raw row s = (s', res) ->
  committed s' = committed s /\ effects s' = effects s
  /\ match res with
     | inl msg =>
         health_raw_violation row = Some msg /\ transaction s' = Some d
     | inr rowCount =>
         health_raw_violation row = None
         /\ ((rowCount = 0 /\ is_Some (health_raw d !! record_hash row)
              /\ transaction s' = Some d)
             \/ (rowCount = 1 /\ health_raw d !! record_hash row = None
                 /\ transaction s' =
                      Some {| health_raw := <[record_hash row := row]> (health_raw d);
                              workouts_table := workouts_table d |}))
     end.
Proof.
  intros Htx. unfold Route.insert_health_raw.
  destruct (health_raw_violation row) as [msg|] eqn:Hv.
  - unfold throw. intros [= <- <-]. auto.
  - unfold current. rewrite Htx.
    destruct (health_raw d !! record_hash row) as [old|] eqn:Hl.
    + intros [= <- <-]. naive_solver.
    + unfold bind, write, ret. rewrite Htx. intros [= <- <-]. cbn. naive_solver.
Qed.
Lemma insert_records_step (record : HealthRecordPayload) rest c (s : Server) :
  insert_records (record :: rest) c s =
  match insert_health_raw (record_row record)
          {| committed := committed s; transaction := transaction s;
             effects := Query (InsertHealthRaw (record_row record))
                          :: CreateHash (record_key number_to_string record) :: effects s |} with
  | (s', inr rowCount) =>
      insert_records rest
        (if (0 <? rowCount)%nat
         then {| insertedRecords := S (insertedRecords c);
                 insertedWorkouts := insertedWorkouts c;
                 skippedDuplicates := skippedDuplicates c |}
         else {| insertedRecords := insertedRecords c;
                 insertedWorkouts := insertedWorkouts c;
                 skippedDuplicates := S (skippedDuplicates c) |}) s'
  | (s', inl e) => (s', inl e)
  end.
Proof. reflexivity. Qed.

Lemma insert_records_spec (rs : list HealthRecordPayload) :
  forall c (s s' : Server) (d : Database) res,
    transaction s = Some d ->
    insert_records rs c s = (s', res) ->
    committed s' = committed s
    /\ exists d', transaction s' = Some d'
                  /\ workouts_table d' = workouts_table d
                  /\ health_raw d ⊆ health_raw d'
                  /\ match res with
                     | inr c' =>
                         Forall (fun r => health_raw_violation (record_row r) = None) rs
                         /\ Forall (fun r => is_Some (health_raw d' !! generateRecordHash r)) rs
                         /\ insertedWorkouts c' = insertedWorkouts c
                         /\ (insertedRecords c' + skippedDuplicates c'
                             = insertedRecords c + skippedDuplicates c + length rs)%nat
                     | inl msg =>
                         Exists (fun r => health_raw_violation (record_row r) = Some msg) rs
                     end.
Proof.
  induction rs as [|record rest IH]; intros c s s' d res Htx.
  - cbn. intros [= <- <-]. split; [done|]. exists d. repeat split; auto; cbn; lia.
  - rewrite insert_records_step.
    destruct (insert_health_raw _ _) as [s1 r1] eqn:Hins.
    eapply insert_health_raw_cases in Hins as (Hc & _ & Hres); [|exact Htx].
    cbn in Hc.
    destruct r1 as [msg|rowCount].
    + intros [= <- <-]. destruct Hres as [Hv Ht]. split; [done|].
      exists d. repeat split; auto.
    + destruct Hres as [Hv [(-> & Hin & Ht) | (-> & Hout & Ht)]]; intros Hrest;
        eapply IH in Hrest as (Hc' & d' & Ht' & Hw & Hsub & Hres'); try exact Ht;
        (split; [congruence|]); exists d'; cbn in *.
      * repeat split; auto.
        destruct res as [msg|c']; [now apply Exists_cons_tl|].
        destruct Hres' as (Hclean & Hpresent & Hwk & Hcount). cbn in *.
        repeat split; auto; [|lia].
        constructor; [|done]. destruct Hin as [old Hin].
        exists old. eapply lookup_weaken; eauto.
      * assert (health_raw d ⊆ health_raw d') as Hsub'.
        { etrans; [|exact Hsub]. now apply insert_subseteq. }
        repeat split; auto.
        destruct res as [msg|c']; [now apply Exists_cons_tl|].
        destruct Hres' as (Hclean & Hpresent & Hwk & Hcount). cbn in *.
        repeat split; auto; [|lia].
        constructor; [|done]. exists (record_row record).
        eapply lookup_weaken; [|exact Hsub]. apply lookup_insert_eq.
Qed.
Lemma skipped_succ (n : nat) (c : Counters) :
  skipped n {| insertedRecords := insertedRecords c;
               insertedWorkouts := insertedWorkouts c;
               skippedDuplicates := S (skippedDuplicates c) |}
  = skipped (S n) c.
Proof. unfold skipped. cbn. f_equal. lia. Qed.

Lemma insert_records_duplicates (rs : list HealthRecordPayload) :
  forall c (s : Server) (d : Database),
    transaction s = Some d ->
    Forall (fun r => health_raw_violation (record_row r) = None) rs ->
    Forall (fun r => is_Some (health_raw d !! generateRecordHash r)) rs ->
    exists s', insert_records rs c s = (s', inr (skipped (length rs) c))
               /\ committed s' = committed s /\ transaction s' = Some d.
Proof.
  induction rs as [|record rest IH]; intros c s d Htx Hclean Hpresent.
  - exists s. destruct c. auto.
  - apply Forall_cons in Hclean as [Hv Hclean].
    apply Forall_cons in Hpresent as [[old Hold] Hpresent].
    rewrite insert_records_step. unfold Route.insert_health_raw.
    rewrite Hv. unfold current. cbn [transaction]. rewrite Htx.
    change (record_hash (record_row record)) with (generateRecordHash record).
    rewrite Hold. cbn [Nat.ltb Nat.leb].
    edestruct IH as (s' & -> & Hc & Ht); [| exact Hclean | exact Hpresent |].
    + reflexivity.
    + exists s'. rewrite skipped_succ. auto.
Qed.
Lemma insert_workout_cases (row : WorkoutRow) (s s' : Server) (d : Database) res :
  transaction s = Some d ->
  insert_workout row s = (s', res) ->
  committed s' = committed s /\ effects s' = effects s
  /\ match res with
     | inl msg =>
         workouts_violation row = Some msg /\ transaction s' = Some d
     | inr rowCount =>
         workouts_violation row = None
         /\ ((rowCount = 0 /\ is_Some (workouts_table d !! workout_hash row)
              /\ transaction s' = Some d)
             \/ (rowCount = 1 /\ workouts_table d !! workout_hash row = None
                 /\ transaction s' =
                      Some {| health_raw := health_raw d;
                              workouts_table :=
                                <[workout_hash row := row]> (workouts_table d) |}))
     end.
Proof.
  intros Htx. unfold Route.insert_workout.
  destruct (workouts_violation row) as [msg|] eqn:Hv.
  - unfold throw. intros [= <- <-]. auto.
  - unfold current. rewrite Htx.
    destruct (workouts_table d !! workout_hash row) as [old|] eqn:Hl.
    + intros [= <- <-]. naive_solver.
    + unfold bind, write, ret. rewrite Htx. intros [= <- <-]. cbn. naive_solver.
Qed.

Lemma insert_workouts_step (workout : WorkoutPayload) rest c (s : Server) :
  insert_workouts (workout :: rest) c s =
  match insert_workout (workout_row workout)
          {| committed := committed s; transaction := transaction s;
             effects := Query (InsertWorkout (workout_row workout))
                          :: CreateHash (workout_key number_to_string workout) :: effects s |} with
  | (s', inr rowCount) =>
      insert_workouts rest
        (if (0 <? rowCount)%nat
         then {| insertedRecords := insertedRecords c;
                 insertedWorkouts := S (insertedWorkouts c);
                 skippedDuplicates := skippedDuplicates c |}
         else {| insertedRecords := insertedRecords c;
                 insertedWorkouts := insertedWorkouts c;
                 skippedDuplicates := S (skippedDuplicates c) |}) s'
  | (s', inl e) => (s', inl e)
  end.
Proof. reflexivity. Qed.

Lemma insert_workouts_spec (ws : list WorkoutPayload) :
  forall c (s s' : Server) (d : Database) res,
    transaction s = Some d ->
    insert_workouts ws c s = (s', res) ->
    committed s' = committed s
    /\ exists d', transaction s' = Some d'
                  /\ health_raw d' = health_raw d
                  /\ workouts_table d ⊆ workouts_table d'
                  /\ match res with
                     | inr c' =>
                         Forall (fun w => workouts_violation (workout_row w) = None) ws
                         /\ Forall (fun w =>
                                      is_Some (workouts_table d' !! generateWorkoutHash w)) ws
                         /\ insertedRecords c' = insertedRecords c
                         /\ (insertedWorkouts c' + skippedDuplicates c'
                             = insertedWorkouts c + skippedDuplicates c + length ws)%nat
                     | inl msg =>
                         Exists (fun w => workouts_violation (workout_row w) = Some msg) ws
                     end.
Proof.
  induction ws as [|workout rest IH]; intros c s s' d res Htx.
  - cbn. intros [= <- <-]. split; [done|]. exists d. repeat split; auto; cbn; lia.
  - rewrite insert_workouts_step.
    destruct (insert_workout _ _) as [s1 r1] eqn:Hins.
    eapply insert_workout_cases in Hins as (Hc & _ & Hres); [|exact Htx].
    cbn in Hc.
    destruct r1 as [msg|rowCount].
    + intros [= <- <-]. destruct Hres as [Hv Ht]. split; [done|].
      exists d. repeat split; auto.
    + destruct Hres as [Hv [(-> & Hin & Ht) | (-> & Hout & Ht)]]; intros Hrest;
        eapply IH in Hrest as (Hc' & d' & Ht' & Hw & Hsub & Hres'); try exact Ht;
        (split; [congruence|]); exists d'; cbn in *.
      * repeat split; auto.
        destruct res as [msg|c']; [now apply Exists_cons_tl|].
        destruct Hres' as (Hclean & Hpresent & Hwk & Hcount). cbn in *.
        repeat split; auto; [|lia].
        constructor; [|done]. destruct Hin as [old Hin].
        exists old. eapply lookup_weaken; eauto.
      * assert (workouts_table d ⊆ workouts_table d') as Hsub'.
        { etrans; [|exact Hsub]. now apply insert_subseteq. }
        repeat split; auto.
        destruct res as [msg|c']; [now apply Exists_cons_tl|].
        destruct Hres' as (Hclean & Hpresent & Hwk & Hcount). cbn in *.
        repeat split; auto; [|lia].
        constructor; [|done]. exists (workout_row workout).
        eapply lookup_weaken; [|exact Hsub]. apply lookup_insert_eq.
Qed.

Lemma insert_workouts_duplicates (ws : list WorkoutPayload) :
  forall c (s : Server) (d : Database),
    transaction s = Some d ->
    Forall (fun w => workouts_violation (workout_row w) = None) ws ->
    Forall (fun w => is_Some (workouts_table d !! generateWorkoutHash w)) ws ->
    exists s', insert_workouts ws c s = (s', inr (skipped (length ws) c))
               /\ committed s' = committed s /\ transaction s' = Some d.
Proof.
  induction ws as [|workout rest IH]; intros c s d Htx Hclean Hpresent.
  - exists s. destruct c. auto.
  - apply Forall_cons in Hclean as [Hv Hclean].
    apply Forall_cons in Hpresent as [[old Hold] Hpresent].
    rewrite insert_workouts_step. unfold Route.insert_workout.
    rewrite Hv. unfold current. cbn [transaction]. rewrite Htx.
    change (workout_hash (workout_row workout)) with (generateWorkoutHash workout).
    rewrite Hold. cbn [Nat.ltb Nat.leb].
    edestruct IH as (s' & -> & Hc & Ht); [| exact Hclean | exact Hpresent |].
    + reflexivity.
    + exists s'. rewrite skipped_succ. auto.
Qed.
(** *** The transaction and the handler, step by step *)

Lemma transact_unfold (batch : SyncBatch) (s : Server) :
  transact batch s =
  match insert_records (batch_records batch) no_counts (begun s) with
  | (s1, inl e) => (s1, inl e)
  | (s1, inr c1) =>
      match insert_workouts (batch_workouts batch) c1 s1 with
      | (s2, inl e) => (s2, inl e)
      | (s2, inr c2) => (ended batch c2 s2, inr (success c2))
      end
  end.
Proof.
  unfold Route.transact, batch_records, batch_workouts, bind.
  change (query Begin s) with (begun s, @inr string nat 0).
  cbv beta iota.
  assert (forall c s0,
             match records batch with
             | Some ((_ :: _) as rs) => insert_records rs c
             | _ => ret c
             end s0 = insert_records (default [] (records batch)) c s0) as ->
      by (intros; now destruct (records batch) as [[|]|]).
  destruct (insert_records _ _ _) as [s1 [e|c1]]; [reflexivity|].
  assert (forall c s0,
             match workouts batch with
             | Some ((_ :: _) as ws) => insert_workouts ws c
             | _ => ret c
             end s0 = insert_workouts (default [] (workouts batch)) c s0) as ->
      by (intros; now destruct (workouts batch) as [[|]|]).
  destruct (insert_workouts _ _ _) as [s2 [e|c2]]; reflexivity.
Qed.

Lemma POST_unfold (request : Request) (batch : SyncBatch) (s : Server) :
  rejected (authorization request) = false ->
  json request = inr batch ->
  POST request s =
  match transact batch (connected s) with
  | (s1, inr response) => (released s1, inr response)
  | (s1, inl e) => (rolled_back e s1, inr {| status := 500; body := SyncFailed e |})
  end.
Proof.
  intros Hauth Hjson. unfold Route.POST, request_json. rewrite Hauth, Hjson.
  unfold try_catch, try_finally, bind, emit, ret, throw, Route.query, bind, emit.
  cbv beta iota.
  change (transact batch _) with (transact batch (connected s)).
  destruct (transact batch (connected s)) as [s1 [e|response]]; reflexivity.
Qed.
Lemma refused_not_clean (batch : SyncBatch) (msg : string) :
  refused batch msg -> clean_records batch -> clean_workouts batch -> False.
Proof.
  unfold Route.clean_records, Route.clean_workouts. rewrite !Forall_forall.
  intros [Hex | Hex] Hr Hw; apply Exists_exists in Hex as (x & Hin & Hv).
  - specialize (Hr _ Hin). congruence.
  - specialize (Hw _ Hin). congruence.
Qed.

Lemma transact_outcome (batch : SyncBatch) (s s' : Server) res :
  transact batch s = (s', res) ->
  match res with
  | inr response =>
      exists c, response = success c
                /\ transaction s' = None
                /\ health_raw (current s) ⊆ health_raw (committed s')
                /\ workouts_table (current s) ⊆ workouts_table (committed s')
                /\ clean_records batch /\ clean_workouts batch
                /\ stored batch (committed s')
                /\ (insertedRecords c + insertedWorkouts c + skippedDuplicates c
                    = length (batch_records batch) + length (batch_workouts batch))%nat
  | inl msg => committed s' = committed s /\ refused batch msg
  end.
Proof.
  rewrite transact_unfold.
  destruct (insert_records _ _ _) as [s1 r1] eqn:Hrec.
  eapply insert_records_spec in Hrec as (Hc1 & d1 & Ht1 & Hw1 & Hsub1 & Hres1); [|reflexivity].
  cbn in Hc1.
  destruct r1 as [msg|c1].
  { intros [= <- <-]. split; [exact Hc1|]. now left. }
  destruct Hres1 as (Hclean1 & Hpresent1 & Hwk1 & Hcount1).
  destruct (insert_workouts _ _ _) as [s2 r2] eqn:Hwk.
  eapply insert_workouts_spec in Hwk as (Hc2 & d2 & Ht2 & Hh2 & Hsub2 & Hres2); [|exact Ht1].
  destruct r2 as [msg|c2].
  { intros [= <- <-]. split; [congruence|]. now right. }
  destruct Hres2 as (Hclean2 & Hpresent2 & Hrec2 & Hcount2).
  intros [= <- <-]. exists c2.
  assert (committed (ended batch c2 s2) = d2) as ->
      by (unfold ended, current; cbn; now rewrite Ht2).
  split; [done|]. split; [done|].
  split; [now rewrite Hh2|]. split; [now rewrite <- Hw1|].
  split; [done|]. split; [done|].
  split; [split; [now rewrite Hh2 | done]|].
  cbn in *. lia.
Qed.

Lemma transact_replay (batch : SyncBatch) (s : Server) :
  clean_records batch -> clean_workouts batch -> stored batch (current s) ->
  exists s',
    transact batch s
    = (s', inr (success (skipped (length (batch_records batch)
                                  + length (batch_workouts batch)) no_counts)))
    /\ committed s' = current s /\ transaction s' = None.
Proof.
  intros Hr Hw [Hsr Hsw]. rewrite transact_unfold.
  edestruct (insert_records_duplicates (batch_records batch) no_counts (begun s))
    as (s1 & -> & Hc1 & Ht1); [reflexivity | exact Hr | exact Hsr |].
  edestruct (insert_workouts_duplicates (batch_workouts batch)
               (skipped (length (batch_records batch)) no_counts) s1)
    as (s2 & -> & Hc2 & Ht2); [exact Ht1 | exact Hw | exact Hsw |].
  eexists. split; [|split].
  - f_equal. f_equal. unfold success, skipped. cbn. do 2 f_equal. lia.
  - unfold ended, current. cbn. now rewrite Ht2.
  - reflexivity.
Qed.

Lemma POST_malformed (request : Request) (e : string) (s : Server) :
  rejected (authorization request) = false ->
  json request = inl e ->
  POST request s =
  ({| committed := committed s; transaction := transaction s;
      effects := ConsoleError e :: RequestJson :: effects s |},
   inr {| status := 500; body := SyncFailed e |}).
Proof.
  intros Hauth Hjson. unfold Route.POST, request_json. rewrite Hauth, Hjson. reflexivity.
Qed.
(** *** Where the rows of [workouts] come from *)

Lemma insert_workouts_provenance (ws : list WorkoutPayload) :
  forall c (s s' : Server) (d d' : Database) res,
    transaction s = Some d ->
    insert_workouts ws c s = (s', res) ->
    transaction s' = Some d' ->
    forall h row,
      workouts_table d' !! h = Some row ->
      workouts_table d !! h = Some row \/ exists w, w ∈ ws /\ row = workout_row w.
Proof.
  induction ws as [|workout rest IH]; intros c s s' d d' res Htx.
  - cbn. intros [= <- <-] Htx' h row Hrow. left. congruence.
  - rewrite insert_workouts_step.
    destruct (insert_workout _ _) as [s1 r1] eqn:Hins.
    eapply insert_workout_cases in Hins as (_ & _ & Hres); [|exact Htx].
    destruct r1 as [msg|rowCount].
    + intros [= <- <-] Htx' h row Hrow. destruct Hres as [_ Ht]. left. congruence.
    + destruct Hres as [_ [(-> & _ & Ht) | (-> & _ & Ht)]];
        intros Hrest Htx' h row Hrow;
        destruct (IH _ _ _ _ _ _ Ht Hrest Htx' h row Hrow) as [Hold | (w & Hin & ->)].
      * now left.
      * right. exists w. split; [now apply list_elem_of_further | reflexivity].
      * cbn in Hold. apply lookup_insert_Some in Hold as [[<- <-] | [_ Hold]].
        -- right. exists workout. split; [apply list_elem_of_here | reflexivity].
        -- now left.
      * right. exists w. split; [now apply list_elem_of_further | reflexivity].
Qed.

Lemma POST_new_workout_rows (request : Request) (batch : SyncBatch)
    (s s' : Server) (r : string + Response) :
  rejected (authorization request) = false ->
  json request = inr batch ->
  transaction s = None ->
  POST request s = (s', r) ->
  forall h row,
    workouts_table (committed s') !! h = Some row ->
    workouts_table (committed s) !! h = Some row
    \/ exists w, w ∈ batch_workouts batch /\ row = workout_row w.
Proof.
  intros Hauth Hjson Hidle. rewrite (POST_unfold _ _ _ Hauth Hjson), transact_unfold.
  destruct (insert_records _ _ _) as [s1 r1] eqn:Hrec.
  eapply insert_records_spec in Hrec as (Hc1 & d1 & Ht1 & Hw1 & _); [|reflexivity].
  unfold current in Hw1. cbn in Hc1, Hw1. rewrite Hidle in Hw1.
  destruct r1 as [msg|c1].
  { intros [= <- <-] h row Hrow. left. cbn in Hrow. now rewrite Hc1 in Hrow. }
  destruct (insert_workouts _ _ _) as [s2 r2] eqn:Hwk.
  pose proof Hwk as Hspec.
  eapply insert_workouts_spec in Hspec as (Hc2 & d2 & Ht2 & _); [|exact Ht1].
  destruct r2 as [msg|c2].
  { intros [= <- <-] h row Hrow. left. cbn in Hrow. now rewrite Hc2, Hc1 in Hrow. }
  intros [= <- <-] h row Hrow. unfold released, ended, current in Hrow. cbn in Hrow.
  rewrite Ht2 in Hrow.
  destruct (insert_workouts_provenance _ _ _ _ _ _ _ Ht1 Hwk Ht2 h row Hrow) as [Hold | Hnew].
  - left. now rewrite <- Hw1.
  - now right.
Qed.

(** C10. Every row of [workouts] that an authenticated request adds is the
    row of a workout of its batch, and in it the distance unit is NULL
    when [totalDistance] is 0 and "mi" when it is a number other than 0,
    the energy unit is NULL when [totalEnergyBurned] is 0 and "kcal" when
    it is a number other than 0, and the unit of an absent value is NULL
    as well: the unit of a zero value is the unit of an absent one.  (A
    number of a JSON body is never NaN.) *)
Theorem unit_columns_by_truthiness (request : Request) (batch : SyncBatch)
    (s s' : Server) (r : string + Response) (h : string) (row : WorkoutRow) :
  rejected (authorization request) = false ->
  json request = inr batch ->
  transaction s = None ->
  POST request s = (s', r) ->
  workouts_table (committed s) !! h = None ->
  workouts_table (committed s') !! h = Some row ->
  exists workout,
    workout ∈ batch_workouts batch
    /\ row = workouts_values workout (generateWorkoutHash workout)
    /\ (forall x, totalDistance workout = Some x ->
                  PrimFloat.eqb x PrimFloat.zero = true ->
                  total_distance_unit row = None)
    /\ (forall x, totalEnergyBurned workout = Some x ->
                  PrimFloat.eqb x PrimFloat.zero = true ->
                  total_energy_unit row = None)
    /\ (forall x, totalDistance workout = Some x ->
                  PrimFloat.eqb x PrimFloat.zero = false -> PrimFloat.is_nan x = false ->
                  total_distance_unit row = Some "mi")
    /\ (forall x, totalEnergyBurned workout = Some x ->
                  PrimFloat.eqb x PrimFloat.zero = false -> PrimFloat.is_nan x = false ->
                  total_energy_unit row = Some "kcal")
    /\ (totalDistance workout = None -> total_distance_unit row = None)
    /\ (totalEnergyBurned workout = None -> total_energy_unit row = None).
Proof.
  intros Hauth Hjson Hidle Hpost Hfresh Hrow.
  destruct (POST_new_workout_rows _ _ _ _ _ Hauth Hjson Hidle Hpost h row Hrow)
    as [Hold | (workout & Hin & ->)]; [congruence|].
  exists workout. split; [exact Hin|]. split; [reflexivity|].
  apply workouts_values_units.
Qed.

(** *** Atomic commit *)

(** C3. When the store raises an error for one element of the batch of an
    authenticated request (a row of [health_raw] or of [workouts] that
    violates a constraint), the handler issues ROLLBACK, releases the
    connection and answers 500 "Sync failed"; no transaction is left
    open, and the committed tables are the ones from before the request:
    none of the elements is persisted. *)
Theorem atomic_batch_commit (request : Request) (batch : SyncBatch) (s : Server) :
  rejected (authorization request) = false ->
  json request = inr batch ->
  Exists (fun r => health_raw_violation (record_row r) <> None) (batch_records batch)
  \/ Exists (fun w => workouts_violation (workout_row w) <> None) (batch_workouts batch) ->
  exists s' details,
    POST request s = (s', inr {| status := 500; body := SyncFailed details |})
    /\ committed s' = committed s
    /\ transaction s' = None
    /\ exists earlier,
        effects s' = ConsoleError details :: Release :: Query Rollback :: earlier.
Proof.
  intros Hauth Hjson Hbad. rewrite (POST_unfold _ _ _ Hauth Hjson).
  destruct (transact batch (connected s)) as [s1 [msg|response]] eqn:Htx;
    apply transact_outcome in Htx.
  - destruct Htx as [Hc _]. exists (rolled_back msg s1), msg.
    repeat split; auto. now exists (effects s1).
  - destruct Htx as (c & _ & _ & _ & _ & Hr & Hw & _). exfalso.
    unfold Route.clean_records, Route.clean_workouts in *.
    rewrite Forall_forall in Hr. rewrite Forall_forall in Hw.
    destruct Hbad as [Hex | Hex]; apply Exists_exists in Hex as (x & Hin & Hv).
    + now apply Hv, Hr.
    + now apply Hv, Hw.
Qed.

(** *** Idempotence *)

(** C2. Posting a batch a second time with valid credentials leaves the
    committed tables as the first post left them, so the second post
    inserts no row; and when the first post was answered with success, the
    second is answered with success too, reporting no inserted record, no
    inserted workout, and every record and workout of the batch as a
    skipped duplicate. *)
Theorem idempotent_insert (request : Request) (batch : SyncBatch)
    (s s1 s2 : Server) (r1 r2 : string + Response) :
  rejected (authorization request) = false ->
  json request = inr batch ->
  POST request s = (s1, r1) ->
  POST request s1 = (s2, r2) ->
  committed s2 = committed s1
  /\ (forall a b c,
         r1 = inr {| status := 200; body := Success a b c |} ->
         r2 = inr {| status := 200;
                     body := Success 0 0 (length (batch_records batch)
                                          + length (batch_workouts batch)) |}).
Proof.
  intros Hauth Hjson.
  rewrite !(POST_unfold _ _ _ Hauth Hjson).
  destruct (transact batch (connected s)) as [s1' [msg|response]] eqn:Hfirst;
    apply transact_outcome in Hfirst; intros [= <- <-].
  - (* the first post failed: so does the second *)
    destruct Hfirst as [_ Href].
    destruct (transact batch (connected _)) as [s2' [msg'|response']] eqn:Hsecond;
      apply transact_outcome in Hsecond; intros [= <- <-].
    + destruct Hsecond as [Hc _]. split; [exact Hc | discriminate].
    + destruct Hsecond as (c & _ & _ & _ & _ & Hr & Hw & _).
      destruct (refused_not_clean _ _ Href Hr Hw).
  - (* the first post succeeded: the second finds every hash *)
    destruct Hfirst as (c & -> & Ht & _ & _ & Hr & Hw & Hstored & _).
    destruct (transact_replay batch (connected (released s1'))) as (s2' & -> & Hc & _);
      [exact Hr | exact Hw | |].
    { unfold current. cbn. now rewrite Ht. }
    intros [= <- <-]. split.
    + cbn. rewrite Hc. unfold current. cbn. now rewrite Ht.
    + intros a b c' _. unfold success, skipped. cbn. now rewrite Nat.add_0_r.
Qed.

(** *** Deletion markers *)

Lemma POST_keeps_rows (request : Request) (s s' : Server) (r : string + Response) :
  transaction s = None ->
  POST request s = (s', r) ->
  health_raw (committed s) ⊆ health_raw (committed s')
  /\ workouts_table (committed s) ⊆ workouts_table (committed s').
Proof.
  intros Hidle.
  destruct (rejected (authorization request)) eqn:Hauth.
  { unfold Route.POST. rewrite Hauth. now intros [= <- <-]. }
  destruct (json request) as [e|batch] eqn:Hjson.
  { rewrite (POST_malformed _ _ _ Hauth Hjson). now intros [= <- <-]. }
  rewrite (POST_unfold _ _ _ Hauth Hjson).
  destruct (transact batch (connected s)) as [s1 [msg|response]] eqn:Htx;
    apply transact_outcome in Htx; intros [= <- <-]; cbn.
  - destruct Htx as [-> _]. done.
  - destruct Htx as (c & _ & _ & Hh & Hw & _).
    unfold current in Hh, Hw. cbn in Hh, Hw. now rewrite Hidle in Hh, Hw.
Qed.

(** C8. The handler does not read [deletedUUIDs]: two requests that differ
    in their deletion markers only leave the same server (tables and
    effects) and get the same answer; and no request removes a stored row:
    every row of [health_raw] and of [workouts] committed before a request
    is committed after it. *)
Theorem deletion_markers_ignored (header : option string) (batch : SyncBatch)
    (deleted : list string) (s : Server) :
  POST {| authorization := header; json := inr (with_deletedUUIDs deleted batch) |} s
  = POST {| authorization := header; json := inr batch |} s
  /\ (forall s' r,
         transaction s = None ->
         POST {| authorization := header; json := inr batch |} s = (s', r) ->
         health_raw (committed s) ⊆ health_raw (committed s')
         /\ workouts_table (committed s) ⊆ workouts_table (committed s')).
Proof.
  split.
  - reflexivity.
  - intros s' r. apply POST_keeps_rows.
Qed.
End Handler.

(** *** The theorems at work on concrete requests *)

Import RouteScenario.

Lemma hash_determinism_witness :
  generateRecordHash digest show_number (heart_rate 72 "Watch" None)
  = generateRecordHash digest show_number
      (heart_rate 72 "Watch" (Some [("HKMetadataKeyHeartRateMotionContext", "1")]))
  /\ generateWorkoutHash digest show_number (walk (Some 0%float) None)
     = generateWorkoutHash digest show_number (walk (Some 2%float) (Some 120%float)).
Proof.
  split.
  - apply (proj1 (hash_determinism digest show_number)); reflexivity.
  - apply (proj2 (hash_determinism digest show_number)); reflexivity.
Defined.

Lemma unit_columns_witness :
  exists workout,
    workout ∈ [walk (Some 0%float) (Some 120%float)]
    /\ total_distance_unit (workouts_values stringify workout
                              (generateWorkoutHash digest show_number workout)) = None
    /\ total_energy_unit (workouts_values stringify workout
                            (generateWorkoutHash digest show_number workout)) = Some "kcal".
Proof.
  pose (request := request_of accepted (batch_of [] [walk (Some 0%float) (Some 120%float)] [])).
  pose (h := generateWorkoutHash digest show_number (walk (Some 0%float) (Some 120%float))).
  pose (row := workouts_values stringify (walk (Some 0%float) (Some 120%float)) h).
  destruct (unit_columns_by_truthiness secret digest show_number stringify
              record_type_not_empty any_workout request
              (batch_of [] [walk (Some 0%float) (Some 120%float)] [])
              empty_server (fst (post request empty_server)) (snd (post request empty_server))
              h row eq_refl eq_refl eq_refl (surjective_pairing _) eq_refl)
    as (workout & Hin & Hrow & Hd0 & _ & _ & He & _).
  { vm_compute. reflexivity. }
  exists workout. split; [exact Hin|]. rewrite <- Hrow.
  apply list_elem_of_singleton in Hin. subst workout.
  split.
  - apply (Hd0 0%float); reflexivity.
  - apply (He 120%float); reflexivity.
Defined.

Lemma unauthorized_witness :
  post (request_of (Some "Basic s3cret") (batch_of [heart_rate 72 "Watch" None] [] []))
    empty_server
  = (empty_server, inr {| status := 401; body := Unauthorized |}).
Proof.
  apply unauthorized_before_anything.
  right. exists "Basic s3cret". split; [reflexivity|]. left. reflexivity.
Defined.

Lemma atomic_batch_commit_witness :
  exists s' details,
    post (request_of accepted (batch_of [heart_rate 72 "Watch" None; nameless] [] []))
      empty_server
    = (s', inr {| status := 500; body := SyncFailed details |})
    /\ committed s' = committed empty_server
    /\ transaction s' = None
    /\ exists earlier,
        effects s' = ConsoleError details :: Release :: Query Rollback :: earlier.
Proof.
  apply (atomic_batch_commit secret digest show_number stringify record_type_not_empty
           any_workout _ (batch_of [heart_rate 72 "Watch" None; nameless] [] [])).
  - reflexivity.
  - reflexivity.
  - left. apply Exists_cons_tl, Exists_cons_hd. discriminate.
Defined.

Lemma idempotent_insert_witness :
  snd (post replayed empty_server) = inr {| status := 200; body := Success 1 1 1 |}
  /\ committed (fst (post replayed (fst (post replayed empty_server))))
     = committed (fst (post replayed empty_server))
  /\ snd (post replayed (fst (post replayed empty_server)))
     = inr {| status := 200; body := Success 0 0 3 |}.
Proof.
  assert (snd (post replayed empty_server)
          = inr {| status := 200; body := Success 1 1 1 |}) as Hfirst
      by (vm_compute; reflexivity).
  destruct (idempotent_insert secret digest show_number stringify record_type_not_empty
              any_workout replayed
              (batch_of [heart_rate 72 "Watch" None;
                         heart_rate 72 "Watch" (Some [("k", "v")])]
                 [walk (Some 0%float) None] ["6F9619FF-8B86-D011-B42D-00CF4FC964FF"])
              empty_server _ _ _ _ eq_refl eq_refl
              (surjective_pairing (post replayed empty_server))
              (surjective_pairing (post replayed (fst (post replayed empty_server)))))
    as [Hsame Hreport].
  split; [exact Hfirst|]. split; [exact Hsame|].
  exact (Hreport 1 1 1 Hfirst).
Defined.

Lemma deletion_markers_witness :
  post (request_of accepted
          (batch_of [heart_rate 72 "Watch" None; heart_rate 72 "Watch" (Some [("k", "v")])]
             [walk (Some 0%float) None] [])) empty_server
  = post replayed empty_server
  /\ health_raw (committed empty_server)
       ⊆ health_raw (committed (fst (post replayed empty_server))).
Proof.
  destruct (deletion_markers_ignored secret digest show_number stringify
              record_type_not_empty any_workout accepted
              (batch_of [heart_rate 72 "Watch" None;
                         heart_rate 72 "Watch" (Some [("k", "v")])]
                 [walk (Some 0%float) None] ["6F9619FF-8B86-D011-B42D-00CF4FC964FF"])
              [] empty_server) as [Hsame Hkept].
  split; [exact Hsame|].
  exact (proj1 (Hkept _ _ eq_refl (surjective_pairing _))).
Defined.

End RouteSpec.

(** ** Properties of the client *)

Module HealthSyncSpec.

Import HealthSync.

Local Open Scope nat_scope.

(** *** Batch assembly *)

Lemma ceil_div_0 (b : nat) : ceil_div 0 b = 0.
Proof.
  unfold ceil_div. destruct b as [|b]; [reflexivity|].
  apply Nat.div_small. lia.
Qed.

Lemma ceil_div_step (n b : nat) : 0 < b -> 0 < n -> ceil_div n b = S (ceil_div (n - b) b).
Proof.
  intros Hb Hn. unfold ceil_div.
  destruct (le_lt_dec b n) as [Hle | Hlt].
  - replace (n + (b - 1)) with ((n - b + (b - 1)) + 1 * b) by lia.
    rewrite Nat.div_add by lia. lia.
  - replace (n - b) with 0 by lia. cbn [Nat.add].
    rewrite (Nat.div_small (b - 1) b) by lia.
    symmetry. apply (Nat.div_unique _ _ 1 (n - 1)); lia.
Qed.

Lemma ceil_div_quotient (n b : nat) :
  0 < b -> ceil_div n b = n / b + (if n mod b =? 0 then 0 else 1).
Proof.
  intros Hb. unfold ceil_div.
  pose proof (Nat.div_mod n b ltac:(lia)) as Hdm.
  pose proof (Nat.mod_upper_bound n b ltac:(lia)) as Hub.
  destruct (Nat.eqb_spec (n mod b) 0) as [Hz | Hnz].
  - symmetry. rewrite Nat.add_0_r.
    apply (Nat.div_unique _ _ _ (b - 1)); lia.
  - symmetry. apply (Nat.div_unique _ _ _ (n mod b - 1)); lia.
Qed.

Lemma stride_from_closed (step : nat) :
  0 < step ->
  forall fuel i n, n <= i + fuel ->
    stride_from fuel i n step
    = map (fun k => i + k * step) (seq 0 (ceil_div (n - i) step)).
Proof.
  intros Hstep. induction fuel as [|fuel IH]; intros i n Hfuel.
  - replace (n - i) with 0 by lia. now rewrite ceil_div_0.
  - cbn [stride_from]. destruct (Nat.ltb_spec i n) as [Hlt | Hge].
    + rewrite (ceil_div_step (n - i) step) by lia. cbn [seq map].
      f_equal; [lia|]. rewrite IH by lia.
      rewrite <- seq_shift, map_map.
      replace (n - i - step) with (n - (i + step)) by lia.
      apply map_ext. intros k. lia.
    + replace (n - i) with 0 by lia. now rewrite ceil_div_0.
Qed.

Lemma stride_closed (n step : nat) :
  0 < step -> stride 0 n step = map (fun k => k * step) (seq 0 (ceil_div n step)).
Proof.
  intros Hstep. unfold stride. rewrite stride_from_closed by lia.
  now rewrite Nat.sub_0_r.
Qed.

Lemma array_slice_chunk {A} (all : list A) (k b : nat) :
  array_slice all (k * b) (min (k * b + b) (length all)) = take b (drop (k * b) all).
Proof.
  unfold array_slice.
  destruct (le_lt_dec (k * b + b) (length all)) as [Hle | Hlt].
  - rewrite Nat.min_l by lia. f_equal. lia.
  - rewrite Nat.min_r by lia.
    rewrite (take_ge (drop (k * b) all) b) by (rewrite length_drop; lia).
    apply take_ge. rewrite length_drop. lia.
Qed.

Lemma chunks_concat {A} (all : list A) (b : nat) :
  forall c, concat (map (fun k => take b (drop (k * b) all)) (seq 0 c)) = take (c * b) all.
Proof.
  induction c as [|c IH].
  - now rewrite take_0.
  - rewrite seq_S, map_app, concat_app, IH. cbn [map concat Nat.add].
    rewrite app_nil_r.
    replace (S c * b) with (c * b + b) by lia.
    now rewrite take_take_drop.
Qed.

Lemma chunks_of_chunked {A} (b : nat) (all : list A) :
  0 < b -> chunked b all (chunks_of b all).
Proof.
  intros Hb. unfold chunked, chunks_of.
  pose proof (Nat.div_mod (length all) b ltac:(lia)) as Hdm.
  pose proof (Nat.mod_upper_bound (length all) b ltac:(lia)) as Hub.
  pose proof (ceil_div_quotient (length all) b Hb) as Hceil.
  split; [|split].
  - now rewrite length_map, length_seq.
  - rewrite chunks_concat. apply take_ge.
    rewrite Hceil. destruct (Nat.eqb_spec (length all mod b) 0); nia.
  - intros k chunk Hk.
    apply list_lookup_fmap_Some in Hk as (k' & -> & Hk').
    apply lookup_seq in Hk' as [-> Hlt]. cbn [Nat.add].
    rewrite length_take, length_drop.
    destruct (Nat.ltb_spec k (length all / b)) as [Hfull | Hlast].
    + apply Nat.min_l. nia.
    + assert (k = length all / b) as ->
          by (destruct (Nat.eqb_spec (length all mod b) 0); lia).
      rewrite Nat.min_r by nia. nia.
Qed.

Section Assembly.

Variable config : SyncConfig.

Lemma imap_chunks {A B} (f : nat -> list A -> B) (b : nat) (all : list A) (c : nat) :
  imap f (map (fun k => take b (drop (k * b) all)) (seq 0 c))
  = map (fun k => f k (take b (drop (k * b) all))) (seq 0 c).
Proof.
  induction c as [|c IH]; [reflexivity|].
  rewrite seq_S, !map_app, imap_app, IH. cbn.
  now rewrite length_map, length_seq, Nat.add_0_r.
Qed.

(** C7, as the code has it.  With a positive batch size [B], a non-empty
    sequence of [n] records is cut, in order, into [ceil (n / B)] chunks
    of [B] records, the last one of [n mod B] when [B] does not divide
    [n]; the batches are one per chunk, in order, each with records only,
    the first with all the deletion identifiers and the others with none.
    Without records, a non-empty sequence of workouts is assembled the
    same way into batches with workouts only.  Without records and
    workouts, the deletion identifiers, if there are any, make one batch
    that has neither records nor workouts. *)
Theorem batch_assembly (ty : HealthDataType) (allRecords : list HealthRecordPayload)
    (allWorkouts : list WorkoutPayload) (deleted : list string) (now : Date) :
  0 < batchSize config ->
  let batches := map (fun build => build now) (assemble config ty allRecords allWorkouts deleted) in
  (allRecords <> [] ->
   exists chunks, chunked (batchSize config) allRecords chunks
                  /\ batches = imap (record_batch config ty deleted now) chunks)
  /\ (allRecords = [] -> allWorkouts <> [] ->
      exists chunks, chunked (batchSize config) allWorkouts chunks
                     /\ batches = imap (workout_batch config ty deleted now) chunks)
  /\ (allRecords = [] -> allWorkouts = [] -> deleted <> [] ->
      batches = [deletion_batch config ty deleted now])
  /\ (allRecords = [] -> allWorkouts = [] -> deleted = [] -> batches = []).
Proof.
  intros Hb batches. subst batches. unfold assemble. repeat split.
  - intros Hne. destruct allRecords as [|r rs]; [done|]. cbn [isEmpty negb].
    exists (chunks_of (batchSize config) (r :: rs)).
    split; [now apply chunks_of_chunked|].
    rewrite stride_closed by done. unfold chunks_of.
    rewrite imap_chunks, !map_map. apply map_ext. intros k.
    unfold record_batch. rewrite array_slice_chunk.
    replace (k * batchSize config =? 0) with (k =? 0); [done|].
    destruct (Nat.eqb_spec k 0), (Nat.eqb_spec (k * batchSize config) 0); nia.
  - intros -> Hne. destruct allWorkouts as [|w ws]; [done|]. cbn [isEmpty negb].
    exists (chunks_of (batchSize config) (w :: ws)).
    split; [now apply chunks_of_chunked|].
    rewrite stride_closed by done. unfold chunks_of.
    rewrite imap_chunks, !map_map. apply map_ext. intros k.
    unfold workout_batch. rewrite array_slice_chunk.
    replace (k * batchSize config =? 0) with (k =? 0); [done|].
    destruct (Nat.eqb_spec k 0), (Nat.eqb_spec (k * batchSize config) 0); nia.
  - intros -> -> Hne. destruct deleted; [done|]. reflexivity.
  - now intros -> -> ->.
Qed.

End Assembly.

(** *** The upload queue *)

Lemma ofRawValue_rawValue (s : string) (ty : HealthDataType) :
  ofRawValue s = Some ty -> s = rawValue ty.
Proof.
  unfold ofRawValue. intros Hfind.
  apply find_some in Hfind as [_ Heq]. symmetry. now apply String.eqb_eq.
Qed.

Lemma rawValue_inj (ty ty' : HealthDataType) : rawValue ty = rawValue ty' -> ty = ty'.
Proof. destruct ty, ty'; cbn; intros Heq; (reflexivity || discriminate Heq). Qed.

Lemma lastSync_key_inj (a b : string) :
  (lastSyncKeyPrefix ++ a)%string = (lastSyncKeyPrefix ++ b)%string -> a = b.
Proof. intros Heq. cbv in Heq. now injection Heq. Qed.

Lemma anchor_key_not_lastSync (a b : string) :
  (keyPrefix ++ a)%string <> (lastSyncKeyPrefix ++ b)%string.
Proof. intros Heq. cbv in Heq. discriminate Heq. Qed.

Section Queue.

Context `{Platform}.
Variable config : SyncConfig.

Abbreviation uploadBatch := (uploadBatch config).
Abbreviation refreshMaterializedView := (refreshMaterializedView config).
Abbreviation process_batch := (process_batch config).
Abbreviation drain := (drain config).
Abbreviation processQueue := (processQueue config).
Abbreviation queueBatch := (queueBatch config).

Lemma uploadBatch_frame (batch : SyncBatch) (d d' : Device) res :
  uploadBatch batch d = (d', res) ->
  userDefaults d' = userDefaults d
  /\ manager d' = manager d
  /\ managerSet d' = managerSet d
  /\ typeStatuses d' = typeStatuses d
  /\ match res with
     | inr _ => exists n, console d' = print_uploaded n (dataType batch) :: console d
     | inl _ => console d' = console d
     end.
Proof.
  unfold HealthSync.uploadBatch.
  destruct (URL_string _); [|intros [= <- <-]; auto].
  destruct (JSONEncoder_encode batch); [intros [= <- <-]; auto|].
  destruct (URLSession_data _ _) as [w [e|[data [statusCode|]]]].
  - intros [= <- <-]. auto.
  - destruct (negb _); intros [= <- <-]; cbn; eauto 10.
  - intros [= <- <-]. auto.
Qed.

Lemma refreshMaterializedView_frame (d : Device) :
  userDefaults (refreshMaterializedView d) = userDefaults d
  /\ manager (refreshMaterializedView d) = manager d
  /\ managerSet (refreshMaterializedView d) = managerSet d
  /\ typeStatuses (refreshMaterializedView d) = typeStatuses d
  /\ exists lines, console (refreshMaterializedView d) = (lines ++ console d)%list
                   /\ Forall (fun l => is_uploaded l = false /\ is_upload_failed l = false) lines.
Proof.
  unfold HealthSync.refreshMaterializedView.
  destruct (URL_string _); [|repeat split; auto; now exists []].
  destruct (URLSession_data _ _) as [w [e|[data [statusCode|]]]]; cbn.
  - repeat split; auto. exists [print_refresh_failed (ofPlatform e)]. auto.
  - destruct (_ && _); cbn; repeat split; auto.
    + exists [print_view_refreshed]. auto.
    + now exists [].
  - repeat split; auto. now exists [].
Qed.

Lemma process_batch_spec (batch : SyncBatch) (d : Device) :
  managerSet (process_batch batch d) = managerSet d
  /\ typeStatuses (process_batch batch d) = typeStatuses d
  /\ same_queue_state (manager d) (manager (process_batch batch d))
  /\ ((exists n,
         console (process_batch batch d) = print_uploaded n (dataType batch) :: console d
         /\ lastError (manager (process_batch batch d)) = None
         /\ forall key, key <> (lastSyncKeyPrefix ++ dataType batch)%string ->
                        userDefaults (process_batch batch d) !! key = userDefaults d !! key)
      \/ (exists error,
            console (process_batch batch d) = print_upload_failed error :: console d
            /\ lastError (manager (process_batch batch d)) = Some (localizedDescription error)
            /\ lastSyncTime (manager (process_batch batch d)) = lastSyncTime (manager d)
            /\ userDefaults (process_batch batch d) = userDefaults d)).
Proof.
  unfold HealthSync.process_batch.
  destruct (uploadBatch batch d) as [d1 [error|[]]] eqn:Hup;
    apply uploadBatch_frame in Hup as (Hu & Hm & Hs & Ht & Hc).
  - cbn. rewrite Hm. repeat split; auto. right. exists error. rewrite Hc. auto.
  - destruct Hc as [n Hc].
    destruct (ofRawValue (dataType batch)) as [ty|] eqn:Hty.
    + apply ofRawValue_rawValue in Hty.
      unfold Date_init, setLastSyncTime.
      destruct (Date_now (world d1)) as [w1 t1]. cbn.
      destruct (Date_now w1) as [w2 t2]. cbn. rewrite Hm.
      repeat split; auto. left. exists n. repeat split; auto.
      intros key Hkey. rewrite lookup_insert_ne by (rewrite <- Hty; auto).
      now rewrite Hu.
    + unfold Date_init. destruct (Date_now (world d1)) as [w1 t1]. cbn. rewrite Hm.
      repeat split; auto. left. exists n. repeat split; auto.
      intros key _. now rewrite Hu.
Qed.

Lemma drain_spec (queue : list SyncBatch) :
  forall d : Device,
    managerSet (drain queue d) = managerSet d
    /\ typeStatuses (drain queue d) = typeStatuses d
    /\ isProcessingQueue (manager (drain queue d)) = isProcessingQueue (manager d)
    /\ isSyncing (manager (drain queue d)) = isSyncing (manager d)
    /\ (queue <> [] -> uploadQueue (manager (drain queue d)) = []
                       /\ pendingBatches (manager (drain queue d)) = 0)
    /\ exists lines,
        console (drain queue d) = (lines ++ console d)%list
        /\ length lines = length queue
        /\ Forall (fun l => is_uploaded l = true \/ is_upload_failed l = true) lines
        /\ lastError (manager (drain queue d))
           = last_upload_error lines (lastError (manager d))
        /\ (Forall (fun l => is_uploaded l = false) lines ->
            lastSyncTime (manager (drain queue d)) = lastSyncTime (manager d)
            /\ userDefaults (drain queue d) = userDefaults d)
        /\ (forall key,
               (forall n dataType, print_uploaded n dataType ∈ lines ->
                                   key <> (lastSyncKeyPrefix ++ dataType)%string) ->
               userDefaults (drain queue d) !! key = userDefaults d !! key).
Proof.
  induction queue as [|batch rest IH]; intros d.
  - cbn. do 4 (split; [reflexivity|]). split; [done|].
    exists []. repeat split; auto.
  - cbn [HealthSync.drain].
    set (d0 := set_manager _ d).
    destruct (process_batch_spec batch d0) as (Hs1 & Ht1 & (Hq1 & Hp1 & Hi1 & Hy1) & Hline).
    destruct (IH (process_batch batch d0))
      as (Hs & Ht & Hi & Hy & Hempty & lines & Hc & Hlen & Hall & Herr & Hfail & Hkeys).
    split; [now rewrite Hs, Hs1|]. split; [now rewrite Ht, Ht1|].
    split; [now rewrite Hi, Hi1|]. split; [now rewrite Hy, Hy1|].
    split.
    { intros _. destruct rest as [|b rest'].
      - cbn [HealthSync.drain]. now rewrite Hq1, Hp1.
      - now apply Hempty. }
    destruct Hline as [(n & Hc1 & He1 & Hk1) | (error & Hc1 & He1 & Hl1 & Hu1)].
    + exists (lines ++ [print_uploaded n (dataType batch)])%list.
      split; [rewrite Hc, Hc1, <- app_assoc; reflexivity|].
      split; [rewrite length_app, Hlen; cbn; lia|].
      split; [apply Forall_app; split; [done|]; constructor; [now left | constructor]|].
      split.
      { rewrite Herr, He1. destruct lines as [|l lines']; [reflexivity|].
        apply Forall_cons in Hall as [[Hl | Hl] _];
          destruct l; try discriminate Hl; reflexivity. }
      split.
      { intros Hnone. apply Forall_app in Hnone as [_ Hnone].
        apply Forall_cons in Hnone as [Hnone _]. discriminate Hnone. }
      intros key Hkey. rewrite Hkeys, Hk1; [reflexivity| |].
      * apply (Hkey n). apply elem_of_app. right. apply list_elem_of_singleton. reflexivity.
      * intros n' dt Hin. apply (Hkey n'). apply elem_of_app. now left.
    + exists (lines ++ [print_upload_failed error])%list.
      split; [rewrite Hc, Hc1, <- app_assoc; reflexivity|].
      split; [rewrite length_app, Hlen; cbn; lia|].
      split; [apply Forall_app; split; [done|]; constructor; [now right | constructor]|].
      split.
      { rewrite Herr, He1. destruct lines as [|l lines']; [reflexivity|].
        apply Forall_cons in Hall as [[Hl | Hl] _];
          destruct l; try discriminate Hl; reflexivity. }
      split.
      { intros Hnone. apply Forall_app in Hnone as [Hnone _].
        destruct (Hfail Hnone) as [Hl Hu]. now rewrite Hl, Hl1, Hu, Hu1. }
      intros key Hkey. rewrite Hkeys, Hu1; [reflexivity|].
      intros n' dt Hin. apply (Hkey n'). apply elem_of_app. now left.
Qed.
Lemma getLastSyncTime_frame (ty : HealthDataType) (d d' : Device) :
  userDefaults d' !! (lastSyncKeyPrefix ++ rawValue ty)%string
  = userDefaults d !! (lastSyncKeyPrefix ++ rawValue ty)%string ->
  getLastSyncTime ty d' = getLastSyncTime ty d.
Proof. unfold getLastSyncTime. now intros ->. Qed.

(** C9. Started while no run is in progress, on a manager whose pending
    count is the length of its queue, [processQueue] returns with an
    empty queue, a pending count of 0 and [isProcessingQueue] false,
    whatever the uploads did.  It made one upload attempt per queued
    batch (the console has one "Uploaded" or "Upload failed" line for
    each, under the lines of the refresh), so a batch whose upload failed
    was not put back; [lastError] is the error of the latest attempt when
    that attempt failed, and nil when it succeeded.  When no attempt
    succeeded, [lastSyncTime] and the user defaults are as before; and the
    last-sync time of a type is as before unless the upload of a batch of
    that type succeeded. *)
Theorem failed_batches_dropped (d : Device) :
  isProcessingQueue (manager d) = false ->
  pendingBatches (manager d) = length (uploadQueue (manager d)) ->
  uploadQueue (manager (processQueue d)) = []
  /\ pendingBatches (manager (processQueue d)) = 0
  /\ isProcessingQueue (manager (processQueue d)) = false
  /\ exists after lines,
      console (processQueue d) = (after ++ lines ++ console d)%list
      /\ Forall (fun l => is_uploaded l = false /\ is_upload_failed l = false) after
      /\ Forall (fun l => is_uploaded l = true \/ is_upload_failed l = true) lines
      /\ length lines = length (uploadQueue (manager d))
      /\ lastError (manager (processQueue d)) = last_upload_error lines (lastError (manager d))
      /\ (Forall (fun l => is_uploaded l = false) lines ->
          lastSyncTime (manager (processQueue d)) = lastSyncTime (manager d)
          /\ userDefaults (processQueue d) = userDefaults d)
      /\ (forall ty, Forall (fun l => uploaded_for ty l = false) lines ->
                     getLastSyncTime ty (processQueue d) = getLastSyncTime ty d).
Proof.
  intros Hidle Hpending. unfold HealthSync.processQueue. rewrite Hidle.
  set (d0 := set_manager _ d).
  change (uploadQueue (manager d0)) with (uploadQueue (manager d)).
  destruct (drain_spec (uploadQueue (manager d)) d0)
    as (_ & _ & _ & _ & Hempty & lines & Hc & Hlen & Hall & Herr & Hfail & Hkeys).
  set (d1 := drain (uploadQueue (manager d)) d0) in *.
  set (d2 := set_manager _ d1).
  destruct (refreshMaterializedView_frame d2) as (Hu & Hm & _ & _ & after & Hca & Hafter).
  rewrite Hm, Hu. cbn.
  assert (uploadQueue (manager d1) = [] /\ pendingBatches (manager d1) = 0) as [Hq Hp].
  { destruct (uploadQueue (manager d)) as [|b q] eqn:Hqueue.
    - subst d1 d0. cbn. now rewrite Hpending.
    - now apply Hempty. }
  do 3 (split; [done|]).
  exists after, lines. rewrite Hca. cbn. rewrite Hc.
  do 5 (split; [done|]). split; [exact Hfail|].
  intros ty Hnone. apply getLastSyncTime_frame. rewrite Hu.
  change (userDefaults d2) with (userDefaults d1).
  change (userDefaults d) with (userDefaults d0). apply Hkeys.
  intros n dt Hin Hkey. apply lastSync_key_inj in Hkey.
  rewrite Forall_forall in Hnone. specialize (Hnone _ Hin). cbn in Hnone.
  apply String.eqb_neq in Hnone. congruence.
Qed.
(** *** The delta fetch and the cursor *)

Abbreviation fetch_predicate := (fetch_predicate config).
Abbreviation syncData := (syncData config).
Abbreviation sync_results := (sync_results config).
Abbreviation fetchAndSync := (fetchAndSync config).

Lemma fetch_predicate_defaults (anchor : option HKQueryAnchor) (d : Device) :
  userDefaults (snd (fetch_predicate anchor d)) = userDefaults d.
Proof.
  unfold HealthSync.fetch_predicate, Date_init.
  destruct anchor; [reflexivity|]. now destruct (Date_now (world d)).
Qed.

Lemma performAnchoredQuery_defaults (sampleType : HKSampleType)
    (anchor : option HKQueryAnchor) (predicate : option NSPredicate) (d : Device) :
  userDefaults (fst (performAnchoredQuery sampleType anchor predicate d)) = userDefaults d.
Proof.
  unfold performAnchoredQuery.
  destruct (HKAnchoredObjectQuery_execute _ _ _ _) as [w results].
  now destruct (res_error results).
Qed.

Lemma fetchAndSync_unfold (ty : HealthDataType) (sampleType : HKSampleType) (d : Device) :
  hkSampleType ty = Some sampleType ->
  fetchAndSync ty d
  = sync_results ty
      (performAnchoredQuery sampleType (getAnchor ty d)
         (fst (fetch_predicate (getAnchor ty d) d))
         (snd (fetch_predicate (getAnchor ty d) d))).
Proof.
  intros Hty. unfold HealthSync.fetchAndSync. rewrite Hty.
  now destruct (fetch_predicate (getAnchor ty d) d).
Qed.

Lemma getAnchor_frame (ty : HealthDataType) (d d' : Device) :
  userDefaults d' !! (keyPrefix ++ rawValue ty)%string
  = userDefaults d !! (keyPrefix ++ rawValue ty)%string ->
  getAnchor ty d' = getAnchor ty d.
Proof. unfold getAnchor. now intros ->. Qed.

Lemma getAnchor_set_status (e : option string) (ty ty' : HealthDataType) (d : Device) :
  getAnchor ty (set_status_lastError e ty' d) = getAnchor ty d.
Proof. reflexivity. Qed.

(** The upload queue writes last-sync times only: anchors stay. *)
Lemma processQueue_anchor (ty : HealthDataType) (d : Device) :
  getAnchor ty (processQueue d) = getAnchor ty d.
Proof.
  apply getAnchor_frame. unfold HealthSync.processQueue.
  destruct (isProcessingQueue (manager d)); [reflexivity|].
  match goal with
  | |- userDefaults (refreshMaterializedView ?d2) !! _ = _ =>
      destruct (refreshMaterializedView_frame d2) as (-> & _)
  end.
  cbn [userDefaults set_manager].
  match goal with
  | |- userDefaults (drain ?q ?d0) !! _ = _ =>
      destruct (drain_spec q d0) as (_ & _ & _ & _ & _ & lines & _ & _ & _ & _ & _ & Hkeys)
  end.
  rewrite Hkeys; [reflexivity|].
  intros n dt _. apply anchor_key_not_lastSync.
Qed.

Lemma queueBatch_anchor (batch : SyncBatch) (ty ty' : HealthDataType) (d : Device) :
  getAnchor ty (queueBatch batch ty' d) = getAnchor ty d.
Proof.
  unfold HealthSync.queueBatch. cbn [manager set_manager isProcessingQueue].
  destruct (isProcessingQueue (manager d)); cbn [negb]; [reflexivity|].
  now rewrite processQueue_anchor.
Qed.

Lemma syncData_anchor (ty ty' : HealthDataType) (samples : list HKSample)
    (deleted : list string) (d : Device) :
  getAnchor ty (syncData ty' samples deleted d) = getAnchor ty d.
Proof.
  unfold HealthSync.syncData. destruct (managerSet d); cbn [negb]; [|reflexivity].
  destruct (payloads ty' samples) as [allRecords allWorkouts].
  generalize (assemble config ty' allRecords allWorkouts deleted). intros builds.
  revert d. induction builds as [|build builds IH]; intros d; [reflexivity|].
  cbn [fold_left]. rewrite IH. unfold Date_init.
  destruct (Date_now (world d)) as [w now]. now rewrite queueBatch_anchor.
Qed.

(** C1, as the code has it.  The anchor that [fetchAndSync] leaves
    persisted for a type depends on the answer of the anchored query and
    on nothing else: when the query fails, the user defaults, and with
    them the anchor, are the ones from before the call; when the query
    answers without a new anchor, the anchor is the one from before the
    call; and when it answers with a new anchor, the persisted anchor
    after the call is that new anchor, whatever became of the uploads of
    the batches of the fetch. *)
Theorem anchor_persisted_after_query (ty : HealthDataType) (sampleType : HKSampleType)
    (d : Device) :
  hkSampleType ty = Some sampleType ->
  let anchor := getAnchor ty d in
  let answer :=
    performAnchoredQuery sampleType anchor
      (fst (fetch_predicate anchor d)) (snd (fetch_predicate anchor d)) in
  getAnchor ty (fetchAndSync ty d)
  = match snd answer with
    | inr (_, _, Some newAnchor) => Some newAnchor
    | inr (_, _, None) | inl _ => getAnchor ty d
    end
  /\ (forall error, snd answer = inl error ->
                    userDefaults (fetchAndSync ty d) = userDefaults d).
Proof.
  intros Hty anchor answer.
  rewrite (fetchAndSync_unfold _ _ _ Hty). fold anchor. fold answer.
  pose proof (performAnchoredQuery_defaults sampleType anchor
                (fst (fetch_predicate anchor d)) (snd (fetch_predicate anchor d))) as Hframe.
  fold answer in Hframe. rewrite fetch_predicate_defaults in Hframe.
  destruct answer as [d1 [error | [[samples deletedObjects] [newAnchor|]]]];
    cbn [fst snd] in *.
  - split.
    + apply getAnchor_frame. cbn. now rewrite Hframe.
    + intros _ _. cbn. exact Hframe.
  - split; [|discriminate].
    unfold HealthSync.sync_results, getAnchor, set_status_lastError, setAnchor. cbn.
    now rewrite lookup_insert_eq.
  - split; [|discriminate].
    unfold HealthSync.sync_results.
    transitivity (getAnchor ty d1); [|apply getAnchor_frame; now rewrite Hframe].
    rewrite getAnchor_set_status.
    destruct (negb (isEmpty samples) || negb (isEmpty deletedObjects)); [|reflexivity].
    now rewrite syncData_anchor.
Qed.

(** C6.  Provided HealthKit returns only samples that its predicate
    selects: without a stored anchor, the predicate of the delta fetch is
    the one for samples that start (strictly) at or after the date
    [backfillDays] days before now, with no end, and every sample the
    fetch returns starts at or after that date; with a stored anchor the
    fetch has no predicate, and the anchor is all the query gets.  The
    configured window is 30 days. *)
Theorem bounded_initial_fetch (ty : HealthDataType) (sampleType : HKSampleType) (d : Device) :
  (forall ty' p a w w' results,
      HKAnchoredObjectQuery_execute ty' (Some p) a w = (w', results) ->
      Forall (fun s => satisfies p s = true) (default [] (res_samples results))) ->
  hkSampleType ty = Some sampleType ->
  (getAnchor ty d = None ->
   forall now d0, Date_init d = (now, d0) ->
     let window :=
       {| withStart := Calendar_date_byAddingDays (- backfillDays config) now;
          withEnd := None;
          options := [strictStartDate] |} in
     fetch_predicate None d = (Some window, d0)
     /\ fetchAndSync ty d
        = sync_results ty (performAnchoredQuery sampleType None (Some window) d0)
     /\ forall start d1 samples deletedObjects newAnchor,
         withStart window = Some start ->
         performAnchoredQuery sampleType None (Some window) d0
         = (d1, inr (samples, deletedObjects, newAnchor)) ->
         Forall (fun s => PrimFloat.leb start (startDate s) = true) samples)
  /\ (forall anchor, getAnchor ty d = Some anchor ->
        fetch_predicate (Some anchor) d = (None, d)
        /\ fetchAndSync ty d
           = sync_results ty (performAnchoredQuery sampleType (Some anchor) None d))
  /\ (forall device secret, backfillDays (default_config device secret) = 30%Z).
Proof.
  intros Hhonours Hty. split; [|split]; [| |reflexivity].
  - intros Hnone now d0 Hnow window.
    assert (fetch_predicate None d = (Some window, d0)) as Hpred
        by (unfold HealthSync.fetch_predicate; now rewrite Hnow).
    split; [exact Hpred|]. split.
    + rewrite (fetchAndSync_unfold _ _ _ Hty), Hnone, Hpred. reflexivity.
    + intros start d1 samples deletedObjects newAnchor Hstart.
      unfold performAnchoredQuery.
      destruct (HKAnchoredObjectQuery_execute _ _ _ _) as [w results] eqn:Hquery.
      apply Hhonours in Hquery.
      destruct (res_error results); [discriminate|]. intros [= _ <- _ _].
      eapply Forall_impl; [exact Hquery|]. intros s Hs.
      unfold satisfies in Hs. rewrite Hstart in Hs. cbn in Hs.
      now apply andb_prop in Hs as [Hs _].
  - intros anchor Hsome. split; [reflexivity|].
    rewrite (fetchAndSync_unfold _ _ _ Hty), Hsome. reflexivity.
Qed.
End Queue.

(** *** The theorems at work on a concrete device *)

Import DeviceScenario.

Lemma sim_query_honours_predicate (ty : HKSampleType) (p : NSPredicate)
    (a : option HKQueryAnchor) (w w' : SimWorld) (results : QueryResults) :
  sim_query ty (Some p) a w = (w', results) ->
  Forall (fun s => satisfies p s = true) (default [] (res_samples results)).
Proof.
  unfold sim_query. destruct (locked w); intros [= <- <-]; cbn; [constructor|].
  apply Forall_forall. intros s Hin.
  apply list_elem_of_In, filter_In in Hin as [_ Hsel].
  now apply andb_prop in Hsel as [_ Hsel].
Qed.

(** With a batch size of 1,000, 2,500 records make three batches of 1,000,
    1,000 and 500 records. *)
Example two_thousand_five_hundred :
  map (fun build => length <$> records (build 0%float))
    (assemble config heartRate (repeat (reading 61) 2500) [] [])
  = [Some 1000; Some 1000; Some 500].
Proof. vm_compute. reflexivity. Qed.

Lemma batch_assembly_witness :
  0 < batchSize pairs
  /\ five <> []
  /\ exists chunks,
      chunked (batchSize pairs) five chunks
      /\ map (fun build => build 0%float) (assemble pairs heartRate five [] ["u1"])
         = imap (record_batch pairs heartRate ["u1"] 0%float) chunks.
Proof.
  assert (0 < batchSize pairs) as Hpositive by (cbn; lia).
  assert (five <> []) as Hrecords by discriminate.
  split; [exact Hpositive|]. split; [exact Hrecords|].
  exact (proj1 (batch_assembly pairs heartRate five [] ["u1"] 0%float Hpositive) Hrecords).
Defined.

(** Against C7 as stated: no record and one deletion identifier make one
    batch, where [ceil (0 / 1000)] is 0. *)
Lemma deletions_alone_make_a_batch :
  length (assemble config stepCount [] [] ["6F9619FF-8B86-D011-B42D-00CF4FC964FF"])
  <> ceil_div 0 (batchSize config).
Proof. vm_compute. discriminate. Qed.

Lemma failed_batches_dropped_witness :
  isProcessingQueue (manager queued) = false
  /\ pendingBatches (manager queued) = length (uploadQueue (manager queued))
  /\ uploadQueue (manager (processQueue config queued)) = []
  /\ pendingBatches (manager (processQueue config queued)) = 0
  /\ isProcessingQueue (manager (processQueue config queued)) = false.
Proof.
  destruct (failed_batches_dropped config queued eq_refl eq_refl) as (Hq & Hp & Hi & _).
  repeat split; assumption.
Defined.

(** Against C1 as stated: the only upload of the fetch fails, and the
    persisted anchor of the type is no longer the one from before the
    attempt. *)
Lemma anchor_advances_despite_failed_upload :
  lastError (manager (fetchAndSync config heartRate (device offline)))
  = Some "The Internet connection appears to be offline."
  /\ lastSyncTime (manager (fetchAndSync config heartRate (device offline))) = None
  /\ getAnchor heartRate (fetchAndSync config heartRate (device offline))
     <> getAnchor heartRate (device offline).
Proof.
  split; [vm_compute; reflexivity|]. split; [vm_compute; reflexivity|].
  vm_compute. discriminate.
Qed.

Lemma anchor_persisted_witness :
  hkSampleType heartRate = Some (HKQuantityType "HKQuantityTypeIdentifierHeartRate")
  /\ getAnchor heartRate (fetchAndSync config heartRate (device offline))
     = Some (anchor_at 2).
Proof.
  split; [reflexivity|].
  exact (proj1 (anchor_persisted_after_query config heartRate
                  (HKQuantityType "HKQuantityTypeIdentifierHeartRate")
                  (device offline) eq_refl)).
Defined.

(** The store holds a sample from fifty days ago; the first fetch, thirty
    days wide, returns the recent one only. *)
Example older_sample_left_out :
  In (beat 61 5680000) (healthStore offline)
  /\ snd (performAnchoredQuery (HKQuantityType "HKQuantityTypeIdentifierHeartRate") None
            (fst (fetch_predicate config None (device offline)))
            (snd (fetch_predicate config None (device offline))))
     = inr ([beat 72 9999940], [], Some (anchor_at 2)).
Proof. split; [now left | vm_compute; reflexivity]. Qed.

Lemma bounded_initial_fetch_witness :
  getAnchor heartRate (device offline) = None
  /\ Forall (fun s => PrimFloat.leb 7408000 (startDate s) = true) [beat 72 9999940].
Proof.
  split; [reflexivity|].
  destruct (bounded_initial_fetch config heartRate
              (HKQuantityType "HKQuantityTypeIdentifierHeartRate") (device offline)
              sim_query_honours_predicate eq_refl) as (Hwindow & _).
  destruct (Hwindow eq_refl _ _ eq_refl) as (_ & _ & Hsamples).
  eapply Hsamples; vm_compute; reflexivity.
Defined.

End HealthSyncSpec.

(** ** Further properties of the ingestion endpoint *)

Module RouteMore.

Import Route RouteTerms.

Lemma length_append (s t : string) :
  String.length (s ++ t)%string = String.length s + String.length t.
Proof.
  induction s as [|a s IH]; [reflexivity|].
  change (S (String.length (s ++ t)%string) = S (String.length s + String.length t)).
  now rewrite IH.
Qed.

Lemma append_assoc (s t u : string) : (s ++ t ++ u = (s ++ t) ++ u)%string.
Proof.
  induction s as [|a s IH]; [reflexivity|].
  change (String a (s ++ t ++ u)%string = String a ((s ++ t) ++ u)%string).
  now rewrite IH.
Qed.

(** [s.startsWith(p)] splits [s] into [p] and [s.slice(p.length)]. *)
Lemma startsWith_slice (p s : string) :
  Js.startsWith p s = true -> s = (p ++ Js.slice (String.length p) s)%string.
Proof.
  revert s. induction p as [|a p IH]; intros s; [reflexivity|].
  destruct s as [|b s]; [discriminate|]. cbn [Js.startsWith].
  destruct (Ascii.eqb_spec a b) as [<- | _]; [|discriminate].
  intros Hp. change (String a s = String a (p ++ Js.slice (String.length p) s)%string).
  f_equal. now apply IH.
Qed.

Lemma startsWith_app (p s : string) : Js.startsWith p (p ++ s)%string = true.
Proof.
  induction p as [|a p IH]; [reflexivity|].
  change (Js.startsWith (String a p) (String a (p ++ s)%string) = true).
  cbn [Js.startsWith]. now rewrite Ascii.eqb_refl.
Qed.

Lemma slice_app (p s : string) : Js.slice (String.length p) (p ++ s)%string = s.
Proof.
  induction p as [|a p IH]; [reflexivity|].
  change (Js.slice (S (String.length p)) (String a (p ++ s)%string) = s).
  exact IH.
Qed.

Section Handler.

Variable SYNC_API_SECRET : option string.
Variable sha256_hex : string -> string.
Variable number_to_string : float -> string.
Variable json_stringify : list (string * string) -> string.
Variable health_raw_violation : HealthRawRow -> option string.
Variable workouts_violation : WorkoutRow -> option string.

Abbreviation rejected := (rejected SYNC_API_SECRET).
Abbreviation insert_records :=
  (insert_records sha256_hex number_to_string json_stringify
     health_raw_violation workouts_violation).
Abbreviation insert_workouts :=
  (insert_workouts sha256_hex number_to_string json_stringify
     health_raw_violation workouts_violation).
Abbreviation transact :=
  (transact sha256_hex number_to_string json_stringify
     health_raw_violation workouts_violation).
Abbreviation POST :=
  (POST SYNC_API_SECRET sha256_hex number_to_string json_stringify
     health_raw_violation workouts_violation).

Lemma rejected_false_iff (header : option string) :
  rejected header = false
  <-> header = Some ("Bearer " ++ API_SECRET SYNC_API_SECRET)%string.
Proof.
  unfold Route.rejected. split.
  - destruct header as [h|]; [|discriminate]. intros Hok.
    apply orb_false_elim in Hok as [Hprefix Hsecret].
    apply negb_false_iff in Hprefix, Hsecret.
    apply String.eqb_eq in Hsecret.
    rewrite (startsWith_slice _ _ Hprefix). cbn [String.length]. now rewrite Hsecret.
  - intros ->.
    rewrite startsWith_app. change 7 with (String.length "Bearer ").
    now rewrite slice_app, String.eqb_refl.
Qed.

(** X1. The credential check accepts one header only: "Bearer " followed by
    the secret, to the letter.  A missing header, another scheme, another
    case of "Bearer", a second space or a longer token are all rejected. *)
Theorem accepted_header_exact (header : option string) :
  (rejected header = false
   <-> header = Some ("Bearer " ++ API_SECRET SYNC_API_SECRET)%string)
  /\ rejected None = true
  /\ rejected (Some ("bearer " ++ API_SECRET SYNC_API_SECRET)%string) = true
  /\ rejected (Some ("Bearer  " ++ API_SECRET SYNC_API_SECRET)%string) = true
  /\ forall more, more <> "" ->
       rejected (Some ("Bearer " ++ API_SECRET SYNC_API_SECRET ++ more)%string) = true.
Proof.
  split; [apply rejected_false_iff|]. split; [reflexivity|]. split; [reflexivity|].
  split.
  - apply not_false_iff_true. intros Hok. apply rejected_false_iff in Hok.
    injection Hok as Hok. apply (f_equal String.length) in Hok.
    rewrite !length_append in Hok. cbn in Hok. lia.
  - intros more Hmore. apply not_false_iff_true. intros Hok.
    apply rejected_false_iff in Hok. injection Hok as Hok.
    apply (f_equal String.length) in Hok. rewrite !length_append in Hok.
    destruct more; [now destruct Hmore | cbn in Hok; lia].
Qed.

(** X2. The secret is never empty: without [SYNC_API_SECRET], or with an
    empty one, it is "CHANGE_ME", so that the header "Bearer CHANGE_ME" is
    accepted; and the header "Bearer " with an empty token is rejected
    whatever the environment holds. *)
Theorem secret_falls_back :
  API_SECRET SYNC_API_SECRET <> ""
  /\ (SYNC_API_SECRET = None \/ SYNC_API_SECRET = Some "" ->
      API_SECRET SYNC_API_SECRET = "CHANGE_ME"
      /\ rejected (Some "Bearer CHANGE_ME") = false)
  /\ rejected (Some "Bearer ") = true.
Proof.
  assert (API_SECRET SYNC_API_SECRET <> "") as Hne
      by (destruct SYNC_API_SECRET as [[|a e]|]; discriminate).
  split; [exact Hne|]. split.
  - intros Hunset.
    assert (API_SECRET SYNC_API_SECRET = "CHANGE_ME") as Hsecret
        by (destruct Hunset as [-> | ->]; reflexivity).
    split; [exact Hsecret|]. unfold Route.rejected. now rewrite Hsecret.
  - change (negb (String.eqb "" (API_SECRET SYNC_API_SECRET)) = true).
    destruct (String.eqb_spec "" (API_SECRET SYNC_API_SECRET)) as [Heq | _]; [|reflexivity].
    now destruct Hne.
Qed.

(** *** Every request is answered *)

Lemma insert_health_raw_effects (row : HealthRawRow) (s s' : Server) res :
  insert_health_raw health_raw_violation row s = (s', res) -> effects s' = effects s.
Proof.
  unfold insert_health_raw, throw, bind, write, ret, current.
  destruct (health_raw_violation row); [now intros [= <- _]|].
  destruct (transaction s) as [d|];
    destruct (health_raw _ !! record_hash row); now intros [= <- _].
Qed.

Lemma insert_workout_effects (row : WorkoutRow) (s s' : Server) res :
  insert_workout workouts_violation row s = (s', res) -> effects s' = effects s.
Proof.
  unfold insert_workout, throw, bind, write, ret, current.
  destruct (workouts_violation row); [now intros [= <- _]|].
  destruct (transaction s) as [d|];
    destruct (workouts_table _ !! workout_hash row); now intros [= <- _].
Qed.

Lemma insert_records_effects (rs : list HealthRecordPayload) :
  forall c (s s' : Server) res,
    insert_records rs c s = (s', res) ->
    exists new, effects s' = (new ++ effects s)%list /\ connection_events new = [].
Proof.
  induction rs as [|record rest IH]; intros c s s' res.
  - cbn. intros [= <- <-]. now exists [].
  - rewrite RouteSpec.insert_records_step.
    destruct (insert_health_raw _ _ _) as [s1 r1] eqn:Hins.
    apply insert_health_raw_effects in Hins. cbn in Hins.
    destruct r1 as [msg|rowCount].
    + intros [= <- <-]. eexists [_; _]. split; [exact Hins | reflexivity].
    + intros Hrest. apply IH in Hrest as (new & Hnew & Hnone).
      eexists (new ++ [_; _])%list. rewrite <- app_assoc. split.
      * rewrite Hnew, Hins. reflexivity.
      * unfold connection_events in *. now rewrite List.filter_app, Hnone.
Qed.

Lemma insert_workouts_effects (ws : list WorkoutPayload) :
  forall c (s s' : Server) res,
    insert_workouts ws c s = (s', res) ->
    exists new, effects s' = (new ++ effects s)%list /\ connection_events new = [].
Proof.
  induction ws as [|workout rest IH]; intros c s s' res.
  - cbn. intros [= <- <-]. now exists [].
  - rewrite RouteSpec.insert_workouts_step.
    destruct (insert_workout _ _ _) as [s1 r1] eqn:Hins.
    apply insert_workout_effects in Hins. cbn in Hins.
    destruct r1 as [msg|rowCount].
    + intros [= <- <-]. eexists [_; _]. split; [exact Hins | reflexivity].
    + intros Hrest. apply IH in Hrest as (new & Hnew & Hnone).
      eexists (new ++ [_; _])%list. rewrite <- app_assoc. split.
      * rewrite Hnew, Hins. reflexivity.
      * unfold connection_events in *. now rewrite List.filter_app, Hnone.
Qed.

Lemma transact_effects (batch : SyncBatch) (s s' : Server) res :
  transact batch s = (s', res) ->
  (exists new, effects s' = (new ++ effects s)%list /\ connection_events new = [])
  /\ match res with
     | inr response => transaction s' = None /\ status response = 200%Z
     | inl _ => True
     end.
Proof.
  rewrite RouteSpec.transact_unfold.
  destruct (insert_records _ _ _) as [s1 r1] eqn:Hrec.
  apply insert_records_effects in Hrec as (new1 & Hnew1 & Hnone1).
  destruct r1 as [msg|c1].
  { intros [= <- <-]. split; [|done].
    exists (new1 ++ [Query Begin])%list. rewrite <- app_assoc. split; [exact Hnew1|].
    unfold connection_events in *. now rewrite List.filter_app, Hnone1. }
  destruct (insert_workouts _ _ _) as [s2 r2] eqn:Hwk.
  apply insert_workouts_effects in Hwk as (new2 & Hnew2 & Hnone2).
  assert (connection_events (new2 ++ new1 ++ [Query Begin]) = []) as Hnone
      by (unfold connection_events in *; now rewrite !List.filter_app, Hnone1, Hnone2).
  destruct r2 as [msg|c2]; intros [= <- <-].
  - split; [|done]. exists (new2 ++ new1 ++ [Query Begin])%list.
    split; [|exact Hnone]. rewrite Hnew2, Hnew1, <- !app_assoc. reflexivity.
  - split; [|done].
    eexists (_ :: _ :: new2 ++ new1 ++ [Query Begin])%list. split.
    + cbn. rewrite Hnew2, Hnew1, <- !app_assoc. reflexivity.
    + exact Hnone.
Qed.

(** X3. No exception leaves the handler: every request is answered, with
    status 401, 200 or 500.  The handler either takes no connection from
    the pool, and then leaves the tables and the transaction as they were,
    or takes one connection after reading the body and releases it once,
    after its last query, with no transaction left open; only the error
    log of a failed batch comes after the release. *)
Theorem every_request_is_answered (request : Request) (s : Server) :
  exists s' response new,
    POST request s = (s', inr response)
    /\ effects s' = (new ++ effects s)%list
    /\ (status response = 401 \/ status response = 200 \/ status response = 500)%Z
    /\ ((connection_events new = []
         /\ committed s' = committed s /\ transaction s' = transaction s)
        \/ (transaction s' = None
            /\ exists queries,
                connection_events queries = []
                /\ (new = (Release :: queries ++ [PoolConnect; RequestJson])%list
                    \/ exists e, new = (ConsoleError e :: Release :: queries
                                          ++ [PoolConnect; RequestJson])%list))).
Proof.
  destruct (Route.rejected SYNC_API_SECRET (authorization request)) eqn:Hauth.
  { unfold Route.POST. rewrite Hauth. exists s, {| status := 401; body := Unauthorized |}, [].
    repeat split; auto. }
  destruct (json request) as [e|batch] eqn:Hjson.
  { rewrite (RouteSpec.POST_malformed _ _ _ _ _ _ _ _ _ Hauth Hjson).
    eexists _, _, [ConsoleError e; RequestJson]. repeat split; auto. }
  rewrite (RouteSpec.POST_unfold _ _ _ _ _ _ _ _ _ Hauth Hjson).
  destruct (transact batch (connected s)) as [s1 [e|response]] eqn:Htx;
    apply transact_effects in Htx as ((new & Hnew & Hnone) & Hres).
  - eexists _, _, (ConsoleError e :: Release :: Query Rollback :: new
                     ++ [PoolConnect; RequestJson])%list.
    split; [reflexivity|]. split; [cbn; rewrite Hnew, <- app_assoc; reflexivity|].
    split; [auto|]. right. split; [reflexivity|].
    exists (Query Rollback :: new). split; [exact Hnone|]. right. now exists e.
  - destruct Hres as [Hidle Hstatus].
    eexists _, _, (Release :: new ++ [PoolConnect; RequestJson])%list.
    split; [reflexivity|]. split; [cbn; rewrite Hnew, <- app_assoc; reflexivity|].
    split; [auto|]. right. split; [exact Hidle|].
    exists new. split; [exact Hnone|]. now left.
Qed.

(** *** What the answer counts *)

Lemma insert_records_sizes (rs : list HealthRecordPayload) :
  forall c (s s' : Server) d c',
    transaction s = Some d ->
    insert_records rs c s = (s', inr c') ->
    exists d', transaction s' = Some d'
      /\ workouts_table d' = workouts_table d
      /\ size (health_raw d') + insertedRecords c
         = size (health_raw d) + insertedRecords c'
      /\ insertedRecords c' + insertedWorkouts c' + skippedDuplicates c'
         = insertedRecords c + insertedWorkouts c + skippedDuplicates c + length rs
      /\ insertedRecords c <= insertedRecords c'
      /\ insertedWorkouts c' = insertedWorkouts c.
Proof.
  induction rs as [|record rest IH]; intros c s s' d c' Hd.
  - cbn. intros [= <- <-]. exists d. repeat split; auto; lia.
  - rewrite RouteSpec.insert_records_step.
    destruct (insert_health_raw _ _ _) as [s1 r1] eqn:Hins.
    eapply RouteSpec.insert_health_raw_cases in Hins as (_ & _ & Hres); [|exact Hd].
    destruct r1 as [msg|rowCount]; [intros [= _ ?]; discriminate|].
    destruct Hres as (_ & [(-> & _ & Hd1) | (-> & Hfresh & Hd1)]); cbn -[insert_records];
      intros Hrest;
      eapply IH in Hrest as (d' & Hd' & Hw & Hsize & Hsum & Hle & Hiw); try exact Hd1;
      exists d'; cbn in *.
    + repeat split; auto; lia.
    + rewrite map_size_insert_None in Hsize by exact Hfresh.
      repeat split; auto; lia.
Qed.

Lemma insert_workouts_sizes (ws : list WorkoutPayload) :
  forall c (s s' : Server) d c',
    transaction s = Some d ->
    insert_workouts ws c s = (s', inr c') ->
    exists d', transaction s' = Some d'
      /\ health_raw d' = health_raw d
      /\ size (workouts_table d') + insertedWorkouts c
         = size (workouts_table d) + insertedWorkouts c'
      /\ insertedRecords c' + insertedWorkouts c' + skippedDuplicates c'
         = insertedRecords c + insertedWorkouts c + skippedDuplicates c + length ws
      /\ insertedWorkouts c <= insertedWorkouts c'
      /\ insertedRecords c' = insertedRecords c.
Proof.
  induction ws as [|workout rest IH]; intros c s s' d c' Hd.
  - cbn. intros [= <- <-]. exists d. repeat split; auto; lia.
  - rewrite RouteSpec.insert_workouts_step.
    destruct (insert_workout _ _ _) as [s1 r1] eqn:Hins.
    eapply RouteSpec.insert_workout_cases in Hins as (_ & _ & Hres); [|exact Hd].
    destruct r1 as [msg|rowCount]; [intros [= _ ?]; discriminate|].
    destruct Hres as (_ & [(-> & _ & Hd1) | (-> & Hfresh & Hd1)]); cbn -[insert_workouts];
      intros Hrest;
      eapply IH in Hrest as (d' & Hd' & Hw & Hsize & Hsum & Hle & Hiw); try exact Hd1;
      exists d'; cbn in *.
    + repeat split; auto; lia.
    + rewrite map_size_insert_None in Hsize by exact Hfresh.
      repeat split; auto; lia.
Qed.

(** X4. The answer to a stored batch counts what happened: the health
    table grew by exactly [inserted.records] rows and the workout table by
    exactly [inserted.workouts] rows, and the two counts and
    [skippedDuplicates] add up to the number of records and workouts
    sent.  A record sent twice in one batch is counted once as inserted
    and once as a duplicate. *)
Theorem answer_counts_the_new_rows (request : Request) (batch : SyncBatch)
    (s s' : Server) (records workouts duplicates : nat) :
  rejected (authorization request) = false ->
  json request = inr batch ->
  transaction s = None ->
  POST request s = (s', inr {| status := 200; body := Success records workouts duplicates |}) ->
  size (health_raw (committed s')) = size (health_raw (committed s)) + records
  /\ size (workouts_table (committed s')) = size (workouts_table (committed s)) + workouts
  /\ records + workouts + duplicates
     = length (batch_records batch) + length (batch_workouts batch).
Proof.
  intros Hauth Hjson Hidle.
  rewrite (RouteSpec.POST_unfold _ _ _ _ _ _ _ _ _ Hauth Hjson).
  destruct (transact batch (connected s)) as [s1 [e|response]] eqn:Htx; [intros [= _ ?]; discriminate|].
  intros [= <- ->].
  revert Htx. rewrite RouteSpec.transact_unfold.
  destruct (insert_records _ _ _) as [s2 [msg|c1]] eqn:Hrec; [intros [= _ ?]; discriminate|].
  eapply insert_records_sizes in Hrec as (d1 & Hd1 & Hw1 & Hsize1 & Hsum1 & _ & Hiw1);
    [|reflexivity].
  destruct (insert_workouts _ _ _) as [s3 [msg|c2]] eqn:Hwk; [intros [= _ ?]; discriminate|].
  eapply insert_workouts_sizes in Hwk as (d2 & Hd2 & Hh2 & Hsize2 & Hsum2 & _ & Hir2);
    [|exact Hd1].
  intros [= <- <- <- <-].
  unfold ended, released, current. cbn. rewrite Hd2.
  unfold begun, connected, current in Hsize1, Hw1. cbn in Hsize1, Hw1, Hsum1, Hiw1.
  rewrite Hidle in Hsize1, Hw1. rewrite Hh2. rewrite Hw1 in Hsize2. lia.
Qed.

(** *** Hashes that coincide *)

(** X5. The key of a hash joins its fields with "|" and does not escape
    them, and prints a missing value as "undefined": so records that differ
    in the fields of the key can have one hash.  A "|" can move from the
    record type to the source name; a record with neither value nor text
    hashes like a record whose text is "undefined"; and a number hashes
    like the text that prints it.  The same move of a "|" holds for
    workouts. *)
Theorem keys_coincide (record : HealthRecordPayload) (workout : WorkoutPayload)
    (a b c : string) (x : float) :
  let with_names r (ty name : string) :=
    {| recordType := ty; sourceName := name; sourceBundle := sourceBundle r;
       value := value r; valueText := valueText r; r_unit := r_unit r;
       startTime := startTime r; endTime := endTime r; metadata := metadata r |} in
  let with_value r (v : option float) (text : option string) :=
    {| recordType := recordType r; sourceName := sourceName r;
       sourceBundle := sourceBundle r;
       value := v; valueText := text; r_unit := r_unit r;
       startTime := startTime r; endTime := endTime r; metadata := metadata r |} in
  let workout_with_names w (ty name : string) :=
    {| workoutType := ty; w_sourceName := name; w_sourceBundle := w_sourceBundle w;
       w_startTime := w_startTime w; w_endTime := w_endTime w;
       durationSeconds := durationSeconds w; totalDistance := totalDistance w;
       totalEnergyBurned := totalEnergyBurned w; statistics := statistics w;
       w_metadata := w_metadata w |} in
  generateRecordHash sha256_hex number_to_string (with_names record (a ++ "|" ++ b) c)
  = generateRecordHash sha256_hex number_to_string (with_names record a (b ++ "|" ++ c))
  /\ (a ++ "|" ++ b)%string <> a
  /\ generateRecordHash sha256_hex number_to_string (with_value record None None)
     = generateRecordHash sha256_hex number_to_string (with_value record None (Some "undefined"))
  /\ generateRecordHash sha256_hex number_to_string (with_value record (Some x) None)
     = generateRecordHash sha256_hex number_to_string
         (with_value record None (Some (number_to_string x)))
  /\ generateWorkoutHash sha256_hex number_to_string (workout_with_names workout (a ++ "|" ++ b) c)
     = generateWorkoutHash sha256_hex number_to_string
         (workout_with_names workout a (b ++ "|" ++ c)).
Proof.
  cbv zeta. unfold generateRecordHash, generateWorkoutHash, record_key, workout_key. cbn.
  repeat split.
  - f_equal. now rewrite !append_assoc.
  - intros Heq. apply (f_equal String.length) in Heq.
    rewrite !length_append in Heq. cbn in Heq. lia.
  - f_equal. now rewrite !append_assoc.
Qed.

End Handler.

(** *** The refresh endpoint *)

(** X23. The refresh endpoint checks the credential as the ingestion
    endpoint does, and before anything else: a rejected request is
    answered 401 and nothing is done.  An accepted request takes one
    connection, refreshes the view once and releases the connection, also
    when the refresh fails; the answer is 200 with the time between the two
    readings of the clock, or 500 with the error. *)
Theorem refresh_is_guarded_and_released (SYNC_API_SECRET : option string)
    (refresh_view : Z -> option string * Z) (authorization : option string)
    (s : Refresh.Server) :
  let answer := Refresh.POST SYNC_API_SECRET refresh_view authorization s in
  (authorization <> Some ("Bearer " ++ API_SECRET SYNC_API_SECRET)%string ->
   answer = (s, {| Refresh.status := 401; Refresh.body := Refresh.Unauthorized |}))
  /\ (authorization = Some ("Bearer " ++ API_SECRET SYNC_API_SECRET)%string ->
      match fst (refresh_view (Refresh.now s)) with
      | None =>
          Refresh.effects (fst answer)
          = ([Refresh.Release;
              Refresh.ConsoleLog (snd (refresh_view (Refresh.now s)) - Refresh.now s);
              Refresh.DateNow; Refresh.RefreshView; Refresh.DateNow; Refresh.PoolConnect]
               ++ Refresh.effects s)%list
          /\ snd answer
             = {| Refresh.status := 200;
                  Refresh.body :=
                    Refresh.Refreshed (snd (refresh_view (Refresh.now s)) - Refresh.now s) |}
      | Some error =>
          Refresh.effects (fst answer)
          = ([Refresh.ConsoleError error; Refresh.Release; Refresh.RefreshView;
              Refresh.DateNow; Refresh.PoolConnect] ++ Refresh.effects s)%list
          /\ snd answer
             = {| Refresh.status := 500; Refresh.body := Refresh.RefreshFailed error |}
      end).
Proof.
  cbv zeta. unfold Refresh.POST. split.
  - intros Hheader.
    destruct (Route.rejected SYNC_API_SECRET authorization) eqn:Hauth; [reflexivity|].
    apply rejected_false_iff in Hauth. contradiction.
  - intros Hheader. apply rejected_false_iff in Hheader. rewrite Hheader.
    unfold Refresh.query. cbn [Refresh.emit Refresh.now Refresh.effects].
    destruct (refresh_view (Refresh.now s)) as [[error|] after]; cbn; auto.
Qed.

(** *** The theorems at work on concrete requests *)

Import RouteScenario.

Lemma answer_counts_witness :
  size (health_raw (committed (fst (post replayed empty_server))))
  = size (health_raw (committed empty_server)) + 1
  /\ size (workouts_table (committed (fst (post replayed empty_server))))
     = size (workouts_table (committed empty_server)) + 1
  /\ 1 + 1 + 1 = 2 + 1.
Proof.
  apply (answer_counts_the_new_rows secret digest show_number stringify
           record_type_not_empty any_workout replayed
           (batch_of [heart_rate 72 "Watch" None;
                      heart_rate 72 "Watch" (Some [("k", "v")])]
              [walk (Some 0%float) None] ["6F9619FF-8B86-D011-B42D-00CF4FC964FF"])
           empty_server (fst (post replayed empty_server)) 1 1 1);
    [reflexivity | reflexivity | reflexivity | vm_compute; reflexivity].
Defined.

End RouteMore.

(** ** Further properties of the client *)

Module HealthSyncMore.

Import HealthSync HealthSyncTerms.

Local Open Scope nat_scope.

(** *** [Models.swift] *)

Lemma contains_unfold (s sub : string) :
  contains s sub
  = Js.startsWith sub s
    || match s with
       | String _ s' => contains s' sub
       | EmptyString => false
       end.
Proof. destruct s; reflexivity. Qed.

Lemma contains_intro (pre sub post : string) :
  contains (pre ++ sub ++ post)%string sub = true.
Proof.
  induction pre as [|a pre IH].
  - change (contains (sub ++ post)%string sub = true).
    rewrite contains_unfold, RouteMore.startsWith_app. reflexivity.
  - change (contains (String a (pre ++ sub ++ post)%string) sub = true).
    rewrite contains_unfold, IH. apply orb_true_r.
Qed.

Lemma contains_elim (s sub : string) :
  contains s sub = true -> exists pre post, s = (pre ++ sub ++ post)%string.
Proof.
  induction s as [|a s IH]; rewrite contains_unfold; intros Hc;
    apply orb_true_iff in Hc as [Hc | Hc]; try discriminate.
  - exists "", (Js.slice (String.length sub) ""). now apply RouteMore.startsWith_slice.
  - exists "", (Js.slice (String.length sub) (String a s)).
    now apply RouteMore.startsWith_slice.
  - apply IH in Hc as (pre & post & ->). now exists (String a pre), post.
Qed.

Lemma contains_suffix (s p q : string) :
  contains s (p ++ q)%string = true -> contains s q = true.
Proof.
  intros Hc. apply contains_elim in Hc as (pre & post & ->).
  rewrite <- (RouteMore.append_assoc p q post), (RouteMore.append_assoc pre p).
  apply contains_intro.
Qed.

(** X6. A workout is uploaded exactly when the lower-cased name of its
    source contains "watch" and its activity is one of [validTypes]: the
    second entry of [validSources], "apple watch", admits no source that
    "watch" does not. *)
Theorem only_watch_workouts (k : HKWorkout) :
  shouldSync k
  = contains (lowercased (name (k_source k))) "watch"
    && validTypes_contains (workoutActivityType k).
Proof.
  unfold shouldSync. cbn [existsb].
  destruct (contains (lowercased (name (k_source k))) "watch") eqn:Hwatch; [reflexivity|].
  destruct (contains (lowercased (name (k_source k))) "apple watch") eqn:Happle;
    [|reflexivity].
  apply (contains_suffix _ "apple " "watch") in Happle. congruence.
Qed.

(** X7. Of the twenty-five activities that are uploaded, [name] has a case
    for ten; the other fifteen, from core training to golf, are all
    uploaded under the one name "HKWorkoutActivityTypeOther". *)
Theorem unnamed_activities_are_other (a : HKWorkoutActivityType) :
  validTypes_contains a = true ->
  (activity_name a = "HKWorkoutActivityTypeOther" <-> In a unnamed_activities).
Proof.
  intros Hvalid. split.
  - destruct a; cbn; try discriminate; intros _; tauto.
  - cbn. intros Hin.
    repeat (destruct Hin as [<- | Hin]; [reflexivity|]). destruct Hin.
Qed.

Lemma put_stat_lookup (key key' : string) (q : option HKQuantity) (stats : gmap string float) :
  put_stat key q stats !! key'
  = if decide (key = key')
    then match q with
         | Some v => Some (doubleValue v unit_count_per_minute)
         | None => stats !! key'
         end
    else stats !! key'.
Proof.
  unfold put_stat. destruct q as [v|], (decide (key = key')) as [<- | Hne]; try reflexivity.
  - apply lookup_insert_eq.
  - now apply lookup_insert_ne.
Qed.

(** X8. What the server reads from [statistics] is what HealthKit has: each
    of "heartRateAvg", "heartRateMin" and "heartRateMax" is there exactly
    when the workout has that heart-rate quantity, with its value in beats
    per minute; and [statistics] is nil exactly when the workout has none
    of the three. *)
Theorem statistics_as_measured (k : HKWorkout) :
  let per_minute (q : HKQuantity) := doubleValue q unit_count_per_minute in
  let read key := statistics (workout_toPayload k) ≫= (fun stats => stats !! key) in
  read "heartRateAvg" = per_minute <$> (heartRateStatistics k ≫= averageQuantity)
  /\ read "heartRateMin" = per_minute <$> (heartRateStatistics k ≫= minimumQuantity)
  /\ read "heartRateMax" = per_minute <$> (heartRateStatistics k ≫= maximumQuantity)
  /\ (statistics (workout_toPayload k) = None
      <-> heartRateStatistics k ≫= averageQuantity = None
          /\ heartRateStatistics k ≫= minimumQuantity = None
          /\ heartRateStatistics k ≫= maximumQuantity = None).
Proof.
  cbv zeta. unfold workout_toPayload. cbn [statistics].
  destruct (heartRateStatistics k) as [[avg mn mx]|]; cbn [mbind option_bind
    averageQuantity minimumQuantity maximumQuantity].
  2: { rewrite decide_True by reflexivity. cbn. tauto. }
  set (stats := put_stat "heartRateMax" mx _).
  assert (stats !! "heartRateAvg" = (fun q => doubleValue q unit_count_per_minute) <$> avg
          /\ stats !! "heartRateMin" = (fun q => doubleValue q unit_count_per_minute) <$> mn
          /\ stats !! "heartRateMax" = (fun q => doubleValue q unit_count_per_minute) <$> mx)
    as (Havg & Hmin & Hmax).
  { subst stats. rewrite !put_stat_lookup.
    repeat match goal with
           | |- context [decide (?a = ?b)] =>
               destruct (decide (a = b)) as [Heq | Hne];
               [try (cbv in Heq; discriminate Heq) | try (now destruct Hne)]
           end.
    rewrite !lookup_empty. destruct avg, mn, mx; auto. }
  destruct (decide (stats = ∅)) as [Hempty | Hsome].
  - rewrite Hempty, !lookup_empty in Havg, Hmin, Hmax.
    cbn. destruct avg, mn, mx; try discriminate. tauto.
  - cbn [mbind option_bind]. repeat split; auto; try discriminate.
    intros (-> & -> & ->). now destruct Hsome.
Qed.

(** *** [AnchorStore.swift] *)

Lemma anchor_key_inj (a b : string) :
  (keyPrefix ++ a)%string = (keyPrefix ++ b)%string -> a = b.
Proof. intros Heq. cbv in Heq. now injection Heq. Qed.

Section Store.

Context `{Platform}.

Lemma clearAnchors_lookup (types : list HealthDataType) (key : string) :
  forall d : Device,
    userDefaults (fold_left (fun d ty => clearAnchor ty d) types d) !! key
    = if existsb (fun ty => String.eqb key (keyPrefix ++ rawValue ty)) types
      then None else userDefaults d !! key.
Proof.
  induction types as [|ty types IH]; intros d; [reflexivity|].
  cbn [fold_left existsb]. rewrite IH. unfold clearAnchor. cbn [userDefaults set_userDefaults].
  destruct (existsb _ types); [now rewrite orb_true_r|]. rewrite orb_false_r.
  destruct (String.eqb_spec key (keyPrefix ++ rawValue ty)) as [-> | Hne].
  - apply lookup_delete_eq.
  - apply lookup_delete_ne. congruence.
Qed.

Lemma getAnchor_setAnchor (anchor : option HKQueryAnchor) (ty : HealthDataType) (d : Device) :
  getAnchor ty (setAnchor anchor ty d) = anchor.
Proof.
  unfold getAnchor, setAnchor. destruct anchor as [a|]; cbn [userDefaults set_userDefaults].
  - now rewrite lookup_insert_eq.
  - now rewrite lookup_delete_eq.
Qed.

Lemma getAnchor_setAnchor_other (anchor : option HKQueryAnchor) (ty ty' : HealthDataType)
    (d : Device) :
  ty' <> ty -> getAnchor ty' (setAnchor anchor ty d) = getAnchor ty' d.
Proof.
  intros Hne. apply HealthSyncSpec.getAnchor_frame.
  assert ((keyPrefix ++ rawValue ty)%string <> (keyPrefix ++ rawValue ty')%string) as Hkey
      by (intros Heq; apply anchor_key_inj, HealthSyncSpec.rawValue_inj in Heq; congruence).
  unfold setAnchor. destruct anchor as [a|]; cbn [userDefaults set_userDefaults].
  - now apply lookup_insert_ne.
  - now apply lookup_delete_ne.
Qed.

(** X9. The store keeps one cursor per type.  [getAnchor] after [setAnchor]
    is the anchor that was set, nil after setting nil, which is what
    [clearAnchor] does; the cursors of the other types and the last-sync
    times of all types are as before. *)
Theorem anchor_read_back (anchor : option HKQueryAnchor) (ty : HealthDataType) (d : Device) :
  getAnchor ty (setAnchor anchor ty d) = anchor
  /\ setAnchor None ty d = clearAnchor ty d
  /\ (forall ty', ty' <> ty -> getAnchor ty' (setAnchor anchor ty d) = getAnchor ty' d)
  /\ (forall ty', getLastSyncTime ty' (setAnchor anchor ty d) = getLastSyncTime ty' d).
Proof.
  split; [apply getAnchor_setAnchor|]. split; [reflexivity|].
  split; [intros ty'; apply getAnchor_setAnchor_other|].
  intros ty'. apply HealthSyncSpec.getLastSyncTime_frame.
  pose proof (HealthSyncSpec.anchor_key_not_lastSync (rawValue ty) (rawValue ty')) as Hkey.
  unfold setAnchor. destruct anchor as [a|]; cbn [userDefaults set_userDefaults].
  - now apply lookup_insert_ne.
  - now apply lookup_delete_ne.
Qed.

(** X10. [clearAllAnchors] leaves no type with a cursor, and every
    last-sync time as it was. *)
Theorem no_anchor_left (ty : HealthDataType) (d : Device) :
  getAnchor ty (clearAllAnchors d) = None
  /\ getLastSyncTime ty (clearAllAnchors d) = getLastSyncTime ty d.
Proof.
  split.
  - unfold getAnchor, clearAllAnchors. rewrite clearAnchors_lookup.
    replace (existsb _ allCases) with true; [reflexivity|].
    symmetry. apply existsb_exists. exists ty. split; [|apply String.eqb_refl].
    destruct ty; cbn; tauto.
  - apply HealthSyncSpec.getLastSyncTime_frame. unfold clearAllAnchors.
    rewrite clearAnchors_lookup.
    replace (existsb _ allCases) with false; [reflexivity|].
    symmetry. apply not_true_iff_false. intros Hex.
    apply existsb_exists in Hex as (ty' & _ & Heq). apply String.eqb_eq in Heq.
    symmetry in Heq. now apply HealthSyncSpec.anchor_key_not_lastSync in Heq.
Qed.

(** X11. A last-sync time is read back only when it lies after 1970: the
    store keeps the seconds since 1970 and reads 0, or less, or a number
    that is none, as never synced.  The times of the other types and the
    cursors of all types are as before. *)
Theorem last_sync_read_back (date : Date) (ty : HealthDataType) (d : Device) :
  getLastSyncTime ty (setLastSyncTime date ty d)
  = (if PrimFloat.ltb 0 date then Some date else None)
  /\ (forall ty', ty' <> ty ->
        getLastSyncTime ty' (setLastSyncTime date ty d) = getLastSyncTime ty' d)
  /\ (forall ty', getAnchor ty' (setLastSyncTime date ty d) = getAnchor ty' d).
Proof.
  split; [|split].
  - unfold getLastSyncTime, setLastSyncTime. cbn [userDefaults set_userDefaults].
    now rewrite lookup_insert_eq.
  - intros ty' Hne. apply HealthSyncSpec.getLastSyncTime_frame.
    unfold setLastSyncTime. cbn [userDefaults set_userDefaults].
    apply lookup_insert_ne. intros Heq.
    apply HealthSyncSpec.lastSync_key_inj, HealthSyncSpec.rawValue_inj in Heq. congruence.
  - intros ty'. apply HealthSyncSpec.getAnchor_frame.
    unfold setLastSyncTime. cbn [userDefaults set_userDefaults].
    apply lookup_insert_ne. intros Heq. symmetry in Heq.
    now apply HealthSyncSpec.anchor_key_not_lastSync in Heq.
Qed.

End Store.

(** *** [SyncManager.swift] *)

Section Manager.

Context `{Platform}.
Variable config : SyncConfig.


Lemma processQueue_keeps (d : Device) :
  managerSet (processQueue config d) = managerSet d
  /\ typeStatuses (processQueue config d) = typeStatuses d.
Proof.
  unfold processQueue. destruct (isProcessingQueue (manager d)); [done|].
  match goal with
  | |- context [refreshMaterializedView config ?d2] =>
      destruct (HealthSyncSpec.refreshMaterializedView_frame config d2)
        as (_ & _ & -> & -> & _)
  end.
  cbn [managerSet typeStatuses set_manager].
  match goal with
  | |- context [drain config ?q ?d0] =>
      destruct (HealthSyncSpec.drain_spec config q d0) as (-> & -> & _)
  end.
  done.
Qed.

Lemma processQueue_idle (d : Device) :
  isProcessingQueue (manager d) = false ->
  uploadQueue (manager d) <> [] ->
  idle (manager (processQueue config d)).
Proof.
  intros Hfree Hqueue. unfold processQueue. rewrite Hfree.
  match goal with
  | |- context [refreshMaterializedView config ?d2] =>
      destruct (HealthSyncSpec.refreshMaterializedView_frame config d2) as (_ & -> & _)
  end.
  cbn [manager set_manager uploadQueue].
  match goal with
  | |- context [drain config ?q ?d0] =>
      destruct (HealthSyncSpec.drain_spec config q d0) as (_ & _ & _ & _ & Hempty & _)
  end.
  destruct (Hempty Hqueue) as [Hq Hp]. unfold idle. cbn. auto.
Qed.

Lemma queueBatch_idle (batch : SyncBatch) (ty : HealthDataType) (d : Device) :
  isProcessingQueue (manager d) = false ->
  idle (manager (queueBatch config batch ty d)).
Proof.
  intros Hfree. unfold queueBatch. cbn [manager set_manager isProcessingQueue].
  rewrite Hfree. cbn [negb]. apply processQueue_idle; cbn; [reflexivity|].
  now destruct (uploadQueue (manager d)).
Qed.

Lemma queueBatch_keeps (batch : SyncBatch) (ty : HealthDataType) (d : Device) :
  managerSet (queueBatch config batch ty d) = managerSet d
  /\ typeStatuses (queueBatch config batch ty d) = typeStatuses d.
Proof.
  unfold queueBatch. cbn [manager set_manager isProcessingQueue].
  destruct (isProcessingQueue (manager d)); cbn [negb]; [done|].
  match goal with
  | |- context [processQueue config ?d1] => destruct (processQueue_keeps d1) as [-> ->]
  end.
  done.
Qed.

Lemma syncData_idle (ty : HealthDataType) (samples : list HKSample) (deleted : list string)
    (d : Device) :
  idle (manager d) -> idle (manager (syncData config ty samples deleted d)).
Proof.
  unfold syncData. destruct (managerSet d); cbn [negb]; [|done].
  destruct (payloads ty samples) as [allRecords allWorkouts].
  generalize (assemble config ty allRecords allWorkouts deleted). intros builds.
  revert d. induction builds as [|build builds IH]; intros d Hidle; [exact Hidle|].
  cbn [fold_left]. apply IH. unfold Date_init.
  destruct (Date_now (world d)) as [w now]. apply queueBatch_idle. apply Hidle.
Qed.

Lemma syncData_keeps (ty : HealthDataType) (samples : list HKSample) (deleted : list string)
    (d : Device) :
  managerSet (syncData config ty samples deleted d) = managerSet d
  /\ typeStatuses (syncData config ty samples deleted d) = typeStatuses d.
Proof.
  unfold syncData. destruct (managerSet d) eqn:Hset; cbn [negb]; [|done].
  destruct (payloads ty samples) as [allRecords allWorkouts].
  generalize (assemble config ty allRecords allWorkouts deleted). intros builds.
  rewrite <- Hset. clear Hset.
  revert d. induction builds as [|build builds IH]; intros d; [done|].
  cbn [fold_left]. destruct (IH (let (now, d0) := Date_init d in
                                 queueBatch config (build now) ty d0)) as [-> ->].
  unfold Date_init. destruct (Date_now (world d)) as [w now].
  destruct (queueBatch_keeps (build now) ty (set_world w d)) as [-> ->]. done.
Qed.

Lemma uploadBatch_console (batch : SyncBatch) (d d' : Device) res :
  uploadBatch config batch d = (d', res) ->
  console d' = match res with
               | inr _ => print_uploaded (recordCount batch) (dataType batch) :: console d
               | inl _ => console d
               end.
Proof.
  unfold uploadBatch.
  destruct (URL_string (serverURL config)) as [address|]; [|now intros [= <- <-]].
  destruct (JSONEncoder_encode batch) as [e|body]; [now intros [= <- <-]|].
  destruct (URLSession_data _ (world d)) as [w [e|[data [statusCode|]]]];
    [now intros [= <- <-] | | now intros [= <- <-]].
  destruct (negb _); now intros [= <- <-].
Qed.

Lemma process_batch_line (batch : SyncBatch) (d : Device) :
  exists line,
    console (process_batch config batch d) = line :: console d /\ upload_line_of batch line.
Proof.
  unfold process_batch.
  destruct (uploadBatch config batch d) as [d1 [error|[]]] eqn:Hup;
    apply uploadBatch_console in Hup.
  - exists (print_upload_failed error). cbn. rewrite Hup. split; [reflexivity|].
    right. now exists error.
  - exists (print_uploaded (recordCount batch) (dataType batch)). split; [|now left].
    rewrite <- Hup. unfold Date_init.
    destruct (ofRawValue (dataType batch)) as [ty|].
    + destruct (Date_now (world d1)) as [w1 now1]. cbn [setLastSyncTime set_userDefaults
        set_world world]. destruct (Date_now w1) as [w2 now2]. reflexivity.
    + destruct (Date_now (world d1)) as [w1 now1]. reflexivity.
Qed.

Lemma drain_lines (queue : list SyncBatch) :
  forall d : Device,
    exists lines,
      console (drain config queue d) = (lines ++ console d)%list
      /\ Forall2 upload_line_of queue (rev lines).
Proof.
  induction queue as [|batch rest IH]; intros d.
  - exists []. split; [reflexivity | constructor].
  - cbn [drain].
    match goal with
    | |- context [process_batch config batch ?d1] =>
        destruct (process_batch_line batch d1) as (line & Hline & Hof);
        destruct (IH (process_batch config batch d1)) as (lines & Hlines & Hall)
    end.
    exists (lines ++ [line])%list. split.
    + rewrite Hlines, Hline, <- app_assoc. reflexivity.
    + rewrite rev_app_distr. cbn. now constructor.
Qed.

(** X21. The queue is uploaded in the order it was filled, one attempt per
    batch: under the lines of the refresh, the console has for each batch
    of the queue, first to last, either the line of its upload, with its
    number of records and its data type, or the line of a failure. *)
Theorem uploads_in_queue_order (d : Device) :
  isProcessingQueue (manager d) = false ->
  exists after lines,
    console (processQueue config d) = (after ++ lines ++ console d)%list
    /\ Forall (fun l => is_uploaded l = false /\ is_upload_failed l = false) after
    /\ Forall2 upload_line_of (uploadQueue (manager d)) (rev lines).
Proof.
  intros Hfree. unfold processQueue. rewrite Hfree.
  match goal with
  | |- context [refreshMaterializedView config ?d2] =>
      destruct (HealthSyncSpec.refreshMaterializedView_frame config d2)
        as (_ & _ & _ & _ & after & Hafter & Hquiet)
  end.
  cbn [console set_manager] in Hafter.
  match type of Hafter with
  | context [drain config ?q ?d0] => destruct (drain_lines q d0) as (lines & Hlines & Hall)
  end.
  exists after, lines. split; [|split; [exact Hquiet | exact Hall]].
  rewrite Hafter, Hlines. reflexivity.
Qed.

Lemma rawValue_ofRawValue (ty : HealthDataType) : ofRawValue (rawValue ty) = Some ty.
Proof. destruct ty; reflexivity. Qed.

(** X24. An upload that succeeds stamps its type: every batch that
    [syncData] builds for a type carries the raw value of the type, and
    when the upload of such a batch succeeds the last-sync time of the type
    is the time read after the upload (read back as never synced should
    the clock stand at or before 1970), [lastSyncTime] of the manager is
    the time read next, and [lastError] is nil. *)
Theorem upload_stamps_its_type (ty : HealthDataType) (batch : SyncBatch) (d d1 : Device) :
  dataType batch = rawValue ty ->
  uploadBatch config batch d = (d1, inr ()) ->
  getLastSyncTime ty (process_batch config batch d)
  = (if PrimFloat.ltb 0 (fst (Date_init d1)) then Some (fst (Date_init d1)) else None)
  /\ lastSyncTime (manager (process_batch config batch d))
     = Some (fst (Date_init (snd (Date_init d1))))
  /\ lastError (manager (process_batch config batch d)) = None
  /\ forall allRecords allWorkouts deleted build now,
      In build (assemble config ty allRecords allWorkouts deleted) ->
      dataType (build now) = rawValue ty.
Proof.
  intros Hty Hup. unfold process_batch. rewrite Hup, Hty, rawValue_ofRawValue.
  unfold Date_init. destruct (Date_now (world d1)) as [w1 now1].
  cbn [fst snd world set_world setLastSyncTime set_userDefaults].
  destruct (Date_now w1) as [w2 now2].
  split; [|split; [reflexivity|split; [reflexivity|]]].
  - unfold getLastSyncTime, setLastSyncTime.
    cbn [userDefaults set_manager set_world set_userDefaults].
    now rewrite lookup_insert_eq.
  - intros allRecords allWorkouts deleted build now Hin. unfold assemble in Hin.
    destruct (negb (isEmpty allRecords));
      [apply in_map_iff in Hin as (i & <- & _); reflexivity|].
    destruct (negb (isEmpty allWorkouts));
      [apply in_map_iff in Hin as (i & <- & _); reflexivity|].
    destruct (negb (isEmpty deleted)); [|destruct Hin].
    destruct Hin as [<- | []]. reflexivity.
Qed.

(** X22. The refresh of the materialized view reports nothing to the app:
    the manager, with its [lastError], the user defaults and the statuses
    are as before, whatever the answer; and an answer of the server
    outside 200...299 is not even printed. *)
Theorem refresh_reports_nothing (d : Device) :
  manager (refreshMaterializedView config d) = manager d
  /\ userDefaults (refreshMaterializedView config d) = userDefaults d
  /\ typeStatuses (refreshMaterializedView config d) = typeStatuses d
  /\ forall address w data statusCode,
      URL_string (refreshURL config) = Some address ->
      URLSession_data (bearer_request config address [] None) (world d)
      = (w, inr (data, HTTPURLResponse statusCode)) ->
      (statusCode < 200 \/ 299 < statusCode)%Z ->
      console (refreshMaterializedView config d) = console d.
Proof.
  destruct (HealthSyncSpec.refreshMaterializedView_frame config d) as (Hu & Hm & _ & Ht & _).
  split; [exact Hm|]. split; [exact Hu|]. split; [exact Ht|].
  intros address w data statusCode Haddress Hanswer Hcode.
  unfold refreshMaterializedView. rewrite Haddress, Hanswer.
  replace ((200 <=? statusCode)%Z && (statusCode <=? 299)%Z) with false; [reflexivity|].
  symmetry. apply andb_false_iff. rewrite !Z.leb_gt. lia.
Qed.

End Manager.

(** *** [HealthKitManager.swift] *)

Lemma hkSampleType_total (ty : HealthDataType) : exists sampleType, hkSampleType ty = Some sampleType.
Proof. destruct ty; eexists; reflexivity. Qed.

Lemma only_errors_differ_refl (t : gmap string TypeSyncStatus) : only_errors_differ t t.
Proof. now intros key. Qed.

Lemma only_errors_differ_trans (t1 t2 t3 : gmap string TypeSyncStatus) :
  only_errors_differ t1 t2 -> only_errors_differ t2 t3 -> only_errors_differ t1 t3.
Proof. intros H12 H23 key. now rewrite H23, H12. Qed.

Section Fetch.

Context `{Platform}.
Variable config : SyncConfig.

Lemma set_status_only_error (e : option string) (ty : HealthDataType) (d : Device) :
  only_errors_differ (typeStatuses d) (typeStatuses (set_status_lastError e ty d)).
Proof.
  intros key. unfold set_status_lastError. cbn [typeStatuses set_typeStatuses].
  destruct (decide (rawValue ty = key)) as [<- | Hne].
  - rewrite lookup_alter_eq. now destruct (typeStatuses d !! rawValue ty).
  - now rewrite lookup_alter_ne.
Qed.

Lemma set_status_lookup (e : option string) (ty ty' : HealthDataType) (d : Device) :
  ts_lastError <$> typeStatuses (set_status_lastError e ty d) !! rawValue ty'
  = if decide (ty' = ty) then (fun _ => e) <$> typeStatuses d !! rawValue ty'
    else ts_lastError <$> typeStatuses d !! rawValue ty'.
Proof.
  unfold set_status_lastError. cbn [typeStatuses set_typeStatuses].
  destruct (decide (ty' = ty)) as [-> | Hne].
  - rewrite lookup_alter_eq. now destruct (typeStatuses d !! rawValue ty).
  - rewrite lookup_alter_ne; [reflexivity|].
    intros Heq. apply HealthSyncSpec.rawValue_inj in Heq. congruence.
Qed.

Lemma Date_init_world (d : Device) : exists w, snd (Date_init d) = set_world w d.
Proof. unfold Date_init. destruct (Date_now (world d)) as [w now]. now exists w. Qed.

Lemma fetch_predicate_world (anchor : option HKQueryAnchor) (d : Device) :
  exists w, snd (fetch_predicate config anchor d) = set_world w d.
Proof.
  unfold fetch_predicate. destruct anchor as [a|].
  - exists (world d). now destruct d.
  - unfold Date_init. destruct (Date_now (world d)) as [w now]. now exists w.
Qed.

Lemma performAnchoredQuery_world (sampleType : HKSampleType) (anchor : option HKQueryAnchor)
    (predicate : option NSPredicate) (d : Device) :
  exists w, fst (performAnchoredQuery sampleType anchor predicate d) = set_world w d.
Proof.
  unfold performAnchoredQuery.
  destruct (HKAnchoredObjectQuery_execute _ _ _ _) as [w results]. exists w.
  now destruct (res_error results).
Qed.

(** What [sync_results] does to the manager, the statuses and the cursor. *)
Lemma sync_results_spec (ty : HealthDataType) (d : Device)
    (answer : Error + list HKSample * list HKDeletedObject * option HKQueryAnchor) :
  let d' := sync_results config ty (d, answer) in
  (idle (manager d) -> idle (manager d'))
  /\ managerSet d' = managerSet d
  /\ typeStatuses d' = typeStatuses (set_status_lastError (query_error answer) ty d)
  /\ (managerSet d = false ->
      manager d' = manager d
      /\ userDefaults d'
         = userDefaults (match answer with
                         | inr (_, _, Some newAnchor) => setAnchor (Some newAnchor) ty d
                         | _ => d
                         end)
      /\ console d'
         = match answer with
           | inr (samples, deletedObjects, _) =>
               if negb (isEmpty samples) || negb (isEmpty deletedObjects)
               then print_delta (displayName ty) (length samples) (length deletedObjects)
                      :: console d
               else console d
           | inl error => print_query_failed (displayName ty) error :: console d
           end).
Proof.
  cbv zeta. unfold sync_results.
  destruct answer as [error | [[samples deletedObjects] newAnchor]]; [cbn; tauto|].
  cbn [query_error].
  set (d1 := if negb (isEmpty samples) || negb (isEmpty deletedObjects)
             then syncData config ty samples (map uuidString deletedObjects)
                    (print (print_delta (displayName ty) (length samples)
                              (length deletedObjects)) d)
             else d).
  assert ((idle (manager d) -> idle (manager d1))
          /\ managerSet d1 = managerSet d /\ typeStatuses d1 = typeStatuses d) as (Hidle & Hset & Hst).
  { subst d1. destruct (negb (isEmpty samples) || negb (isEmpty deletedObjects)); [|done].
    match goal with
    | |- context [syncData config ty ?l ?del ?d0] =>
        destruct (syncData_keeps config ty l del d0) as [-> ->];
        pose proof (syncData_idle config ty l del d0) as Hidle
    end.
    split; [exact Hidle | done]. }
  assert (managerSet d = false ->
          d1 = if negb (isEmpty samples) || negb (isEmpty deletedObjects)
               then print (print_delta (displayName ty) (length samples)
                             (length deletedObjects)) d
               else d) as Hoff.
  { intros Hunset. subst d1.
    destruct (negb (isEmpty samples) || negb (isEmpty deletedObjects)); [|reflexivity].
    unfold syncData. cbn [managerSet print]. now rewrite Hunset. }
  destruct newAnchor as [newAnchor|]; cbn [manager managerSet typeStatuses userDefaults
    console set_status_lastError set_typeStatuses setAnchor set_userDefaults];
    (split; [exact Hidle|]); (split; [exact Hset|]); (split; [now rewrite Hst|]);
    intros Hunset; rewrite (Hoff Hunset);
    destruct (negb (isEmpty samples) || negb (isEmpty deletedObjects)); done.
Qed.

Lemma fetchAndSync_spec (ty : HealthDataType) (d : Device) :
  exists sampleType w answer,
    hkSampleType ty = Some sampleType
    /\ performAnchoredQuery sampleType (getAnchor ty d)
         (fst (fetch_predicate config (getAnchor ty d) d))
         (snd (fetch_predicate config (getAnchor ty d) d))
       = (set_world w d, answer)
    /\ fetchAndSync config ty d = sync_results config ty (set_world w d, answer).
Proof.
  destruct (hkSampleType_total ty) as [sampleType Hty]. exists sampleType.
  rewrite (HealthSyncSpec.fetchAndSync_unfold config ty sampleType d Hty).
  destruct (fetch_predicate_world (getAnchor ty d) d) as [w0 Hw0].
  destruct (performAnchoredQuery_world sampleType (getAnchor ty d)
              (fst (fetch_predicate config (getAnchor ty d) d))
              (snd (fetch_predicate config (getAnchor ty d) d))) as [w Hw].
  destruct (performAnchoredQuery _ _ _ _) as [d1 answer]. cbn [fst] in Hw.
  exists w, answer. rewrite Hw, Hw0. cbn. auto.
Qed.

Lemma fetchAndSync_idle (ty : HealthDataType) (d : Device) :
  idle (manager d) -> idle (manager (fetchAndSync config ty d)).
Proof.
  destruct (fetchAndSync_spec ty d) as (sampleType & w & answer & _ & _ & ->).
  apply (sync_results_spec ty (set_world w d) answer).
Qed.

Lemma fetchAndSync_statuses (ty : HealthDataType) (d : Device) :
  only_errors_differ (typeStatuses d) (typeStatuses (fetchAndSync config ty d)).
Proof.
  destruct (fetchAndSync_spec ty d) as (sampleType & w & answer & _ & _ & ->).
  destruct (sync_results_spec ty (set_world w d) answer) as (_ & _ & -> & _).
  apply (set_status_only_error _ ty (set_world w d)).
Qed.

Lemma syncAll_idle (d : Device) : idle (manager d) -> idle (manager (syncAll config d)).
Proof.
  unfold syncAll. generalize allCases. intros types. revert d.
  induction types as [|ty types IH]; intros d Hidle; [exact Hidle|].
  cbn [fold_left]. now apply IH, fetchAndSync_idle.
Qed.

Lemma syncAll_statuses (d : Device) :
  only_errors_differ (typeStatuses d) (typeStatuses (syncAll config d)).
Proof.
  unfold syncAll. generalize allCases. intros types. revert d.
  induction types as [|ty types IH]; intros d; [apply only_errors_differ_refl|].
  cbn [fold_left].
  eapply only_errors_differ_trans; [apply (fetchAndSync_statuses ty)|apply IH].
Qed.

(** X13. The status of a type shows what became of the query, not of the
    uploads: after [fetchAndSync] its error is nil when the query answered,
    whether or not the batches of the fetch were uploaded, and the
    description of the error when the query failed.  The errors of the
    other types are as before. *)
Theorem status_shows_the_query (ty : HealthDataType) (sampleType : HKSampleType) (d : Device) :
  hkSampleType ty = Some sampleType ->
  let anchor := getAnchor ty d in
  let answer :=
    performAnchoredQuery sampleType anchor
      (fst (fetch_predicate config anchor d)) (snd (fetch_predicate config anchor d)) in
  ts_lastError <$> typeStatuses (fetchAndSync config ty d) !! rawValue ty
  = (fun _ => query_error (snd answer)) <$> typeStatuses d !! rawValue ty
  /\ (forall ty', ty' <> ty ->
        ts_lastError <$> typeStatuses (fetchAndSync config ty d) !! rawValue ty'
        = ts_lastError <$> typeStatuses d !! rawValue ty').
Proof.
  intros Hty. cbv zeta.
  destruct (fetchAndSync_spec ty d) as (sampleType' & w & answer & Hty' & Hanswer & ->).
  assert (sampleType' = sampleType) as -> by congruence.
  rewrite Hanswer. cbn [snd].
  destruct (sync_results_spec ty (set_world w d) answer) as (_ & _ & -> & _).
  split.
  - rewrite set_status_lookup, decide_True by reflexivity. reflexivity.
  - intros ty' Hne. rewrite set_status_lookup, decide_False by exact Hne. reflexivity.
Qed.

(** X14. Without a sync manager ([setSyncManager] not yet called), a delta
    fetch that answers with a new anchor stores the anchor all the same:
    the samples of the fetch are not queued, the manager is as before, the
    console has the line of the fetch and no line of an upload, and the
    next fetch starts after these samples. *)
Theorem fetch_without_manager (ty : HealthDataType) (sampleType : HKSampleType) (d d1 : Device)
    (samples : list HKSample) (deletedObjects : list HKDeletedObject)
    (newAnchor : HKQueryAnchor) :
  managerSet d = false ->
  hkSampleType ty = Some sampleType ->
  performAnchoredQuery sampleType (getAnchor ty d)
    (fst (fetch_predicate config (getAnchor ty d) d))
    (snd (fetch_predicate config (getAnchor ty d) d))
  = (d1, inr (samples, deletedObjects, Some newAnchor)) ->
  getAnchor ty (fetchAndSync config ty d) = Some newAnchor
  /\ manager (fetchAndSync config ty d) = manager d
  /\ (forall ty', getLastSyncTime ty' (fetchAndSync config ty d) = getLastSyncTime ty' d)
  /\ console (fetchAndSync config ty d)
     = if negb (isEmpty samples) || negb (isEmpty deletedObjects)
       then print_delta (displayName ty) (length samples) (length deletedObjects) :: console d
       else console d.
Proof.
  intros Hunset Hty Hquery.
  destruct (fetchAndSync_spec ty d) as (sampleType' & w & answer & Hty' & Hanswer & ->).
  assert (sampleType' = sampleType) as -> by congruence.
  rewrite Hquery in Hanswer. injection Hanswer as -> <-.
  destruct (sync_results_spec ty (set_world w d) (inr (samples, deletedObjects, Some newAnchor)))
    as (_ & _ & _ & Hoff).
  destruct (Hoff Hunset) as (Hm & Hu & Hc).
  cbn [setAnchor set_userDefaults userDefaults set_world manager console] in Hm, Hu, Hc.
  split; [|split; [|split]].
  - unfold getAnchor. rewrite Hu. now rewrite lookup_insert_eq.
  - exact Hm.
  - intros ty'. apply HealthSyncSpec.getLastSyncTime_frame. rewrite Hu.
    apply lookup_insert_ne. apply HealthSyncSpec.anchor_key_not_lastSync.
  - exact Hc.
Qed.

(** X15. A fetch of workouts that finds none to upload, because they come
    from a source that is not a watch or have an activity outside
    [validTypes], and no deletion, queues nothing: the device is as
    before. *)
Theorem junk_workouts_are_dropped (samples : list HKSample) (d : Device) :
  Forall (fun s => left_out s = true) samples ->
  payloads workout samples = ([], [])
  /\ syncData config workout samples [] d = d.
Proof.
  intros Hjunk.
  assert (payloads workout samples = ([], [])) as Hnone.
  { unfold payloads. f_equal. induction Hjunk as [|s rest Hs _ IH]; [reflexivity|].
    cbn [omap list_omap]. destruct s as [q|c|k]; cbn in *; [exact IH | exact IH |].
    apply negb_true_iff in Hs. now rewrite Hs. }
  split; [exact Hnone|]. unfold syncData. rewrite Hnone.
  destruct (managerSet d); reflexivity.
Qed.

(** X16. Should the calendar have no date [backfillDays] days before now,
    the first fetch is not bounded: its predicate has neither start nor
    end and selects every sample. *)
Theorem window_needs_the_calendar (d d0 : Device) (now : Date) :
  Date_init d = (now, d0) ->
  Calendar_date_byAddingDays (- backfillDays config) now = None ->
  exists predicate,
    fetch_predicate config None d = (Some predicate, d0)
    /\ forall s, satisfies predicate s = true.
Proof.
  intros Hnow Hnone. unfold fetch_predicate. rewrite Hnow, Hnone.
  eexists. split; reflexivity.
Qed.

End Fetch.

(** *** Reset, backfill and the statuses at launch *)

Section Keeper.

Import Maintenance.

Context `{History}.
Variable config : SyncConfig.

Lemma backfill_start_world (d : Device) :
  exists w, snd (backfill_start config d) = set_world w d.
Proof.
  unfold backfill_start, Date_init. destruct (Date_now (world d)) as [w now].
  destruct (Calendar_date_byAddingDays _ _); [now exists w|].
  cbn [world set_world]. destruct (Date_now w) as [w' now']. now exists w'.
Qed.

Lemma queryHistoricalData_world (sampleType : HKSampleType) (startDate : Date) (d : Device) :
  exists w, fst (queryHistoricalData sampleType startDate d) = set_world w d.
Proof.
  unfold queryHistoricalData, Date_init. destruct (Date_now (world d)) as [w now].
  cbn [world set_world]. destruct (HKSampleQuery_execute _ _ _) as [w' [samples error]].
  exists w'. now destruct error.
Qed.

Lemma syncData_if_facts (ty : HealthDataType) (b : bool) (samples : list HKSample)
    (deleted : list string) (d : Device) :
  let d' := if b then syncData config ty samples deleted d else d in
  (idle (manager d) -> idle (manager d'))
  /\ typeStatuses d' = typeStatuses d
  /\ forall ty', getAnchor ty' d' = getAnchor ty' d.
Proof.
  cbv zeta. destruct b; [|done].
  split; [apply syncData_idle|]. split; [apply syncData_keeps|].
  intros ty'. apply HealthSyncSpec.syncData_anchor.
Qed.

Lemma resetAndResync_facts (ty : HealthDataType) (d : Device) :
  let d' := fst (resetAndResync config ty d) in
  (idle (manager d) -> idle (manager d'))
  /\ only_errors_differ (typeStatuses d) (typeStatuses d')
  /\ forall ty', ty' <> ty -> getAnchor ty' d' = getAnchor ty' d.
Proof.
  cbv zeta. unfold resetAndResync.
  destruct (hkSampleType ty) as [sampleType|];
    [|cbn; split; [done|split; [apply only_errors_differ_refl|done]]].
  destruct (backfill_start_world (clearAnchor ty d)) as [w0 Hw0].
  destruct (backfill_start config (clearAnchor ty d)) as [startDate d0]. cbn [snd] in Hw0.
  subst d0.
  match goal with
  | |- context [performAnchoredQuery sampleType None ?p ?d0] =>
      destruct (performAnchoredQuery_world sampleType None p d0) as [w1 Hw1];
      destruct (performAnchoredQuery sampleType None p d0) as [d1 answer]
  end.
  cbn [fst] in Hw1. subst d1. cbn [set_world world].
  assert (forall ty', ty' <> ty ->
            getAnchor ty' (set_world w1 (clearAnchor ty d)) = getAnchor ty' d) as Hother.
  { intros ty' Hne. rewrite <- (getAnchor_setAnchor_other None ty ty' d Hne). reflexivity. }
  destruct answer as [error | [[samples deletedObjects] newAnchor]]; cbn [fst].
  { split; [done|]. split; [|intros ty' Hne;
      rewrite HealthSyncSpec.getAnchor_set_status; now apply Hother].
    apply (set_status_only_error _ ty (set_world w1 (clearAnchor ty d))). }
  match goal with
  | |- context [if ?b then syncData config ty ?l ?del ?d0 else _] =>
      destruct (syncData_if_facts ty b l del d0) as (Hidle & Hst & Hanchor);
      set (d2 := if b then syncData config ty l del d0 else d0) in *
  end.
  split; [|split].
  - intros Hd. destruct newAnchor; apply Hidle, Hd.
  - eapply only_errors_differ_trans; [|apply set_status_only_error].
    destruct newAnchor; cbn [typeStatuses setAnchor set_userDefaults];
      rewrite Hst; apply only_errors_differ_refl.
  - intros ty' Hne. rewrite HealthSyncSpec.getAnchor_set_status.
    destruct newAnchor as [newAnchor|].
    + rewrite (getAnchor_setAnchor_other (Some newAnchor) ty ty' d2 Hne), Hanchor.
      now apply Hother.
    + rewrite Hanchor. now apply Hother.
Qed.

(** X17. [resetAndResync] forgets the cursor of its type before it asks:
    the query has no anchor and a window that always has a start, and the
    cursor afterwards is the new anchor of the answer, or none when the
    answer has no anchor or the query failed.  Where a failed delta fetch
    keeps the cursor it had, a failed reset leaves the type without one.
    The cursors of the other types are as before. *)
Theorem reset_forgets_the_cursor (ty : HealthDataType) (sampleType : HKSampleType) (d : Device) :
  hkSampleType ty = Some sampleType ->
  let cleared := clearAnchor ty d in
  let window :=
    {| withStart := Some (fst (backfill_start config cleared));
       withEnd := None;
       options := [strictStartDate] |} in
  let answer :=
    performAnchoredQuery sampleType None (Some window) (snd (backfill_start config cleared)) in
  getAnchor ty (fst (resetAndResync config ty d))
  = match snd answer with
    | inr (_, _, Some newAnchor) => Some newAnchor
    | inr (_, _, None) | inl _ => None
    end
  /\ (forall ty', ty' <> ty ->
        getAnchor ty' (fst (resetAndResync config ty d)) = getAnchor ty' d).
Proof.
  intros Hty. cbv zeta. split; [|apply resetAndResync_facts].
  unfold resetAndResync. rewrite Hty.
  destruct (backfill_start_world (clearAnchor ty d)) as [w0 Hw0].
  destruct (backfill_start config (clearAnchor ty d)) as [startDate d0]. cbn [fst snd] in *.
  subst d0.
  match goal with
  | |- context [performAnchoredQuery sampleType None ?p ?d0] =>
      destruct (performAnchoredQuery_world sampleType None p d0) as [w1 Hw1];
      destruct (performAnchoredQuery sampleType None p d0) as [d1 answer]
  end.
  cbn [fst snd] in *. subst d1.
  assert (getAnchor ty (set_world w1 (set_world w0 (clearAnchor ty d))) = None) as Hnone.
  { exact (getAnchor_setAnchor None ty d). }
  destruct answer as [error | [[samples deletedObjects] newAnchor]]; cbn [fst].
  { now rewrite HealthSyncSpec.getAnchor_set_status. }
  rewrite HealthSyncSpec.getAnchor_set_status.
  match goal with
  | |- context [if ?b then syncData config ty ?l ?del ?d0 else _] =>
      destruct (syncData_if_facts ty b l del d0) as (_ & _ & Hanchor);
      set (d2 := if b then syncData config ty l del d0 else d0) in *
  end.
  destruct newAnchor as [newAnchor|].
  - apply (getAnchor_setAnchor (Some newAnchor) ty d2).
  - now rewrite Hanchor.
Qed.

Lemma backfill_type_facts (startDate : Date) (state : Device * list Note)
    (ty : HealthDataType) :
  let state' := backfill_type config startDate state ty in
  (idle (manager (fst state)) -> idle (manager (fst state')))
  /\ only_errors_differ (typeStatuses (fst state)) (typeStatuses (fst state'))
  /\ (forall ty', getAnchor ty' (fst state') = getAnchor ty' (fst state))
  /\ length (snd state') = 2 + length (snd state).
Proof.
  cbv zeta. destruct state as [d notes]. unfold backfill_type.
  destruct (hkSampleType_total ty) as [sampleType ->].
  destruct (queryHistoricalData_world sampleType startDate d) as [w Hw].
  destruct (queryHistoricalData sampleType startDate d) as [d1 [error | samples]];
    cbn [fst snd] in *; subst d1.
  - split; [done|]. split; [apply (set_status_only_error _ ty (set_world w d))|].
    split; [|reflexivity]. intros ty'. now rewrite HealthSyncSpec.getAnchor_set_status.
  - match goal with
    | |- context [if ?b then syncData config ty ?l ?del ?d0 else _] =>
        destruct (syncData_if_facts ty b l del d0) as (Hidle & Hst & Hanchor)
    end.
    split; [exact Hidle|]. split; [rewrite Hst; apply only_errors_differ_refl|].
    split; [|reflexivity]. intros ty'. now rewrite Hanchor.
Qed.

Lemma backfill_types_facts (startDate : Date) (types : list HealthDataType) :
  forall state : Device * list Note,
    let state' := fold_left (backfill_type config startDate) types state in
    (idle (manager (fst state)) -> idle (manager (fst state')))
    /\ only_errors_differ (typeStatuses (fst state)) (typeStatuses (fst state'))
    /\ (forall ty', getAnchor ty' (fst state') = getAnchor ty' (fst state))
    /\ length (snd state') = 2 * length types + length (snd state).
Proof.
  induction types as [|ty types IH]; intros state; cbv zeta.
  - split; [done|]. split; [apply only_errors_differ_refl|]. done.
  - cbn [fold_left].
    destruct (IH (backfill_type config startDate state ty)) as (Hidle & Hst & Hanchor & Hlen).
    destruct (backfill_type_facts startDate state ty) as (Hidle1 & Hst1 & Hanchor1 & Hlen1).
    split; [auto|]. split; [eapply only_errors_differ_trans; eassumption|].
    split; [intros ty'; now rewrite Hanchor|].
    rewrite Hlen, Hlen1. cbn [length]. lia.
Qed.

Lemma performBackfill_facts (d : Device) :
  let state' := performBackfill config d in
  (idle (manager d) -> idle (manager (fst state')))
  /\ only_errors_differ (typeStatuses d) (typeStatuses (fst state'))
  /\ (forall ty', getAnchor ty' (fst state') = getAnchor ty' d)
  /\ length (snd state') = 14.
Proof.
  cbv zeta. unfold performBackfill.
  destruct (backfill_start_world d) as [w Hw].
  destruct (backfill_start config d) as [startDate d0]. cbn [snd] in Hw. subst d0.
  exact (backfill_types_facts startDate allCases (set_world w d, [])).
Qed.

(** X18. [performBackfill] moves no cursor: the anchor of every type is
    afterwards what it was, so the delta fetch that follows asks for the
    same samples again.  A failure for one type does not end the
    backfill: all seven types are tried, each with its two lines. *)
Theorem backfill_moves_no_cursor (d : Device) :
  (forall ty, getAnchor ty (fst (performBackfill config d)) = getAnchor ty d)
  /\ length (snd (performBackfill config d)) = 2 * length allCases.
Proof.
  destruct (performBackfill_facts d) as (_ & _ & Hanchor & Hlen).
  split; [exact Hanchor | exact Hlen].
Qed.

Lemma act_facts (d : Device) (a : Action) :
  (idle (manager d) -> idle (manager (act config d a)))
  /\ only_errors_differ (typeStatuses d) (typeStatuses (act config d a)).
Proof.
  destruct a as [ty | | ty |]; cbn [act].
  - split; [apply fetchAndSync_idle | apply fetchAndSync_statuses].
  - split; [apply syncAll_idle | apply syncAll_statuses].
  - destruct (resetAndResync_facts ty d) as (Hidle & Hst & _). auto.
  - destruct (performBackfill_facts d) as (Hidle & Hst & _). auto.
Qed.

Lemma run_facts (actions : list Action) :
  forall d : Device,
    (idle (manager d) -> idle (manager (run config actions d)))
    /\ only_errors_differ (typeStatuses d) (typeStatuses (run config actions d)).
Proof.
  induction actions as [|a actions IH]; intros d.
  - split; [done | apply only_errors_differ_refl].
  - unfold run. cbn [fold_left]. fold (run config actions (act config d a)).
    destruct (IH (act config d a)) as [Hidle Hst].
    destruct (act_facts d a) as [Hidle1 Hst1].
    split; [auto | eapply only_errors_differ_trans; eassumption].
Qed.

(** X19. Between the actions of the app the queue is empty: started with no
    run in progress and nothing queued, every sequence of delta fetches,
    syncs of all types, resets and backfills ends with no run in progress,
    an empty queue and no pending batch, whatever the uploads did.  What
    was not uploaded is not waiting to be. *)
Theorem nothing_waits_between_actions (actions : list Action) (d : Device) :
  idle (manager d) -> idle (manager (run config actions d)).
Proof. apply run_facts. Qed.

Lemma init_typeStatuses_lookup (isAuthorized : bool) (ty : HealthDataType) :
  init_typeStatuses isAuthorized !! rawValue ty
  = Some {| ts_id := rawValue ty; ts_type := ty; ts_lastSyncTime := None;
            lastSyncCount := None; ts_lastError := None; pendingCount := 0;
            ts_isAuthorized := isAuthorized |}.
Proof. destruct ty; reflexivity. Qed.

(** X20. No action records a sync in the status of a type.  From the
    statuses that [init] builds, after every sequence of delta fetches,
    syncs of all types, resets and backfills, each type has its status,
    and in it [lastSyncTime] and [lastSyncCount] are nil and
    [pendingCount] is 0 as at launch: the error is all that changes. *)
Theorem status_records_no_sync (isAuthorized : bool) (actions : list Action)
    (ty : HealthDataType) (d : Device) :
  typeStatuses d = init_typeStatuses isAuthorized ->
  exists error,
    typeStatuses (run config actions d) !! rawValue ty
    = Some {| ts_id := rawValue ty; ts_type := ty; ts_lastSyncTime := None;
              lastSyncCount := None; ts_lastError := error; pendingCount := 0;
              ts_isAuthorized := isAuthorized |}.
Proof.
  intros Hinit. destruct (run_facts actions d) as [_ Hst].
  specialize (Hst (rawValue ty)). rewrite Hinit, init_typeStatuses_lookup in Hst.
  destruct (typeStatuses (run config actions d) !! rawValue ty) as [st|]; [|discriminate].
  exists (ts_lastError st). destruct st. cbn in Hst. injection Hst as -> -> -> -> -> ->.
  reflexivity.
Qed.

End Keeper.

(** *** The theorems at work on a concrete device *)

Import Maintenance DeviceScenario MaintenanceScenario.

#[local] Existing Instance sim.
#[local] Existing Instance sim_history.

Lemma unnamed_activities_witness :
  validTypes_contains tennis = true
  /\ (activity_name tennis = "HKWorkoutActivityTypeOther" <-> In tennis unnamed_activities).
Proof. split; [reflexivity | apply (unnamed_activities_are_other tennis); reflexivity]. Defined.

(** The store is locked: the status of the type shows the error of the
    query. *)
Lemma status_shows_the_query_witness :
  hkSampleType heartRate = Some (HKQuantityType "HKQuantityTypeIdentifierHeartRate")
  /\ ts_lastError <$> typeStatuses (fetchAndSync config heartRate (launched locked_store))
                        !! rawValue heartRate
     = Some (Some "Protected health data is inaccessible").
Proof.
  split; [reflexivity|].
  exact (proj1 (status_shows_the_query config heartRate
                  (HKQuantityType "HKQuantityTypeIdentifierHeartRate")
                  (launched locked_store) eq_refl)).
Defined.

Lemma fetch_without_manager_witness :
  managerSet (unwired online) = false
  /\ getAnchor heartRate (fetchAndSync config heartRate (unwired online)) = Some (anchor_at 2)
  /\ manager (fetchAndSync config heartRate (unwired online)) = idle_manager
  /\ console (fetchAndSync config heartRate (unwired online)) = [print_delta "Heart Rate" 1 0].
Proof.
  split; [reflexivity|].
  destruct (fetch_without_manager config heartRate
              (HKQuantityType "HKQuantityTypeIdentifierHeartRate") (unwired online)
              _ [beat 72 9999940] [] (anchor_at 2) eq_refl eq_refl eq_refl)
    as (Hanchor & Hmanager & _ & Hconsole).
  split; [exact Hanchor|]. split; [exact Hmanager | exact Hconsole].
Defined.

Lemma junk_workouts_witness :
  Forall (fun s => left_out s = true) [phone_walk; beat 72 9999940]
  /\ syncData config workout [phone_walk; beat 72 9999940] [] (device online) = device online.
Proof.
  assert (Forall (fun s => left_out s = true) [phone_walk; beat 72 9999940]) as Hjunk
      by (repeat constructor).
  split; [exact Hjunk|].
  exact (proj2 (junk_workouts_are_dropped config _ (device online) Hjunk)).
Defined.

Lemma window_needs_the_calendar_witness :
  @Calendar_date_byAddingDays no_calendar (- backfillDays config) 10000000%float = None
  /\ exists predicate,
      fst (@fetch_predicate no_calendar config None (lost offline)) = Some predicate
      /\ forall s, satisfies predicate s = true.
Proof.
  split; [reflexivity|].
  destruct (@window_needs_the_calendar no_calendar config (lost offline) _ 10000000%float
              eq_refl eq_refl) as (predicate & Heq & Hall).
  exists predicate. split; [now rewrite Heq | exact Hall].
Defined.

(** The store is locked: the delta fetch keeps the cursor it had, the
    reset leaves none. *)
Lemma reset_forgets_the_cursor_witness :
  hkSampleType heartRate = Some (HKQuantityType "HKQuantityTypeIdentifierHeartRate")
  /\ getAnchor heartRate
       (fetchAndSync config heartRate
          (setAnchor (Some (anchor_at 1)) heartRate (launched locked_store)))
     = Some (anchor_at 1)
  /\ getAnchor heartRate
       (fst (resetAndResync config heartRate
               (setAnchor (Some (anchor_at 1)) heartRate (launched locked_store))))
     = None.
Proof.
  split; [reflexivity|]. split; [reflexivity|].
  exact (proj1 (reset_forgets_the_cursor config heartRate
                  (HKQuantityType "HKQuantityTypeIdentifierHeartRate")
                  (setAnchor (Some (anchor_at 1)) heartRate (launched locked_store))
                  eq_refl)).
Defined.

Lemma upload_stamps_its_type_witness :
  dataType (one_batch 61) = rawValue heartRate
  /\ getLastSyncTime heartRate (process_batch config (one_batch 61) (device online))
     = Some 10000000%float.
Proof.
  split; [reflexivity|].
  exact (proj1 (upload_stamps_its_type config heartRate (one_batch 61) (device online)
                  (fst (uploadBatch config (one_batch 61) (device online)))
                  eq_refl eq_refl)).
Defined.

Lemma uploads_in_queue_order_witness :
  isProcessingQueue (manager queued) = false
  /\ exists after lines,
      console (processQueue config queued) = (after ++ lines ++ console queued)%list
      /\ Forall (fun l => is_uploaded l = false /\ is_upload_failed l = false) after
      /\ Forall2 upload_line_of (uploadQueue (manager queued)) (rev lines).
Proof. exact (conj eq_refl (uploads_in_queue_order config queued eq_refl)). Defined.

Lemma nothing_waits_witness :
  idle (manager (launched offline))
  /\ idle (manager (run config [do_syncAll; do_performBackfill; do_resetAndResync heartRate]
                      (launched offline))).
Proof.
  assert (idle (manager (launched offline))) as Hidle by (repeat split).
  split; [exact Hidle|].
  exact (nothing_waits_between_actions config
           [do_syncAll; do_performBackfill; do_resetAndResync heartRate]
           (launched offline) Hidle).
Defined.

Lemma status_records_no_sync_witness :
  typeStatuses (launched online) = init_typeStatuses false
  /\ exists error,
      typeStatuses (run config [do_syncAll; do_performBackfill] (launched online))
        !! rawValue heartRate
      = Some {| ts_id := rawValue heartRate; ts_type := heartRate; ts_lastSyncTime := None;
                lastSyncCount := None; ts_lastError := error; pendingCount := 0;
                ts_isAuthorized := false |}.
Proof.
  split; [reflexivity|].
  exact (status_records_no_sync config false [do_syncAll; do_performBackfill] heartRate
           (launched online) eq_refl).
Defined.

End HealthSyncMore.
